(** * 1Sub Python SDK: transport, signature verifier and webhook dispatcher

    A shallow embedding of [onesub/errors.py], [onesub/http.py],
    [onesub/utils.py] and [onesub/webhooks.py], and the properties the
    specification states about them: the mapping of API errors, the retry
    loop of the transport, the timestamped HMAC signatures, and the
    dispatch of webhook events with its set of processed ids.

    The callers of the transport follow: [onesub/api/subscriptions.py]
    with its cache, [onesub/api/credits.py], [onesub/api/links.py] and
    [onesub/client.py], with [hash_email]; the last part of the file has
    further properties of the whole, read off the code.

    Conventions of the embedding:
    - a Python [str] is a Rocq [string], read as its UTF-8 bytes;
    - a Python [int] is a [Z];
    - a decoded JSON document is a [json] value, numbers being integers
      (the error bodies and events of the API carry no fractional number);
    - a raised exception is the [Raise] case of [pyres];
    - the clock, the network and the random generator are inputs: the clock
      value read by a call is an argument of it, the network is a function
      from the number of requests already sent to the outcome of the next
      one, the jitter a function from the number of draws already made;
    - a [float] is the rational it stands for; the rounding of the
      arithmetic of the backoff is an input too, of which only the order
      and the small integers are known;
    - what the interpreter takes from its Unicode tables ([int] of a text
      outside ASCII, the case and the whitespace of [str]) is a parameter,
      fixed on ASCII texts only. *)

From Stdlib Require Import ZArith QArith Qminmax Qpower String Ascii List Bool.
From Stdlib Require Import Lia.
From Stdlib Require Import DecimalString DecimalZ.
From stdpp Require Import base gmap sets list strings countable.

Set Warnings "-register-all".

Local Open Scope string_scope.
Local Open Scope Z_scope.

(** ** Python values *)

Module Py.

(** A decoded JSON document, as [json.loads] and [Response.json] build it:
    [None], [bool], [int], [str], [list] and [dict].  A [dict] keeps its
    items in insertion order. *)
Inductive json : Type :=
| JNull
| JBool (b : bool)
| JInt (n : Z)
| JStr (s : string)
| JArr (items : list json)
| JObj (fields : list (string * json)).

(** Python truth value of a JSON value ([not v] is its negation). *)
Definition truthy (v : json) : bool :=
  match v with
  | JNull => false
  | JBool b => b
  | JInt n => negb (n =? 0)
  | JStr s => negb (String.eqb s "")
  | JArr items => match items with [] => false | _ => true end
  | JObj fields => match fields with [] => false | _ => true end
  end.

(** [a or b] *)
Definition py_or (a b : json) : json := if truthy a then a else b.

(** Lookup in the items of a [dict]. *)
Fixpoint assoc (k : string) (fields : list (string * json)) : option json :=
  match fields with
  | [] => None
  | (k', v) :: rest => if String.eqb k k' then Some v else assoc k rest
  end.

(** [d.get(k, default)] on the items of a [dict]. *)
Definition get_default (fields : list (string * json)) (k : string)
    (default : json) : json :=
  match assoc k fields with
  | Some v => v
  | None => default
  end.

(** The numeric value of an operand of integer arithmetic; [bool] is a
    subclass of [int]. *)
Definition as_int (v : json) : option Z :=
  match v with
  | JInt n => Some n
  | JBool b => Some (if b then 1 else 0)
  | _ => None
  end.

(** The text of an exception: either a value passed as it is, or an
    f-string, kept as its literal pieces and interpolated values. *)
Inductive fpart : Type :=
| Lit (s : string)
| Interp (v : json).

Inductive pymsg : Type :=
| Msg (v : json)
| FString (parts : list fpart).

End Py.
Export Py.

(** ** errors.py *)

Module Errors.

Inductive error_class : Type :=
| OneSubError_cls
| AuthenticationError_cls
| NotFoundError_cls
| RateLimitError_cls
| InsufficientCreditsError_cls
| ValidationError_cls
| InvalidCodeError_cls
| WebhookVerificationError_cls.

(** An instance of [OneSubError] or of one of its subclasses: the four
    attributes of the base class and the attributes a subclass adds. *)
Record OneSubError : Type := mkOneSubError {
  cls : error_class;
  message : pymsg;
  code : string;
  status_code : Z;
  details : json;
  attrs : list (string * json)
}.

Definition getattr (e : OneSubError) (name : string) : option json :=
  assoc name (attrs e).

(** What a Python statement can raise here. *)
Inductive exn : Type :=
| ExOneSub (e : OneSubError)
| ExTimeout
| ExRequestException (text : string)
| ExTypeError
| ExAttributeError
| ExKeyError
| ExValueError
| ExOverflowError
| ExRecursionError
| ExJSONDecodeError
| ExHandler (text : string).

Inductive pyres (A : Type) : Type :=
| Ret (a : A)
| Raise (e : exn).
Arguments Ret {A} a.
Arguments Raise {A} e.

Definition bind {A B : Type} (m : pyres A) (k : A -> pyres B) : pyres B :=
  match m with
  | Ret a => k a
  | Raise e => Raise e
  end.

Notation "'do' x <- m ; k" := (bind m (fun x => k))
  (at level 10, x name, m at level 100, k at level 200).

(** [OneSubError.__init__]: [self.details = details or {}]. *)
Definition OneSubError_init (c : error_class) (m : pymsg) (code : string)
    (status : Z) (details : json) (attrs : list (string * json)) : OneSubError :=
  mkOneSubError c m code status
    (if truthy details then details else JObj []) attrs.

Definition BaseError (m : pymsg) (code : string) (status : Z) (details : json)
    : OneSubError :=
  OneSubError_init OneSubError_cls m code status details [].

Definition AuthenticationError (m : pymsg) : OneSubError :=
  OneSubError_init AuthenticationError_cls m "UNAUTHORIZED" 401 JNull [].

Definition NotFoundError (m : pymsg) : OneSubError :=
  OneSubError_init NotFoundError_cls m "NOT_FOUND" 404 JNull [].

Definition RateLimitError (retry_after limit remaining : json) : OneSubError :=
  OneSubError_init RateLimitError_cls
    (FString [Lit "Rate limit exceeded. Retry after "; Interp retry_after;
              Lit " seconds."])
    "RATE_LIMIT_EXCEEDED" 429 JNull
    [("retry_after", retry_after); ("limit", limit); ("remaining", remaining)].

(** [self.shortfall = required - current_balance] raises [TypeError] on
    operands that are not numbers. *)
Definition InsufficientCreditsError (current_balance required : json)
    : pyres OneSubError :=
  match as_int required, as_int current_balance with
  | Some r, Some c =>
      Ret (OneSubError_init InsufficientCreditsError_cls
             (FString [Lit "Insufficient credits. Current: ";
                       Interp current_balance; Lit ", Required: ";
                       Interp required])
             "INSUFFICIENT_CREDITS" 400 JNull
             [("current_balance", current_balance); ("required", required);
              ("shortfall", JInt (r - c))])
  | _, _ => Raise ExTypeError
  end.

Definition ValidationError (m : pymsg) (details : json) : OneSubError :=
  OneSubError_init ValidationError_cls m "VALIDATION_ERROR" 400 details [].

Definition InvalidCodeError (m : pymsg) : OneSubError :=
  OneSubError_init InvalidCodeError_cls m "INVALID_CODE" 400 JNull [].

Definition WebhookVerificationError (m : pymsg) : OneSubError :=
  OneSubError_init WebhookVerificationError_cls m
    "WEBHOOK_VERIFICATION_FAILED" 401 JNull [].

Definition WebhookVerificationError_default : OneSubError :=
  WebhookVerificationError (Msg (JStr "Invalid webhook signature")).

(** [body.get(key, default)]; a value that is not a [dict] has no [get]. *)
Definition dict_get (body : json) (key : string) (default : json)
    : pyres json :=
  match body with
  | JObj fields => Ret (get_default fields key default)
  | _ => Raise ExAttributeError
  end.

Definition raise_error {A : Type} (e : OneSubError) : pyres A :=
  Raise (ExOneSub e).

Definition is_insufficient_credits (v : json) : bool :=
  match v with
  | JStr s => String.eqb s "INSUFFICIENT_CREDITS"
  | _ => false
  end.

(** [parse_api_error(status_code, body)] *)
Definition parse_api_error (status_code : Z) (body : json)
    : pyres OneSubError :=
  do m <- dict_get body "message" JNull;
  do m_or_e <- (if truthy m then Ret m else dict_get body "error" JNull);
  let message := py_or m_or_e (JStr "Unknown error") in
  if status_code =? 401 then
    raise_error (AuthenticationError (Msg message))
  else if status_code =? 404 then
    raise_error (NotFoundError (Msg message))
  else if status_code =? 429 then
    do retry_after <- dict_get body "retry_after" (JInt 60);
    do limit <- dict_get body "limit" (JInt 100);
    do remaining <- dict_get body "remaining" (JInt 0);
    raise_error (RateLimitError retry_after limit remaining)
  else if status_code =? 400 then
    do err <- dict_get body "error" JNull;
    do _ <- (if is_insufficient_credits err then
               do current_balance <- dict_get body "current_balance" (JInt 0);
               do required <- dict_get body "required" (JInt 0);
               do exc <- InsufficientCreditsError current_balance required;
               raise_error exc
             else Ret tt);
    raise_error (ValidationError (Msg message) body)
  else
    raise_error (BaseError (Msg message) "API_ERROR" status_code body).

(** The value of [message] in [parse_api_error] when [body] is a [dict]
    of these items:
    [body.get("message") or body.get("error") or "Unknown error"]. *)
Definition error_message (fields : list (string * json)) : pymsg :=
  Msg (py_or (py_or (get_default fields "message" JNull)
                    (get_default fields "error" JNull))
             (JStr "Unknown error")).

End Errors.
Export Errors.

(** ** http.py

    The network and the random generator are inputs ([env]); what a call
    of [request] has sent, drawn and slept is its effect ([world]).  The
    debug log of [_log] goes to the standard output and is left out. *)

Module Http.

(** What [Response.json()] gives: the decoded body, or the decoding error
    of [requests], whose text is [err]. *)
Inductive decoded : Type :=
| Decoded (j : json)
| NotJson (err : string).

Record response : Type := mkResponse {
  resp_status : Z;
  resp_text : string;
  resp_json : decoded
}.

(** [Response.ok]: [raise_for_status] raises on 400..599. *)
Definition ok (r : response) : bool :=
  negb ((400 <=? resp_status r) && (resp_status r <? 600)).

(** [Response.json()]; the decoding error of [requests] is a
    [RequestException]. *)
Definition response_json (r : response) : pyres json :=
  match resp_json r with
  | Decoded j => Ret j
  | NotJson err => Raise (ExRequestException err)
  end.

(** The outcome of one [session.request]. *)
Inductive outcome : Type :=
| Responds (r : response)
| TimesOut
| Fails (text : string).

(** The environment of a client: the [n]-th request sent gets
    [server n]; the [n]-th call of [random.random()] returns [jitter n].
    A [float] is the rational it stands for, and an operation on floats
    gives the float nearest to the exact result, [nearest x]: of that
    rounding only this much is used, that it keeps the order and leaves
    the integers up to [2 ** 53] as they are. *)
Record env : Type := mkEnv {
  server : nat -> outcome;
  jitter : nat -> Q;
  nearest : Q -> Q;
  nearest_le : forall x y : Q, (x <= y)%Q -> (nearest x <= nearest y)%Q;
  nearest_int :
    forall n : Z, Z.abs n <= 2 ^ 53 -> (nearest (inject_Z n) == inject_Z n)%Q
}.

(** What a run has done so far. *)
Record world : Type := mkWorld {
  sent : nat;
  draws : nat;
  slept : list Q
}.

Definition world0 : world := mkWorld 0 0 [].

Record HttpClient : Type := mkHttpClient {
  api_key : string;
  base_url : string;
  timeout : Z;
  max_retries : Z;
  debug : bool
}.

Definition session_request (E : env) (w : world) : pyres response * world :=
  let w' := mkWorld (S (sent w)) (draws w) (slept w) in
  match server E (sent w) with
  | Responds r => (Ret r, w')
  | TimesOut => (Raise ExTimeout, w')
  | Fails text => (Raise (ExRequestException text), w')
  end.

(** [_calculate_backoff(attempt)]:
    [min(1.0 * (2 ** attempt) + random.random(), 30.0)].  The product
    makes a float of the integer [2 ** attempt], which raises
    [OverflowError] from [2 ** 1024] on, before the jitter is drawn; with a
    negative [attempt] the power is a float already. *)
Definition _calculate_backoff (E : env) (attempt : Z) (w : world)
    : pyres Q * world :=
  let base_delay := 1%Q in
  let max_delay := 30%Q in
  if 1024 <=? attempt then (Raise ExOverflowError, w)
  else
    let delay := nearest E (base_delay * 2 ^ attempt)%Q in
    let j := jitter E (draws w) in
    (Ret (Qmin (nearest E (delay + j)) max_delay),
     mkWorld (sent w) (S (draws w)) (slept w)).

Definition sleep (d : Q) (w : world) : world :=
  mkWorld (sent w) (draws w) (slept w ++ [d]).

(** The body of an error response: [response.json()], and
    [{"message": response.text}] when that raises [ValueError]. *)
Definition error_body (r : response) : json :=
  match resp_json r with
  | Decoded j => j
  | NotJson _ => JObj [("message", JStr (resp_text r))]
  end.

(** The body of the [try] statement after the response has arrived:
    [Ret (Some j)] is [return j], [Ret None] is the end of the block. *)
Definition after_response (r : response) : pyres (option json) :=
  if ok r then
    do j <- response_json r;
    Ret (Some j)
  else
    let body := error_body r in
    do _ <- (if (400 <=? resp_status r) && (resp_status r <? 500)
                && negb (resp_status r =? 429)
             then do _ <- parse_api_error (resp_status r) body; Ret tt
             else Ret tt);
    do _ <- parse_api_error (resp_status r) body;
    Ret None.

(** One pass through the [try] statement with its [except] clauses:
    [inl res] leaves [request] with [res]; [inr last_error] goes on to the
    retry part with the new value of [last_error]. *)
Definition attempt_once (c : HttpClient) (E : env)
    (last_error : option OneSubError) (w : world)
    : (pyres json + option OneSubError) * world :=
  let (got, w1) := session_request E w in
  match (do r <- got; after_response r) with
  | Ret (Some j) => (inl (Ret j), w1)
  | Ret None => (inr last_error, w1)
  | Raise (ExOneSub e) => (inl (Raise (ExOneSub e)), w1)
  | Raise ExTimeout =>
      (inr (Some (BaseError
                    (FString [Lit "Request timed out after ";
                              Interp (JInt (timeout c)); Lit "s"])
                    "TIMEOUT" 0 JNull)), w1)
  | Raise (ExRequestException text) =>
      (inr (Some (BaseError (Msg (JStr text)) "NETWORK_ERROR" 0 JNull)), w1)
  | Raise e => (inl (Raise e), w1)
  end.

(** [for attempt in range(self.max_retries + 1)] and what follows it. *)
Fixpoint request_from (c : HttpClient) (E : env) (attempts : list Z)
    (last_error : option OneSubError) (w : world) : pyres json * world :=
  match attempts with
  | [] =>
      match last_error with
      | Some e => (Raise (ExOneSub e), w)
      | None =>
          (Raise (ExOneSub (BaseError (Msg (JStr "Request failed after retries"))
                              "NETWORK_ERROR" 0 JNull)), w)
      end
  | attempt :: rest =>
      match attempt_once c E last_error w with
      | (inl res, w1) => (res, w1)
      | (inr last_error', w1) =>
          if attempt <? max_retries c then
            match _calculate_backoff E attempt w1 with
            | (Ret delay, w') =>
                request_from c E rest last_error' (sleep delay w')
            | (Raise e, w') => (Raise e, w')
            end
          else request_from c E rest last_error' w1
      end
  end.

(** [range(n)] *)
Definition range (n : Z) : list Z := map Z.of_nat (seq 0 (Z.to_nat n)).

(** [HttpClient.request]; the method, the path and the JSON data are sent
    to the server and do not change what the client does with the answer. *)
Definition request (c : HttpClient) (E : env) (w : world)
    : pyres json * world :=
  request_from c E (range (max_retries c + 1)) None w.

End Http.
Export Http.

(** ** hashlib and hmac

    SHA-256 (FIPS 180-4) and HMAC (RFC 2104) over lists of bytes, a byte
    being a [Z] in 0..255 and a word a [Z] in 0..2^32-1. *)

Module Sha256.

(** Addition of words. *)
Definition add32 (x y : Z) : Z := (x + y) mod 2 ^ 32.

(** Rotation of a word to the right by [n] bits. *)
Definition rotr (n x : Z) : Z :=
  Z.lor (Z.shiftr x n) (Z.shiftl x (32 - n) mod 2 ^ 32).

Definition xor3 (x y z : Z) : Z := Z.lxor (Z.lxor x y) z.

Definition Ch (x y z : Z) : Z :=
  Z.lxor (Z.land x y) (Z.land (Z.lxor x 0xffffffff) z).
Definition Maj (x y z : Z) : Z :=
  xor3 (Z.land x y) (Z.land x z) (Z.land y z).
Definition Sigma0 (x : Z) : Z := xor3 (rotr 2 x) (rotr 13 x) (rotr 22 x).
Definition Sigma1 (x : Z) : Z := xor3 (rotr 6 x) (rotr 11 x) (rotr 25 x).
Definition sigma0 (x : Z) : Z := xor3 (rotr 7 x) (rotr 18 x) (Z.shiftr x 3).
Definition sigma1 (x : Z) : Z := xor3 (rotr 17 x) (rotr 19 x) (Z.shiftr x 10).

(** The largest [r] below [2 ^ n] with [r ^ k <= x], bit by bit from the
    top. *)
Fixpoint root_bits (k : Z) (n : nat) (x r : Z) : Z :=
  match n with
  | O => r
  | S n' =>
      let r' := r + 2 ^ Z.of_nat n' in
      root_bits k n' x (if r' ^ k <=? x then r' else r)
  end.

(** The first thirty-two bits of the fractional part of the [k]-th root
    of [p]. *)
Definition frac_root32 (k p : Z) : Z :=
  root_bits k 40 (p * 2 ^ (32 * k)) 0 mod 2 ^ 32.

(** The first sixty-four primes. *)
Definition primes : list Z :=
  [2; 3; 5; 7; 11; 13; 17; 19; 23; 29; 31; 37; 41; 43; 47; 53; 59; 61; 67;
   71; 73; 79; 83; 89; 97; 101; 103; 107; 109; 113; 127; 131; 137; 139; 149;
   151; 157; 163; 167; 173; 179; 181; 191; 193; 197; 199; 211; 223; 227;
   229; 233; 239; 241; 251; 257; 263; 269; 271; 277; 281; 283; 293; 307;
   311].

(** The round constants: from the cube roots of the primes. *)
Definition K : list Z := Eval vm_compute in map (frac_root32 3) primes.

Record state : Type := mkState {
  sa : Z; sb : Z; sc : Z; sd : Z; se : Z; sf : Z; sg : Z; sh : Z
}.

(** The initial hash value: from the square roots of the first eight
    primes. *)
Definition H0 : state :=
  Eval vm_compute in
    let h := fun i => frac_root32 2 (nth i primes 0) in
    mkState (h 0%nat) (h 1%nat) (h 2%nat) (h 3%nat)
            (h 4%nat) (h 5%nat) (h 6%nat) (h 7%nat).

(** The [n] low bytes of [v], the most significant first. *)
Fixpoint be_bytes (n : nat) (v : Z) : list Z :=
  match n with
  | O => []
  | S n' => Z.shiftr v (8 * Z.of_nat n') mod 256 :: be_bytes n' v
  end.

(** The message followed by the bit 1, zeros, and its length in bits on
    eight bytes: a multiple of 64 bytes. *)
Definition pad (msg : list Z) : list Z :=
  let len := Z.of_nat (length msg) in
  msg ++ [0x80] ++ repeat 0 (Z.to_nat ((55 - len) mod 64))
      ++ be_bytes 8 (8 * len).

(** The first [n] pieces of [size] elements of [l]. *)
Fixpoint chunks (n : nat) (size : nat) (l : list Z) : list (list Z) :=
  match n with
  | O => []
  | S n' => firstn size l :: chunks n' size (skipn size l)
  end.

Definition be_word (bytes : list Z) : Z :=
  fold_left (fun acc b => acc * 256 + b) bytes 0.

Definition block_words (block : list Z) : list Z :=
  map be_word (chunks 16 4 block).

(** [n] more words of the message schedule; [rev_w] holds the words so
    far, the latest first. *)
Fixpoint extend (n : nat) (rev_w : list Z) : list Z :=
  match n with
  | O => rev_w
  | S n' =>
      let w := add32 (add32 (sigma1 (nth 1 rev_w 0)) (nth 6 rev_w 0))
                     (add32 (sigma0 (nth 14 rev_w 0)) (nth 15 rev_w 0)) in
      extend n' (w :: rev_w)
  end.

Definition schedule (block : list Z) : list Z :=
  rev (extend 48 (rev (block_words block))).

(** One of the sixty-four rounds, with its constant and its word. *)
Definition round (s : state) (kw : Z * Z) : state :=
  let t1 := add32 (add32 (add32 (sh s) (Sigma1 (se s)))
                         (add32 (Ch (se s) (sf s) (sg s)) (fst kw))) (snd kw) in
  let t2 := add32 (Sigma0 (sa s)) (Maj (sa s) (sb s) (sc s)) in
  mkState (add32 t1 t2) (sa s) (sb s) (sc s) (add32 (sd s) t1)
          (se s) (sf s) (sg s).

Definition compress (h : state) (block : list Z) : state :=
  let s := fold_left round (combine K (schedule block)) h in
  mkState (add32 (sa h) (sa s)) (add32 (sb h) (sb s)) (add32 (sc h) (sc s))
          (add32 (sd h) (sd s)) (add32 (se h) (se s)) (add32 (sf h) (sf s))
          (add32 (sg h) (sg s)) (add32 (sh h) (sh s)).

Definition sha256 (msg : list Z) : state :=
  let p := pad msg in
  fold_left compress (chunks (length p / 64) 64 p) H0.

Definition digest (msg : list Z) : list Z :=
  let s := sha256 msg in
  flat_map (be_bytes 4) [sa s; sb s; sc s; sd s; se s; sf s; sg s; sh s].

End Sha256.

(** ** utils.py *)

Module Utils.

(** [str.encode()] *)
Definition bytes_of_string (s : string) : list Z :=
  map (fun a => Z.of_N (N_of_ascii a)) (list_ascii_of_string s).

Definition hexchars : list ascii :=
  ["0"; "1"; "2"; "3"; "4"; "5"; "6"; "7"; "8"; "9";
   "a"; "b"; "c"; "d"; "e"; "f"]%char.

Definition hexdigit (n : Z) : ascii := nth (Z.to_nat n) hexchars "f"%char.

(** [hexdigest()] *)
Fixpoint hex_of_bytes (bytes : list Z) : string :=
  match bytes with
  | [] => ""
  | b :: rest =>
      String (hexdigit (Z.shiftr b 4 mod 16))
        (String (hexdigit (b mod 16)) (hex_of_bytes rest))
  end.

(** [hmac.new(key, msg, hashlib.sha256).digest()] *)
Definition hmac_sha256 (key msg : list Z) : list Z :=
  let key1 :=
    if 64 <? Z.of_nat (length key) then Sha256.digest key else key in
  let key2 := (key1 ++ repeat 0 (64 - length key1)%nat)%list in
  let ipad := map (Z.lxor 0x36) key2 in
  let opad := map (Z.lxor 0x5c) key2 in
  Sha256.digest (opad ++ Sha256.digest (ipad ++ msg))%list.

(** [create_hmac_signature(payload, secret)] *)
Definition create_hmac_signature (payload secret : string) : string :=
  hex_of_bytes (hmac_sha256 (bytes_of_string secret) (bytes_of_string payload)).

(** [s.split(sep)] for a separator of one character. *)
Fixpoint split_on (sep : ascii) (s : string) : list string :=
  match s with
  | "" => [""]
  | String c rest =>
      if Ascii.eqb c sep then "" :: split_on sep rest
      else match split_on sep rest with
           | [] => [String c ""]
           | piece :: pieces => String c piece :: pieces
           end
  end.

(** [s.split(sep, 1)] when [sep in s]: what is before the first separator
    and what is after it; [None] when [sep] is not in [s]. *)
Fixpoint split_first (sep : ascii) (s : string) : option (string * string) :=
  match s with
  | "" => None
  | String c rest =>
      if Ascii.eqb c sep then Some ("", rest)
      else match split_first sep rest with
           | Some (key, value) => Some (String c key, value)
           | None => None
           end
  end.

(** One turn of the loop of [parse_signature_header]. *)
Definition header_part (acc : option string * option string) (part : string)
    : option string * option string :=
  match split_first "=" part with
  | Some (key, value) =>
      if String.eqb key "t" then (Some value, snd acc)
      else if String.eqb key "v1" then (fst acc, Some value)
      else acc
  | None => acc
  end.

(** [parse_signature_header(header)]: [(timestamp, signature)] *)
Definition parse_signature_header (header : string)
    : option string * option string :=
  fold_left header_part (split_on "," header) (None, None).

(** The ASCII whitespace of [str]: what [str.strip()] takes off. *)
Definition is_space (c : ascii) : bool :=
  let n := N_of_ascii c in
  ((9 <=? n) && (n <=? 13) || (28 <=? n) && (n <=? 32))%N.

Fixpoint lstrip (s : string) : string :=
  match s with
  | "" => ""
  | String c rest => if is_space c then lstrip rest else s
  end.

Fixpoint rstrip (s : string) : string :=
  match s with
  | "" => ""
  | String c rest =>
      match rstrip rest with
      | "" => if is_space c then "" else String c ""
      | rest' => String c rest'
      end
  end.

Definition strip (s : string) : string := rstrip (lstrip s).

(** The digits of a decimal literal: at least one digit, and single
    underscores between digits only.  [prev] tells that the character
    before is a digit. *)
Fixpoint digits_of (s : string) (prev : bool) : option Decimal.uint :=
  match s with
  | "" => if prev then Some Decimal.Nil else None
  | String c rest =>
      match c with
      | "0"%char => option_map Decimal.D0 (digits_of rest true)
      | "1"%char => option_map Decimal.D1 (digits_of rest true)
      | "2"%char => option_map Decimal.D2 (digits_of rest true)
      | "3"%char => option_map Decimal.D3 (digits_of rest true)
      | "4"%char => option_map Decimal.D4 (digits_of rest true)
      | "5"%char => option_map Decimal.D5 (digits_of rest true)
      | "6"%char => option_map Decimal.D6 (digits_of rest true)
      | "7"%char => option_map Decimal.D7 (digits_of rest true)
      | "8"%char => option_map Decimal.D8 (digits_of rest true)
      | "9"%char => option_map Decimal.D9 (digits_of rest true)
      | "_"%char => if prev then digits_of rest false else None
      | _ => None
      end
  end.

(** The whitespace [int()] skips around the digits of an ASCII text:
    tab to carriage return, and the space. *)
Definition is_int_space (c : ascii) : bool :=
  let n := N_of_ascii c in
  ((9 <=? n) && (n <=? 13) || (n =? 32))%N.

Fixpoint int_lstrip (s : string) : string :=
  match s with
  | "" => ""
  | String c rest => if is_int_space c then int_lstrip rest else s
  end.

Fixpoint int_rstrip (s : string) : string :=
  match s with
  | "" => ""
  | String c rest =>
      match int_rstrip rest with
      | "" => if is_int_space c then "" else String c ""
      | rest' => String c rest'
      end
  end.

(** [int(s)] on an ASCII text, base ten; [None] is [ValueError]: optional
    whitespace, an optional sign, digits with single underscores between
    them, optional whitespace. *)
Definition int_ascii (s : string) : option Z :=
  match int_rstrip (int_lstrip s) with
  | String "-" rest =>
      option_map (fun d => - Z.of_uint d) (digits_of rest false)
  | String "+" rest => option_map Z.of_uint (digits_of rest false)
  | body => option_map Z.of_uint (digits_of body false)
  end.

(** [str(n)] on an integer. *)
Definition py_str (n : Z) : string := NilZero.string_of_int (Z.to_int n).

Fixpoint string_forall (p : ascii -> bool) (s : string) : bool :=
  match s with
  | "" => true
  | String c rest => p c && string_forall p rest
  end.

Definition is_ascii (s : string) : bool :=
  string_forall (fun a => (N_of_ascii a <? 128)%N) s.

(** [int(s)] on a [str]; [None] is [ValueError], the one exception it
    raises on a [str].  On a text with characters outside ASCII it reads
    the decimal digits and the whitespace of the Unicode tables of the
    interpreter; only its values on ASCII texts are fixed here.  The limit
    an interpreter may put on the number of digits is left out, as it is
    for [str(n)]. *)
Class IntOfStr : Type := mkIntOfStr {
  py_int : string -> option Z;
  py_int_ascii : forall s, is_ascii s = true -> py_int s = int_ascii s
}.

Definition is_hex (c : ascii) : bool := existsb (Ascii.eqb c) hexchars.

Definition is_digit (c : ascii) : bool :=
  existsb (Ascii.eqb c) ["0"; "1"; "2"; "3"; "4"; "5"; "6"; "7"; "8"; "9"]%char.

(** [hmac.compare_digest(a, b)] on two [str]: [TypeError] unless both are
    ASCII. *)
Definition compare_digest (a b : string) : pyres bool :=
  if is_ascii a && is_ascii b then Ret (String.eqb a b)
  else Raise ExTypeError.

(** [verify_signature(payload, signature, secret, tolerance_seconds)],
    [now] being the value of [int(time.time())]. *)
Definition verify_signature {I : IntOfStr} (now : Z)
    (payload signature secret : string) (tolerance_seconds : Z)
    : pyres bool :=
  let (timestamp, sig) := parse_signature_header signature in
  match timestamp, sig with
  | Some timestamp, Some sig =>
      if String.eqb timestamp "" || String.eqb sig "" then Ret false
      else
        match py_int timestamp with
        | None => Ret false
        | Some ts =>
            if Z.abs (now - ts) >? tolerance_seconds then Ret false
            else
              let signed_payload := timestamp ++ "." ++ payload in
              let expected := create_hmac_signature signed_payload secret in
              compare_digest expected sig
        end
  | _, _ => Ret false
  end.

(** [generate_signature(payload, secret)], [now] being the value of
    [int(time.time())]. *)
Definition generate_signature (now : Z) (payload secret : string) : string :=
  let timestamp := now in
  let signed_payload := py_str timestamp ++ "." ++ payload in
  let sig := create_hmac_signature signed_payload secret in
  "t=" ++ py_str timestamp ++ ",v1=" ++ sig.

End Utils.
Export Utils.

(** ** webhooks.py *)

Module Webhooks.

(** The hashable JSON values, up to the equality of Python: what a [set]
    or the keys of a [dict] hold.  [True] and [False] are [1] and [0]. *)
Inductive key : Type :=
| KNone
| KInt (n : Z)
| KStr (s : string).

#[global] Instance key_eq_dec : EqDecision key.
Proof. solve_decision. Defined.

Definition key_encode (k : key) : unit + (Z + string) :=
  match k with
  | KNone => inl tt
  | KInt n => inr (inl n)
  | KStr s => inr (inr s)
  end.

Definition key_decode (x : unit + (Z + string)) : key :=
  match x with
  | inl _ => KNone
  | inr (inl n) => KInt n
  | inr (inr s) => KStr s
  end.

#[global] Instance key_countable : Countable key.
Proof.
  refine (inj_countable' key_encode key_decode _).
  intros k; destruct k; reflexivity.
Defined.

(** Hashing a value, as [in], [add] and [dict.get] do: a [list] or a [dict]
    is unhashable. *)
Definition hash_key (v : json) : pyres key :=
  match v with
  | JNull => Ret KNone
  | JBool b => Ret (KInt (if b then 1 else 0))
  | JInt n => Ret (KInt n)
  | JStr s => Ret (KStr s)
  | JArr _ | JObj _ => Raise ExTypeError
  end.

(** A registered handler: a function object, with a name that identifies
    it in the history of calls; its body returns or raises. *)
Record WebhookHandler : Type := mkHandler {
  handler_name : string;
  handler_body : json -> pyres unit
}.

(** [set.pop()]: removes and returns an arbitrary member, [KeyError] on the
    empty set.  Which member is arbitrary: a choice function, of which only
    this much is known. *)
Class SetPop : Type := mkSetPop {
  set_pop : gset key -> option key;
  set_pop_elem : forall s k, set_pop s = Some k -> k ∈ s;
  set_pop_empty : forall s, set_pop s = None -> s = ∅
}.

(** The attributes of a [WebhooksClient], and with them the history of the
    handler calls made through it, the latest last. *)
Record WebhooksClient : Type := mkWebhooksClient {
  secret : string;
  tolerance_seconds : Z;
  _handlers : gmap key WebhookHandler;
  _processed_events : gset key;
  _max_processed : Z;
  calls : list (string * json)
}.

(** [WebhooksClient.__init__] *)
Definition init (secret : string) (tolerance_seconds : Z) : WebhooksClient :=
  mkWebhooksClient secret tolerance_seconds ∅ ∅ 10000 [].

Definition set_handlers (self : WebhooksClient) (h : gmap key WebhookHandler)
    : WebhooksClient :=
  mkWebhooksClient (secret self) (tolerance_seconds self) h
    (_processed_events self) (_max_processed self) (calls self).

Definition set_processed (self : WebhooksClient) (p : gset key)
    : WebhooksClient :=
  mkWebhooksClient (secret self) (tolerance_seconds self) (_handlers self)
    p (_max_processed self) (calls self).

Definition record_call (self : WebhooksClient) (name : string) (event : json)
    : WebhooksClient :=
  mkWebhooksClient (secret self) (tolerance_seconds self) (_handlers self)
    (_processed_events self) (_max_processed self)
    (calls self ++ [(name, event)]).

(** [verify(payload, signature)] *)
Definition verify {I : IntOfStr} (self : WebhooksClient) (now : Z)
    (payload signature : string) : pyres bool :=
  if String.eqb payload "" || String.eqb signature "" then Ret false
  else verify_signature now payload signature (secret self)
         (tolerance_seconds self).

(** [verify_or_raise(payload, signature)] *)
Definition verify_or_raise {I : IntOfStr} (self : WebhooksClient) (now : Z)
    (payload signature : string) : pyres unit :=
  do valid <- verify self now payload signature;
  if negb valid then raise_error WebhookVerificationError_default
  else Ret tt.

(** [on(event_type, handler)] *)
Definition on (self : WebhooksClient) (event_type : string)
    (handler : WebhookHandler) : WebhooksClient :=
  set_handlers self (<[KStr event_type := handler]> (_handlers self)).

(** [off(event_type)] *)
Definition off (self : WebhooksClient) (event_type : string) : WebhooksClient :=
  set_handlers self (delete (KStr event_type) (_handlers self)).

(** [is_processed(event_id)] *)
Definition is_processed (self : WebhooksClient) (event_id : key) : bool :=
  bool_decide (event_id ∈ _processed_events self).

(** [clear_processed()] *)
Definition clear_processed (self : WebhooksClient) : WebhooksClient :=
  set_processed self ∅.

(** [event.get("id", "")], hashed by the membership test that follows. *)
Definition event_id_of (event : json) : pyres key :=
  do v <- dict_get event "id" (JStr ""); hash_key v.

(** [event.get("type", "")], hashed by the lookup that follows. *)
Definition event_type_of (event : json) : pyres key :=
  do v <- dict_get event "type" (JStr ""); hash_key v.

(** The events that [handle] files under the id [""]: a [dict] without
    ["id"], or with the empty string as ["id"]. *)
Definition has_no_id (event : json) : bool :=
  match event with
  | JObj fields =>
      match assoc "id" fields with
      | None => true
      | Some (JStr s) => String.eqb s ""
      | Some _ => false
      end
  | _ => false
  end.

Section Dispatch.

Context {pop : SetPop} {I : IntOfStr}.

(** [json.loads] on a [str]: the document, or the exception it raises,
    which is [json.JSONDecodeError] on a text that is not JSON and may be
    another one ([RecursionError] on a text nested too deep). *)
Variable json_loads : string -> pyres json.

(** [construct_event(payload, signature)]: of the exceptions of
    [json.loads] only [json.JSONDecodeError] is caught. *)
Definition construct_event (self : WebhooksClient) (now : Z)
    (payload signature : string) : pyres json :=
  do _ <- verify_or_raise self now payload signature;
  match json_loads payload with
  | Ret event => Ret event
  | Raise ExJSONDecodeError =>
      raise_error
        (WebhookVerificationError (Msg (JStr "Invalid webhook payload")))
  | Raise e => Raise e
  end.

(** [_mark_processed(event_id)] *)
Definition _mark_processed (self : WebhooksClient) (event_id : key)
    : pyres unit * WebhooksClient :=
  if Z.of_nat (size (_processed_events self)) >=? _max_processed self then
    match set_pop (_processed_events self) with
    | Some victim =>
        (Ret tt,
         set_processed self
           ({[event_id]} ∪ (_processed_events self ∖ {[victim]})))
    | None => (Raise ExKeyError, self)
    end
  else
    (Ret tt, set_processed self ({[event_id]} ∪ _processed_events self)).

(** [handle(event)] *)
Definition handle (self : WebhooksClient) (event : json)
    : pyres bool * WebhooksClient :=
  match event_id_of event with
  | Raise e => (Raise e, self)
  | Ret event_id =>
      if bool_decide (event_id ∈ _processed_events self) then (Ret true, self)
      else
        match event_type_of event with
        | Raise e => (Raise e, self)
        | Ret event_type =>
            match _handlers self !! event_type with
            | None => (Ret false, self)
            | Some handler =>
                match _mark_processed self event_id with
                | (Raise e, self1) => (Raise e, self1)
                | (Ret _, self1) =>
                    let self2 :=
                      record_call self1 (handler_name handler) event in
                    match handler_body handler event with
                    | Raise e => (Raise e, self2)
                    | Ret _ => (Ret true, self2)
                    end
                end
            end
        end
  end.

(** [process(payload, signature)] *)
Definition process (self : WebhooksClient) (now : Z)
    (payload signature : string) : pyres json * WebhooksClient :=
  match construct_event self now payload signature with
  | Raise e => (Raise e, self)
  | Ret event =>
      match handle self event with
      | (Raise e, self1) => (Raise e, self1)
      | (Ret _, self1) => (Ret event, self1)
      end
  end.

End Dispatch.

(** The bound on the processed set: [_max_processed] is the 10000 that
    [__init__] gave it, and the set has no more members than that. *)
Definition within_capacity (self : WebhooksClient) : Prop :=
  _max_processed self = 10000
  /\ Z.of_nat (size (_processed_events self)) <= 10000.

(** [generate_test_signature(payload)] *)
Definition generate_test_signature (self : WebhooksClient) (now : Z)
    (payload : string) : string :=
  generate_signature now payload (secret self).

End Webhooks.
Export Webhooks.

(** ** Scenarios

    The clients, servers, handlers and events of the examples. *)

Module Scenarios.

Definition default_client : HttpClient :=
  mkHttpClient "sk-tool-test" "https://1sub.io/api/v1" 30 3 false.

Definition json_response (status : Z) (text : string) (j : json) : outcome :=
  Responds (mkResponse status text (Decoded j)).

(** The double quote. *)
Definition dq : string := String "034"%char "".

Definition not_found_text : string :=
  "{" ++ dq ++ "message" ++ dq ++ ":" ++ dq ++ "not found" ++ dq ++ "}".

Definition success_text : string :=
  "{" ++ dq ++ "success" ++ dq ++ ":true}".

(** The servers of the examples: the delays they lead to are floats as
    they stand, so that rounding leaves them as they are. *)
Definition exact_env (server : nat -> outcome) (jitter : nat -> Q) : env :=
  mkEnv server jitter (fun x => x) (fun _ _ H => H) (fun _ _ => Qeq_refl _).

(** A server that answers 404 with [{"message":"not found"}]. *)
Definition not_found_server : env :=
  exact_env (fun _ => json_response 404 not_found_text
                    (JObj [("message", JStr "not found")]))
        (fun _ => 0%Q).

(** A server that answers 429 twice and then 200 with
    [{"success":true}]. *)
Definition rate_limited_twice : env :=
  exact_env (fun n =>
           match n with
           | O | S O => json_response 429 "{}" (JObj [])
           | _ => json_response 200 success_text
                    (JObj [("success", JBool true)])
           end)
        (fun _ => 0%Q).

(** A server whose first two requests time out and that then answers 200
    with [{"success":true}]. *)
Definition times_out_twice : env :=
  exact_env (fun n =>
           match n with
           | O | S O => TimesOut
           | _ => json_response 200 success_text
                    (JObj [("success", JBool true)])
           end)
        (fun _ => 0%Q).

(** The choice of [set.pop()] in the examples: the first member in the
    order of [elements]. *)
Lemma pop_first_elem (s : gset key) (k : key) :
  head (elements s) = Some k -> k ∈ s.
Proof.
  intros H. apply elem_of_elements.
  destruct (elements s) as [|x l]; [discriminate|].
  injection H as ->. left.
Qed.

Lemma pop_first_empty (s : gset key) : head (elements s) = None -> s = ∅.
Proof.
  intros H. apply leibniz_equiv, elements_empty_inv.
  destruct (elements s); [reflexivity|discriminate].
Qed.

#[global] Instance pop_first : SetPop :=
  mkSetPop (fun s => head (elements s)) pop_first_elem pop_first_empty.

Definition noop_handler : WebhookHandler :=
  mkHandler "on_x" (fun _ => Ret tt).

Definition failing_handler : WebhookHandler :=
  mkHandler "on_y" (fun _ => Raise (ExHandler "boom")).

(** [{"id":"evt_1","type":"x"}] *)
Definition evt_1 : json := JObj [("id", JStr "evt_1"); ("type", JStr "x")].

Definition evt_1_text : string :=
  "{" ++ dq ++ "id" ++ dq ++ ":" ++ dq ++ "evt_1" ++ dq ++ ","
      ++ dq ++ "type" ++ dq ++ ":" ++ dq ++ "x" ++ dq ++ "}".

(** [{"id":"evt_2","type":"unregistered"}] *)
Definition evt_2 : json :=
  JObj [("id", JStr "evt_2"); ("type", JStr "unregistered")].

(** [{"type":"x"}] and [{"type":"y"}]: events without id. *)
Definition no_id_x : json := JObj [("type", JStr "x")].
Definition no_id_y : json := JObj [("type", JStr "y")].

(** [json.loads] on the two payloads of the examples that are JSON; every
    other payload of the examples is not. *)
Definition decode_sample (payload : string) : pyres json :=
  if String.eqb payload evt_1_text then Ret evt_1
  else if String.eqb payload "{}" then Ret (JObj [])
  else Raise ExJSONDecodeError.

(** A header whose [v1] is the letter e with an acute accent. *)
Definition non_ascii_header : string :=
  "t=1700000000,v1=" ++ String "195"%char (String "169"%char "").

(** A payload of 100000 opening brackets, on which [json.loads] raises
    [RecursionError]. *)
Fixpoint nested (n : nat) : string :=
  match n with
  | O => ""
  | S n' => String "[" (nested n')
  end.

Definition too_deep : string := nested (Z.to_nat 100000).

Definition decode_nested (payload : string) : pyres json :=
  if String.eqb payload too_deep then Raise ExRecursionError
  else decode_sample payload.

(** [int()] in the examples, whose timestamps are ASCII. *)
#[global] Instance ascii_int : IntOfStr :=
  mkIntOfStr int_ascii (fun _ _ => eq_refl).

(** A client with the secret [whsec_test] and a handler for [x]. *)
Definition client_x : WebhooksClient :=
  on (init "whsec_test" 300) "x" noop_handler.

(** Successive deliveries: one call of [handle] per event, the results in
    order. *)
Fixpoint handle_all {pop : SetPop} (self : WebhooksClient)
    (events : list json) : list (pyres bool) * WebhooksClient :=
  match events with
  | [] => ([], self)
  | event :: rest =>
      let (r, self1) := handle self event in
      let (rs, self2) := handle_all self1 rest in
      (r :: rs, self2)
  end.

(** A client whose processed set is full: the ids [0] to [9999]. *)
Definition full_ids : list key :=
  map (fun n => KInt (Z.of_nat n)) (seq 0 (Z.to_nat 10000)).

Definition client_full : WebhooksClient :=
  set_processed client_x (list_to_set full_ids).

(** A choice of [set.pop()] that takes the empty string whenever it is a
    member.  CPython does so for a set whose first member was [""]: the
    hash of [""] is 0, which keeps it in the first slot of the table, and
    [pop] searches from the first slot. *)
Definition pop_empty_first_choice (s : gset key) : option key :=
  if bool_decide (KStr "" ∈ s) then Some (KStr "") else head (elements s).

Lemma pop_empty_first_elem (s : gset key) (k : key) :
  pop_empty_first_choice s = Some k -> k ∈ s.
Proof.
  unfold pop_empty_first_choice.
  destruct (bool_decide (KStr "" ∈ s)) eqn:Hin.
  - intros [= <-]. apply bool_decide_eq_true in Hin. exact Hin.
  - apply pop_first_elem.
Qed.

Lemma pop_empty_first_none (s : gset key) :
  pop_empty_first_choice s = None -> s = ∅.
Proof.
  unfold pop_empty_first_choice.
  destruct (bool_decide (KStr "" ∈ s)); [discriminate|].
  apply pop_first_empty.
Qed.

Definition pop_empty_first : SetPop :=
  mkSetPop pop_empty_first_choice pop_empty_first_elem pop_empty_first_none.

(** The event [{"id": "<i>", "type": "x"}], and the events of the ids
    1 to [n]. *)
Definition numbered_id (i : nat) : key := KStr (py_str (Z.of_nat i)).

Definition numbered (i : nat) : json :=
  JObj [("id", JStr (py_str (Z.of_nat i))); ("type", JStr "x")].

Definition numbered_events (n : nat) : list json := map numbered (seq 1 n).

End Scenarios.
Export Scenarios.

(** ** http.py, the rest *)

Module Transport.

(** [str.rstrip(chars)] for one character. *)
Fixpoint rstrip_char (c : ascii) (s : string) : string :=
  match s with
  | "" => ""
  | String a rest =>
      match rstrip_char c rest with
      | "" => if Ascii.eqb a c then "" else String a ""
      | rest' => String a rest'
      end
  end.

(** [HttpClient.__init__]: the attributes; the headers of the session are
    those of every request and are left to the server. *)
Definition HttpClient_init (api_key base_url : string) (timeout max_retries : Z)
    (debug : bool) : HttpClient :=
  mkHttpClient api_key (rstrip_char "/" base_url) timeout max_retries debug.

(** [url = f"{self.base_url}{path}"] *)
Definition url_of (c : HttpClient) (path : string) : string :=
  base_url c ++ path.

(** The delay [_calculate_backoff] returns for an [attempt] below 1024
    when the jitter it draws is the [draw]-th. *)
Definition backoff_delay (E : env) (attempt : Z) (draw : nat) : Q :=
  Qmin (nearest E (nearest E (1 * 2 ^ attempt) + jitter E draw)) 30.

(** The value [last_error] takes when an outcome sends [request] on to
    the next attempt: after a timeout, after any other
    [RequestException], and after an answer that is [ok] but whose body is
    not JSON.  [None] for the outcomes that end [request]. *)
Definition transient_error (c : HttpClient) (o : outcome)
    : option OneSubError :=
  match o with
  | TimesOut =>
      Some (BaseError (FString [Lit "Request timed out after ";
                                Interp (JInt (timeout c)); Lit "s"])
              "TIMEOUT" 0 JNull)
  | Fails text => Some (BaseError (Msg (JStr text)) "NETWORK_ERROR" 0 JNull)
  | Responds r =>
      if ok r then
        match resp_json r with
        | NotJson err =>
            Some (BaseError (Msg (JStr err)) "NETWORK_ERROR" 0 JNull)
        | Decoded _ => None
        end
      else None
  end.

(** The attempts [a], [a + 1], ... ([n] of them), and the delays slept
    after them when each draws the next jitter, from the [draw]-th. *)
Fixpoint attempts_from (a : Z) (n : nat) : list Z :=
  match n with
  | O => []
  | S n' => a :: attempts_from (a + 1) n'
  end.

Fixpoint delays (E : env) (a : Z) (draw : nat) (n : nat) : list Q :=
  match n with
  | O => []
  | S n' => backoff_delay E a draw :: delays E (a + 1) (S draw) n'
  end.

(** The error [request] raises when the loop ends and [last_error] is
    [None]. *)
Definition retries_failed : OneSubError :=
  BaseError (Msg (JStr "Request failed after retries")) "NETWORK_ERROR" 0 JNull.

End Transport.
Export Transport.

(** ** Built-in operations on [str]

    [str.upper], [str.lower] and [str.strip] follow the Unicode tables of
    the interpreter, and the text of a [list] or a [dict] is its [repr].
    On ASCII text the three methods are the functions below; beyond that
    they are known through [StrMethods] only. *)

Module Builtins.

Fixpoint string_map (f : ascii -> ascii) (s : string) : string :=
  match s with
  | "" => ""
  | String c rest => String (f c) (string_map f rest)
  end.

Definition ascii_upper (c : ascii) : ascii :=
  let n := N_of_ascii c in
  if ((97 <=? n) && (n <=? 122))%N then ascii_of_N (n - 32) else c.

Definition ascii_lower (c : ascii) : ascii :=
  let n := N_of_ascii c in
  if ((65 <=? n) && (n <=? 90))%N then ascii_of_N (n + 32) else c.

Class StrMethods : Type := mkStrMethods {
  str_upper : string -> string;
  str_lower : string -> string;
  str_strip : string -> string;
  repr_container : json -> string;
  str_upper_ascii :
    forall s, is_ascii s = true -> str_upper s = string_map ascii_upper s;
  str_lower_ascii :
    forall s, is_ascii s = true -> str_lower s = string_map ascii_lower s;
  str_strip_ascii : forall s, is_ascii s = true -> str_strip s = strip s
}.

(** [len(s)]: the number of code points, that is of the bytes of the
    UTF-8 text that do not continue a character. *)
Definition is_continuation (c : ascii) : bool :=
  let n := N_of_ascii c in ((128 <=? n) && (n <? 192))%N.

Fixpoint py_len (s : string) : Z :=
  match s with
  | "" => 0
  | String c rest => (if is_continuation c then 0 else 1) + py_len rest
  end.

(** [s.startswith(prefix)] *)
Fixpoint startswith (prefix s : string) : bool :=
  match prefix, s with
  | "", _ => true
  | String a p, String b rest => Ascii.eqb a b && startswith p rest
  | String _ _, "" => false
  end.

(** [str(v)], as an f-string formats a value. *)
Definition format_value {M : StrMethods} (v : json) : string :=
  match v with
  | JNull => "None"
  | JBool true => "True"
  | JBool false => "False"
  | JInt n => py_str n
  | JStr s => s
  | JArr _ | JObj _ => repr_container v
  end.

End Builtins.
Export Builtins.

(** ** utils.py: [hash_email] *)

Module Email.

(** [hash_email(email)] *)
Definition hash_email {M : StrMethods} (email : string) : string :=
  let normalized := str_strip (str_lower email) in
  hex_of_bytes (Sha256.digest (bytes_of_string normalized)).

End Email.
Export Email.

(** ** The callers of the transport

    The resource clients call [HttpClient.post]; the clock they read is an
    input like the network. *)

Module Api.

(** The [n]-th call of [time.time()] returns [clock n]. *)
Record api_env : Type := mkApiEnv {
  net : env;
  clock : nat -> Q
}.

(** What the calls have done so far: the effects of the transport, the
    number of readings of the clock, and the calls of [request] with
    their method, URL and data, the latest last. *)
Record api_world : Type := mkApiWorld {
  http_world : world;
  clock_reads : nat;
  requested : list (string * string * json)
}.

Definition api_world0 : api_world := mkApiWorld world0 0 [].

(** [time.time()] *)
Definition time_time (E : api_env) (aw : api_world) : Q * api_world :=
  (clock E (clock_reads aw),
   mkApiWorld (http_world aw) (S (clock_reads aw)) (requested aw)).

(** [HttpClient.post(path, data)] *)
Definition post (c : HttpClient) (E : api_env) (path : string) (data : json)
    (aw : api_world) : pyres json * api_world :=
  let (res, w) := request c (net E) (http_world aw) in
  (res,
   mkApiWorld w (clock_reads aw)
     (requested aw ++ [("POST", url_of c path, data)])).

(** [HttpClient.get(path)] *)
Definition get (c : HttpClient) (E : api_env) (path : string)
    (aw : api_world) : pyres json * api_world :=
  let (res, w) := request c (net E) (http_world aw) in
  (res,
   mkApiWorld w (clock_reads aw)
     (requested aw ++ [("GET", url_of c path, JNull)])).

Definition validation_error {A : Type} (text : string) : pyres A :=
  raise_error (ValidationError (Msg (JStr text)) JNull).

End Api.
Export Api.

(** ** api/links.py *)

Module LinksApi.

Record LinksApi : Type := mkLinksApi {
  _http : HttpClient
}.

(** The characters of [[A-Z0-9]]. *)
Definition is_code_char (c : ascii) : bool :=
  let n := N_of_ascii c in
  ((48 <=? n) && (n <=? 57) || (65 <=? n) && (n <=? 90))%N.

(** The ASCII letters and digits. *)
Definition is_alnum (c : ascii) : bool :=
  let n := N_of_ascii c in
  ((48 <=? n) && (n <=? 57) || (65 <=? n) && (n <=? 90)
   || (97 <=? n) && (n <=? 122))%N.

(** What [$] leaves out: one newline at the end of the text. *)
Fixpoint without_final_newline (s : string) : string :=
  match s with
  | "" => ""
  | String c rest =>
      match rest with
      | "" => if Ascii.eqb c "010" then "" else s
      | _ => String c (without_final_newline rest)
      end
  end.

(** [CODE_REGEX.match(s)] is not [None], for [^[A-Z0-9]{6,10}$]. *)
Definition CODE_REGEX_match (s : string) : bool :=
  let body := without_final_newline s in
  string_forall is_code_char body
  && (6 <=? Z.of_nat (String.length body))
  && (Z.of_nat (String.length body) <=? 10).

Section WithStrMethods.

Context {M : StrMethods}.

(** [normalize_code(code)] *)
Definition normalize_code (code : string) : string :=
  str_strip (str_upper code).

(** [is_valid_code_format(code)] *)
Definition is_valid_code_format (code : string) : bool :=
  if String.eqb code "" then false
  else CODE_REGEX_match (str_strip (str_upper code)).

(** [exchange_code(code, tool_user_id)] *)
Definition exchange_code (self : LinksApi) (E : api_env)
    (code tool_user_id : string) (aw : api_world) : pyres json * api_world :=
  let normalized_code :=
    if String.eqb code "" then "" else str_strip (str_upper code) in
  if String.eqb normalized_code "" then
    (validation_error "code must be provided", aw)
  else if negb (CODE_REGEX_match normalized_code) then
    (validation_error
       "code must be 6-10 alphanumeric characters (e.g., ABC123)", aw)
  else if String.eqb tool_user_id "" then
    (validation_error "tool_user_id must be provided", aw)
  else if py_len tool_user_id >? 255 then
    (validation_error "tool_user_id cannot exceed 255 characters", aw)
  else
    match post (_http self) E "/authorize/exchange"
            (JObj [("code", JStr normalized_code);
                   ("redirectUri", JStr tool_user_id)]) aw with
    | (Raise e, aw1) => (Raise e, aw1)
    | (Ret data, aw1) =>
        (do linked <- dict_get data "linked" (JBool true);
         do onesub_user_id <- dict_get data "oneSubUserId" JNull;
         do tool_user_id' <- dict_get data "toolUserId" JNull;
         do linked_at <- dict_get data "linkedAt" JNull;
         Ret (JObj [("linked", linked);
                    ("onesub_user_id", onesub_user_id);
                    ("tool_user_id", tool_user_id');
                    ("linked_at", linked_at)]),
         aw1)
    end.

End WithStrMethods.

End LinksApi.

(** ** api/credits.py *)

Module CreditsApi.

Record CreditsApi : Type := mkCreditsApi {
  _http : HttpClient
}.

(** [isinstance(amount, int)] with the value of [amount]: an [int] or a
    [bool]. *)
Definition int_instance (amount : json) : option Z := as_int amount.

(** The arguments that pass the checks of [consume]: a user id, an
    integer amount from 1 to 1000000, a reason of 1 to 500 characters and a
    key of 1 to 255 characters. *)
Definition accepts (user_id : string) (amount : json)
    (reason idempotency_key : string) : bool :=
  negb (String.eqb user_id "")
  && match int_instance amount with
     | Some n => (1 <=? n) && (n <=? 1000000)
     | None => false
     end
  && negb (String.eqb reason "") && (py_len reason <=? 500)
  && negb (String.eqb idempotency_key "")
  && (py_len idempotency_key <=? 255).

(** [consume(user_id, amount, reason, idempotency_key)] *)
Definition consume (self : CreditsApi) (E : api_env) (user_id : string)
    (amount : json) (reason idempotency_key : string) (aw : api_world)
    : pyres json * api_world :=
  if String.eqb user_id "" then
    (validation_error "user_id must be provided", aw)
  else if match int_instance amount with
          | Some n => n <=? 0
          | None => true
          end then
    (validation_error "amount must be a positive integer", aw)
  else if match int_instance amount with
          | Some n => n >? 1000000
          | None => false
          end then
    (validation_error "amount cannot exceed 1,000,000", aw)
  else if String.eqb reason "" then
    (validation_error "reason must be provided", aw)
  else if py_len reason >? 500 then
    (validation_error "reason cannot exceed 500 characters", aw)
  else if String.eqb idempotency_key "" then
    (validation_error "idempotency_key must be provided", aw)
  else if py_len idempotency_key >? 255 then
    (validation_error "idempotency_key cannot exceed 255 characters", aw)
  else
    match post (_http self) E "/credits/consume"
            (JObj [("user_id", JStr user_id); ("amount", amount);
                   ("reason", JStr reason);
                   ("idempotency_key", JStr idempotency_key)]) aw with
    | (Raise e, aw1) => (Raise e, aw1)
    | (Ret data, aw1) =>
        (do success <- dict_get data "success" (JBool true);
         do new_balance <- dict_get data "new_balance" JNull;
         do transaction_id <- dict_get data "transaction_id" JNull;
         do is_duplicate <- dict_get data "is_duplicate" (JBool false);
         Ret (JObj [("success", success);
                    ("new_balance", new_balance);
                    ("transaction_id", transaction_id);
                    ("is_duplicate", is_duplicate)]),
         aw1)
    end.

(** The call of [request] an accepted [consume] makes. *)
Definition consume_request (self : CreditsApi) (user_id : string)
    (amount : json) (reason idempotency_key : string)
    : string * string * json :=
  ("POST", url_of (_http self) "/credits/consume",
   JObj [("user_id", JStr user_id); ("amount", amount);
         ("reason", JStr reason);
         ("idempotency_key", JStr idempotency_key)]).

(** What [try_consume] returns: [(True, data)],
    [(False, e.message, e.shortfall)] for an [InsufficientCreditsError],
    and [(False, str(e), None)] for another exception [e], kept here as the
    exception whose text it is. *)
Inductive try_result : Type :=
| TrySuccess (data : json)
| TryInsufficient (message : pymsg) (shortfall : option json)
| TryFailure (e : exn).

(** [try_consume(user_id, amount, reason, idempotency_key)] *)
Definition try_consume (self : CreditsApi) (E : api_env) (user_id : string)
    (amount : json) (reason idempotency_key : string) (aw : api_world)
    : try_result * api_world :=
  match consume self E user_id amount reason idempotency_key aw with
  | (Ret data, aw1) => (TrySuccess data, aw1)
  | (Raise (ExOneSub e), aw1) =>
      match cls e with
      | InsufficientCreditsError_cls =>
          (TryInsufficient (message e) (getattr e "shortfall"), aw1)
      | _ => (TryFailure (ExOneSub e), aw1)
      end
  | (Raise e, aw1) => (TryFailure e, aw1)
  end.

(** [balance >= amount] for an [int] amount: [TypeError] unless the
    balance is a number. *)
Definition ge_int (balance : json) (amount : Z) : pyres bool :=
  match as_int balance with
  | Some b => Ret (amount <=? b)
  | None => Raise ExTypeError
  end.

(** [has_enough(user_id, amount)] *)
Definition has_enough (self : CreditsApi) (E : api_env) (user_id : string)
    (amount : Z) (aw : api_world) : bool * api_world :=
  match post (_http self) E "/tools/subscriptions/verify"
          (JObj [("oneSubUserId", JStr user_id)]) aw with
  | (Raise _, aw1) => (false, aw1)
  | (Ret data, aw1) =>
      match (do balance <- dict_get data "creditsRemaining" (JInt 0);
             ge_int balance amount) with
      | Ret b => (b, aw1)
      | Raise _ => (false, aw1)
      end
  end.

End CreditsApi.

(** ** api/subscriptions.py *)

Module SubscriptionsApi.

Record SubscriptionsApi : Type := mkSubscriptionsApi {
  _http : HttpClient;
  _cache_enabled : bool;
  _cache_ttl : Z;
  _cache : gmap string (json * Q)
}.

(** [SubscriptionsApi.__init__] *)
Definition init (http : HttpClient) (cache_enabled : bool) (cache_ttl : Z)
    : SubscriptionsApi :=
  mkSubscriptionsApi http cache_enabled cache_ttl ∅.

Definition set_cache (self : SubscriptionsApi) (m : gmap string (json * Q))
    : SubscriptionsApi :=
  mkSubscriptionsApi (_http self) (_cache_enabled self) (_cache_ttl self) m.

(** [_get_cached(key)] *)
Definition _get_cached (self : SubscriptionsApi) (E : api_env) (key : string)
    (aw : api_world) : option json * SubscriptionsApi * api_world :=
  if negb (_cache_enabled self) then (None, self, aw)
  else
    match _cache self !! key with
    | Some (data, expiry) =>
        let (now, aw1) := time_time E aw in
        if Qlt_le_dec now expiry then (Some data, self, aw1)
        else (None, set_cache self (delete key (_cache self)), aw1)
    | None => (None, self, aw)
    end.

(** [_set_cached(key, data)] *)
Definition _set_cached (self : SubscriptionsApi) (E : api_env) (key : string)
    (data : json) (aw : api_world) : SubscriptionsApi * api_world :=
  if _cache_enabled self then
    let (now, aw1) := time_time E aw in
    (set_cache self
       (<[key := (data, (now + inject_Z (_cache_ttl self))%Q)]> (_cache self)),
     aw1)
  else (self, aw).

(** The truth value of an optional [str] argument. *)
Definition given (x : option string) : bool :=
  match x with
  | Some s => negb (String.eqb s "")
  | None => false
  end.

(** [a or b or c] when one of them is given. *)
Definition first_given (a b c : option string) : string :=
  if given a then default "" a
  else if given b then default "" b
  else default "" c.

Definition param (name : string) (x : option string)
    : list (string * json) :=
  if given x then [(name, JStr (default "" x))] else [].

(** The call of [request] that [verify] makes on a miss. *)
Definition verify_request (self : SubscriptionsApi)
    (onesub_user_id tool_user_id email_sha256 : option string)
    : string * string * json :=
  ("POST", url_of (_http self) "/tools/subscriptions/verify",
   JObj (param "oneSubUserId" onesub_user_id
         ++ param "toolUserId" tool_user_id
         ++ param "emailSha256" email_sha256)).

Section WithStrMethods.

Context {M : StrMethods}.

(** [f"sub:{v}"] *)
Definition sub_key (v : json) : string := "sub:" ++ format_value v.

(** [verify(onesub_user_id, tool_user_id, email_sha256)] *)
Definition verify (self : SubscriptionsApi) (E : api_env)
    (onesub_user_id tool_user_id email_sha256 : option string)
    (aw : api_world) : pyres json * SubscriptionsApi * api_world :=
  if negb (given onesub_user_id) && negb (given tool_user_id)
     && negb (given email_sha256) then
    (validation_error
       "At least one of onesub_user_id, tool_user_id, or email_sha256 must be provided",
     self, aw)
  else
    let cache_key := first_given onesub_user_id tool_user_id email_sha256 in
    let '(cached, self1, aw1) :=
      _get_cached self E (sub_key (JStr cache_key)) aw in
    if match cached with Some d => truthy d | None => false end then
      (Ret (default JNull cached), self1, aw1)
    else
      let params :=
        JObj (param "oneSubUserId" onesub_user_id
              ++ param "toolUserId" tool_user_id
              ++ param "emailSha256" email_sha256) in
      match post (_http self1) E "/tools/subscriptions/verify" params aw1 with
      | (Raise e, aw2) => (Raise e, self1, aw2)
      | (Ret data, aw2) =>
          match dict_get data "oneSubUserId" JNull with
          | Raise e => (Raise e, self1, aw2)
          | Ret id =>
              if truthy id then
                let (self2, aw3) := _set_cached self1 E (sub_key id) data aw2 in
                if match id with
                   | JStr s => negb (String.eqb cache_key s)
                   | _ => true
                   end then
                  let (self3, aw4) :=
                    _set_cached self2 E (sub_key (JStr cache_key)) data aw3 in
                  (Ret data, self3, aw4)
                else (Ret data, self2, aw3)
              else (Ret data, self1, aw2)
          end
      end.

(** [verify_by_email(email)] *)
Definition verify_by_email (self : SubscriptionsApi) (E : api_env)
    (email : string) (aw : api_world)
    : pyres json * SubscriptionsApi * api_world :=
  if String.eqb email "" then
    (validation_error "Email must be provided", self, aw)
  else verify self E None None (Some (hash_email email)) aw.

(** [verify_by_user_id(onesub_user_id)] *)
Definition verify_by_user_id (self : SubscriptionsApi) (E : api_env)
    (onesub_user_id : string) (aw : api_world)
    : pyres json * SubscriptionsApi * api_world :=
  if String.eqb onesub_user_id "" then
    (validation_error "User ID must be provided", self, aw)
  else verify self E (Some onesub_user_id) None None aw.

(** [verify_by_tool_user_id(tool_user_id)] *)
Definition verify_by_tool_user_id (self : SubscriptionsApi) (E : api_env)
    (tool_user_id : string) (aw : api_world)
    : pyres json * SubscriptionsApi * api_world :=
  if String.eqb tool_user_id "" then
    (validation_error "Tool user ID must be provided", self, aw)
  else verify self E None (Some tool_user_id) None aw.

(** [is_active(onesub_user_id, tool_user_id, email_sha256)]: the value of
    ["active"], and [False] for every exception. *)
Definition is_active (self : SubscriptionsApi) (E : api_env)
    (onesub_user_id tool_user_id email_sha256 : option string)
    (aw : api_world) : json * SubscriptionsApi * api_world :=
  let '(res, self1, aw1) :=
    verify self E onesub_user_id tool_user_id email_sha256 aw in
  match (do sub <- res; dict_get sub "active" (JBool false)) with
  | Ret v => (v, self1, aw1)
  | Raise _ => (JBool false, self1, aw1)
  end.

(** What [verify] does once the cache has given nothing: the request, and
    the one or two entries stored from the answer. *)
Definition after_miss (self : SubscriptionsApi) (E : api_env)
    (a b c : option string) (aw : api_world)
    : pyres json * SubscriptionsApi * api_world :=
  let cache_key := first_given a b c in
  match post (_http self) E "/tools/subscriptions/verify"
          (snd (verify_request self a b c)) aw with
  | (Raise e, aw2) => (Raise e, self, aw2)
  | (Ret data, aw2) =>
      match dict_get data "oneSubUserId" JNull with
      | Raise e => (Raise e, self, aw2)
      | Ret id =>
          if truthy id then
            let (self2, aw3) := _set_cached self E (sub_key id) data aw2 in
            if match id with
               | JStr s => negb (String.eqb cache_key s)
               | _ => true
               end then
              let (self3, aw4) :=
                _set_cached self2 E (sub_key (JStr cache_key)) data aw3 in
              (Ret data, self3, aw4)
            else (Ret data, self2, aw3)
          else (Ret data, self, aw2)
      end
  end.

End WithStrMethods.

(** Every key of the cache starts with [sub:]. *)
Definition keys_prefixed (self : SubscriptionsApi) : Prop :=
  forall k, is_Some (_cache self !! k) -> startswith "sub:" k = true.

(** [invalidate_cache(onesub_user_id)]: [del] raises [KeyError] on a key
    that is not there. *)
Definition invalidate_cache (self : SubscriptionsApi) (onesub_user_id : string)
    : pyres unit * SubscriptionsApi :=
  match _cache self !! onesub_user_id with
  | Some _ =>
      match _cache self !! ("sub:" ++ onesub_user_id) with
      | Some _ =>
          (Ret tt,
           set_cache self (delete ("sub:" ++ onesub_user_id) (_cache self)))
      | None => (Raise ExKeyError, self)
      end
  | None => (Ret tt, self)
  end.

(** [clear_cache()] *)
Definition clear_cache (self : SubscriptionsApi) : SubscriptionsApi :=
  set_cache self ∅.

End SubscriptionsApi.

(** ** client.py *)

Module Client.

Record OneSub : Type := mkOneSub {
  api_key : string;
  webhook_secret : option string;
  base_url : string;
  timeout : Z;
  cache : bool;
  cache_ttl : Z;
  max_retries : Z;
  debug : bool;
  _http : HttpClient;
  subscriptions : SubscriptionsApi.SubscriptionsApi;
  credits : CreditsApi.CreditsApi;
  links : LinksApi.LinksApi;
  webhooks : WebhooksClient
}.

(** [OneSub.__init__] *)
Definition init (api_key : string) (webhook_secret : option string)
    (base_url : string) (timeout : Z) (cache : bool) (cache_ttl : Z)
    (max_retries : Z) (debug : bool) : pyres OneSub :=
  if String.eqb api_key "" then validation_error "api_key is required"
  else if negb (startswith "sk-tool-" api_key) then
    validation_error "Invalid API key format. Expected format: sk-tool-xxx"
  else
    let http := HttpClient_init api_key base_url timeout max_retries debug in
    Ret (mkOneSub api_key webhook_secret base_url timeout cache cache_ttl
           max_retries debug http
           (SubscriptionsApi.init http cache cache_ttl)
           (CreditsApi.mkCreditsApi http)
           (LinksApi.mkLinksApi http)
           (Webhooks.init
              (if SubscriptionsApi.given webhook_secret
               then default "" webhook_secret else "")
              300)).

(** [close()]; closing the session of [requests] changes nothing here. *)
Definition close (self : OneSub) : OneSub :=
  mkOneSub (api_key self) (webhook_secret self) (base_url self)
    (timeout self) (cache self) (cache_ttl self) (max_retries self)
    (debug self) (_http self)
    (SubscriptionsApi.clear_cache (subscriptions self))
    (credits self) (links self)
    (clear_processed (webhooks self)).

End Client.

(** ** Further scenarios

    The servers, clients and caches of the examples that follow the
    further properties. *)

Module Samples.

(** The methods of [str] on ASCII text, which is all the text of the
    examples; a container is never formatted there. *)
#[global] Instance ascii_methods : StrMethods :=
  mkStrMethods (string_map ascii_upper) (string_map ascii_lower) strip
    (fun _ => "{...}")
    (fun _ _ => eq_refl) (fun _ _ => eq_refl) (fun _ _ => eq_refl).

(** A server that never answers in time; every jitter is a half. *)
Definition always_times_out : env :=
  exact_env (fun _ => TimesOut) (fun _ => (1 # 2)%Q).

(** A client made with [max_retries=-1]. *)
Definition no_attempt_client : HttpClient :=
  mkHttpClient "sk-tool-test" "https://1sub.io/api/v1" 30 (-1) false.

(** [{"error":"INSUFFICIENT_CREDITS","current_balance":5,"required":20}] *)
Definition insufficient_fields : list (string * json) :=
  [("error", JStr "INSUFFICIENT_CREDITS");
   ("current_balance", JInt 5); ("required", JInt 20)].

Definition insufficient_text : string :=
  "{" ++ dq ++ "error" ++ dq ++ ":" ++ dq ++ "INSUFFICIENT_CREDITS" ++ dq
      ++ "," ++ dq ++ "current_balance" ++ dq ++ ":5,"
      ++ dq ++ "required" ++ dq ++ ":20}".

(** A server that answers 400 with that body. *)
Definition insufficient_server : api_env :=
  mkApiEnv
    (exact_env (fun _ => json_response 400 insufficient_text
                       (JObj insufficient_fields))
           (fun _ => 0%Q))
    (fun n => inject_Z (1000 + Z.of_nat n)).

(** [{"oneSubUserId":"u1","active":true}] *)
Definition sub_u1 : list (string * json) :=
  [("oneSubUserId", JStr "u1"); ("active", JBool true)].

Definition sub_u1_text : string :=
  "{" ++ dq ++ "oneSubUserId" ++ dq ++ ":" ++ dq ++ "u1" ++ dq ++ ","
      ++ dq ++ "active" ++ dq ++ ":true}".

(** A server that answers 200 with the subscription of [u1]; the clock
    reads 1000, 1001, ... *)
Definition sub_server : api_env :=
  mkApiEnv
    (exact_env (fun _ => json_response 200 sub_u1_text (JObj sub_u1))
           (fun _ => 0%Q))
    (fun n => inject_Z (1000 + Z.of_nat n)).

(** Subscription clients over [default_client]: with a cache of 60
    seconds that is empty, with the subscription of [u1] stored until
    1060, with the same stored until 1000, and without cache. *)
Definition cached_client : SubscriptionsApi.SubscriptionsApi :=
  SubscriptionsApi.init default_client true 60.

Definition cached_u1 (expiry : Z) : SubscriptionsApi.SubscriptionsApi :=
  SubscriptionsApi.set_cache cached_client
    {[ "sub:u1" := (JObj sub_u1, inject_Z expiry) ]}.

Definition uncached_client : SubscriptionsApi.SubscriptionsApi :=
  SubscriptionsApi.init default_client false 60.

Definition credits_client : CreditsApi.CreditsApi :=
  CreditsApi.mkCreditsApi default_client.

(** A webhook client without handler, one with a handler that raises for
    [y], and its event [{"id":"evt_3","type":"y"}]. *)
Definition client_bare : WebhooksClient := init "whsec_test" 300.

Definition client_y : WebhooksClient := on client_bare "y" failing_handler.

Definition evt_3 : json := JObj [("id", JStr "evt_3"); ("type", JStr "y")].

End Samples.
Export Samples.

(** * Properties *)

(** ** Error taxonomy *)

Section ErrorMapping.

Variable fields : list (string * json).

Let body : json := JObj fields.

Lemma parse_401 :
  parse_api_error 401 body
  = raise_error (AuthenticationError (error_message fields)).
Proof.
  unfold parse_api_error, error_message, py_or; simpl.
  destruct (truthy (get_default fields "message" JNull)) eqn:Hm; simpl;
    rewrite ?Hm; reflexivity.
Qed.

Lemma parse_404 :
  parse_api_error 404 body
  = raise_error (NotFoundError (error_message fields)).
Proof.
  unfold parse_api_error, error_message, py_or; simpl.
  destruct (truthy (get_default fields "message" JNull)) eqn:Hm; simpl;
    rewrite ?Hm; reflexivity.
Qed.

Lemma parse_429 :
  parse_api_error 429 body
  = raise_error (RateLimitError (get_default fields "retry_after" (JInt 60))
                                (get_default fields "limit" (JInt 100))
                                (get_default fields "remaining" (JInt 0))).
Proof.
  unfold parse_api_error; simpl.
  destruct (truthy (get_default fields "message" JNull)); reflexivity.
Qed.

Lemma parse_400_insufficient (c r : Z) :
  get_default fields "error" JNull = JStr "INSUFFICIENT_CREDITS" ->
  as_int (get_default fields "current_balance" (JInt 0)) = Some c ->
  as_int (get_default fields "required" (JInt 0)) = Some r ->
  exists e,
    InsufficientCreditsError (get_default fields "current_balance" (JInt 0))
                             (get_default fields "required" (JInt 0)) = Ret e
    /\ parse_api_error 400 body = raise_error e
    /\ getattr e "shortfall" = Some (JInt (r - c)).
Proof.
  intros He Hc Hr.
  unfold parse_api_error, InsufficientCreditsError; simpl.
  rewrite He, Hc, Hr; simpl.
  eexists; split; [reflexivity|].
  split; [|reflexivity].
  destruct (truthy (get_default fields "message" JNull)); reflexivity.
Qed.

Lemma parse_400_other :
  is_insufficient_credits (get_default fields "error" JNull) = false ->
  parse_api_error 400 body
  = raise_error (ValidationError (error_message fields) body).
Proof.
  intros He.
  unfold parse_api_error, error_message, py_or; simpl.
  rewrite He.
  destruct (truthy (get_default fields "message" JNull)) eqn:Hm; simpl;
    rewrite ?Hm; reflexivity.
Qed.

Lemma parse_other (status : Z) :
  status <> 401 -> status <> 404 -> status <> 429 -> status <> 400 ->
  parse_api_error status body
  = raise_error (BaseError (error_message fields) "API_ERROR" status body).
Proof.
  intros H1 H2 H3 H4.
  unfold parse_api_error, error_message, py_or; simpl.
  apply Z.eqb_neq in H1, H2, H3, H4.
  destruct (truthy (get_default fields "message" JNull)) eqn:Hm; simpl;
    rewrite ?Hm, H1, H2, H3, H4; reflexivity.
Qed.

Lemma details_of_dict (c : error_class) (m : pymsg) (code : string)
    (status : Z) (attrs : list (string * json)) :
  details (OneSubError_init c m code status body attrs) = body.
Proof. unfold OneSubError_init, body; simpl. destruct fields; reflexivity. Qed.

End ErrorMapping.

Lemma is_insufficient_credits_spec (v : json) :
  is_insufficient_credits v = true <-> v = JStr "INSUFFICIENT_CREDITS".
Proof.
  destruct v; simpl; split; intros H; try discriminate.
  - apply String.eqb_eq in H. congruence.
  - injection H as ->. reflexivity.
Qed.

(** C5: the mapping from a status code and a JSON object to the error
    raised.  401 gives [AuthenticationError], 404 [NotFoundError], 429
    [RateLimitError] with [retry_after], [limit] and [remaining] read from
    the body (60, 100 and 0 when absent); 400 with
    [error == "INSUFFICIENT_CREDITS"] gives [InsufficientCreditsError] with
    [current_balance] and [required] read from the body (0 when absent) and
    [shortfall = required - current_balance]; any other 400 gives
    [ValidationError] with the body as details; any other status the base
    error with code [API_ERROR], that status and the body as details. *)
Theorem parse_api_error_mapping (fields : list (string * json)) :
  let body := JObj fields in
  let get := get_default fields in
  let message := error_message fields in
  parse_api_error 401 body = raise_error (AuthenticationError message)
  /\ parse_api_error 404 body = raise_error (NotFoundError message)
  /\ parse_api_error 429 body
     = raise_error (RateLimitError (get "retry_after" (JInt 60))
                                   (get "limit" (JInt 100))
                                   (get "remaining" (JInt 0)))
  /\ (get "error" JNull = JStr "INSUFFICIENT_CREDITS" ->
      forall c r : Z,
        as_int (get "current_balance" (JInt 0)) = Some c ->
        as_int (get "required" (JInt 0)) = Some r ->
        exists e,
          parse_api_error 400 body = raise_error e
          /\ cls e = InsufficientCreditsError_cls
          /\ getattr e "current_balance" = Some (get "current_balance" (JInt 0))
          /\ getattr e "required" = Some (get "required" (JInt 0))
          /\ getattr e "shortfall" = Some (JInt (r - c)))
  /\ (get "error" JNull <> JStr "INSUFFICIENT_CREDITS" ->
      parse_api_error 400 body = raise_error (ValidationError message body)
      /\ cls (ValidationError message body) = ValidationError_cls
      /\ details (ValidationError message body) = body)
  /\ (forall status : Z,
        status <> 401 -> status <> 404 -> status <> 429 -> status <> 400 ->
        let e := BaseError message "API_ERROR" status body in
        parse_api_error status body = raise_error e
        /\ cls e = OneSubError_cls
        /\ status_code e = status
        /\ details e = body).
Proof.
  intros body get message.
  split; [apply parse_401|].
  split; [apply parse_404|].
  split; [apply parse_429|].
  split; [|split].
  - intros He c r Hc Hr.
    destruct (parse_400_insufficient fields c r He Hc Hr) as (e & Hmk & Hp & Hs).
    exists e. split; [exact Hp|].
    unfold InsufficientCreditsError in Hmk.
    fold get in Hmk, Hc, Hr. rewrite Hc, Hr in Hmk.
    injection Hmk as <-. repeat split; reflexivity.
  - intros He. split; [|split].
    + apply parse_400_other.
      destruct (is_insufficient_credits _) eqn:Hi; [|reflexivity].
      apply is_insufficient_credits_spec in Hi. contradiction.
    + reflexivity.
    + apply details_of_dict.
  - intros status H1 H2 H3 H4 e. split; [|split; [|split]].
    + apply parse_other; assumption.
    + reflexivity.
    + reflexivity.
    + apply details_of_dict.
Qed.

Lemma parse_api_error_mapping_witness :
  exists e,
    parse_api_error 400
      (JObj [("error", JStr "INSUFFICIENT_CREDITS");
             ("current_balance", JInt 5); ("required", JInt 20)])
    = raise_error e
    /\ cls e = InsufficientCreditsError_cls
    /\ getattr e "current_balance" = Some (JInt 5)
    /\ getattr e "required" = Some (JInt 20)
    /\ getattr e "shortfall" = Some (JInt 15).
Proof.
  exact (proj1 (proj2 (proj2 (proj2
    (parse_api_error_mapping
       [("error", JStr "INSUFFICIENT_CREDITS");
        ("current_balance", JInt 5); ("required", JInt 20)]))))
    eq_refl 5 20 eq_refl eq_refl).
Defined.

(** ** Transport *)

(** [parse_api_error] never returns: it raises a typed error, or the
    [AttributeError] or [TypeError] of an ill-formed body. *)
Lemma parse_api_error_raises (status : Z) (body : json) :
  (exists e, parse_api_error status body = Raise (ExOneSub e))
  \/ parse_api_error status body = Raise ExAttributeError
  \/ parse_api_error status body = Raise ExTypeError.
Proof.
  destruct body as [| b | n | s | items | fields];
    try (right; left; reflexivity).
  unfold parse_api_error; simpl.
  destruct (truthy (get_default fields "message" JNull)); simpl;
    (destruct (status =? 401); [left; eexists; reflexivity|]);
    (destruct (status =? 404); [left; eexists; reflexivity|]);
    (destruct (status =? 429); [left; eexists; reflexivity|]);
    (destruct (status =? 400); [|left; eexists; reflexivity]);
    (destruct (is_insufficient_credits _); simpl;
       [|left; eexists; reflexivity]);
    unfold InsufficientCreditsError;
    (destruct (as_int (get_default fields "required" (JInt 0)));
       [|right; right; reflexivity]);
    (destruct (as_int (get_default fields "current_balance" (JInt 0)));
       [|right; right; reflexivity]);
    left; eexists; reflexivity.
Qed.

Lemma range_succ (n : Z) :
  0 <= n -> exists rest, range (n + 1) = 0 :: rest.
Proof.
  intros Hn. unfold range.
  replace (Z.to_nat (n + 1)) with (S (Z.to_nat n)) by lia.
  simpl. eexists; reflexivity.
Qed.

(** A response with an error status ends [request] at once: what
    [parse_api_error] raises leaves the loop, whatever the status. *)
Lemma error_response_not_retried (c : HttpClient) (E : env) (w : world)
    (r : response) :
  0 <= max_retries c ->
  server E (sent w) = Responds r ->
  ok r = false ->
  exists e,
    parse_api_error (resp_status r) (error_body r) = Raise e
    /\ request c E w = (Raise e, mkWorld (S (sent w)) (draws w) (slept w)).
Proof.
  intros Hmax Hsrv Hok.
  destruct (range_succ _ Hmax) as [rest Hrange].
  unfold request. rewrite Hrange. simpl.
  unfold attempt_once, session_request. rewrite Hsrv. simpl.
  unfold after_response. rewrite Hok.
  destruct (parse_api_error_raises (resp_status r) (error_body r))
    as [[e He] | [He | He]].
  - exists (ExOneSub e). split; [exact He|].
    destruct ((400 <=? resp_status r) && (resp_status r <? 500)
              && negb (resp_status r =? 429)); simpl; rewrite He; reflexivity.
  - exists ExAttributeError. split; [exact He|].
    destruct ((400 <=? resp_status r) && (resp_status r <? 500)
              && negb (resp_status r =? 429)); simpl; rewrite He; reflexivity.
  - exists ExTypeError. split; [exact He|].
    destruct ((400 <=? resp_status r) && (resp_status r <? 500)
              && negb (resp_status r =? 429)); simpl; rewrite He; reflexivity.
Qed.

(** C2: a first response with a 4xx status other than 429 ends [request]
    after that one attempt: the error [parse_api_error] maps the status and
    the body to is raised, no further request is sent, no jitter is drawn
    and nothing is slept; for 404 and an object body the error is
    [NotFoundError]. *)
Theorem client_error_raised_without_retry (c : HttpClient) (E : env)
    (w : world) (r : response) :
  0 <= max_retries c ->
  server E (sent w) = Responds r ->
  400 <= resp_status r < 500 ->
  resp_status r <> 429 ->
  exists e,
    parse_api_error (resp_status r) (error_body r) = Raise e
    /\ request c E w = (Raise e, mkWorld (S (sent w)) (draws w) (slept w))
    /\ (forall fields,
          resp_status r = 404 -> error_body r = JObj fields ->
          e = ExOneSub (NotFoundError (error_message fields))).
Proof.
  intros Hmax Hsrv Hrange Hne.
  assert (Hok : ok r = false).
  { unfold ok.
    replace (400 <=? resp_status r) with true by (symmetry; apply Z.leb_le; lia).
    replace (resp_status r <? 600) with true by (symmetry; apply Z.ltb_lt; lia).
    reflexivity. }
  destruct (error_response_not_retried c E w r Hmax Hsrv Hok) as (e & He & Hreq).
  exists e. split; [exact He|]. split; [exact Hreq|].
  intros fields H404 Hbody.
  rewrite H404, Hbody, parse_404 in He.
  unfold raise_error in He. congruence.
Qed.

Lemma client_error_raised_without_retry_witness :
  exists e,
    parse_api_error 404 (JObj [("message", JStr "not found")]) = Raise e
    /\ request default_client not_found_server world0
       = (Raise e, mkWorld 1 0 [])
    /\ (forall fields,
          404 = 404 -> JObj [("message", JStr "not found")] = JObj fields ->
          e = ExOneSub (NotFoundError (error_message fields))).
Proof.
  apply (client_error_raised_without_retry default_client not_found_server
           world0 (mkResponse 404 not_found_text
                     (Decoded (JObj [("message", JStr "not found")])))).
  - simpl. lia.
  - reflexivity.
  - simpl. lia.
  - simpl. lia.
Defined.

(** C1 (what the code does): on the scenario of the claim, [request]
    raises [RateLimitError] after the first attempt; the second and third
    answers are never asked for and nothing is slept. *)
Theorem rate_limit_raised_on_first_attempt :
  request default_client rate_limited_twice world0
  = (raise_error (RateLimitError (JInt 60) (JInt 100) (JInt 0)),
     mkWorld 1 0 []).
Proof. reflexivity. Qed.

(** Timeouts, in contrast, are retried: three attempts, two sleeps. *)
Lemma timeouts_are_retried :
  let (res, w) := request default_client times_out_twice world0 in
  res = Ret (JObj [("success", JBool true)])
  /\ sent w = 3%nat /\ length (slept w) = 2%nat.
Proof. vm_compute. repeat split. Qed.

(** The same on every client and server: a first answer of 429 with an
    object body raises [RateLimitError] after one attempt. *)
Lemma rate_limit_response_not_retried (c : HttpClient) (E : env) (w : world)
    (text : string) (fields : list (string * json)) :
  0 <= max_retries c ->
  server E (sent w) = json_response 429 text (JObj fields) ->
  request c E w
  = (raise_error (RateLimitError (get_default fields "retry_after" (JInt 60))
                                 (get_default fields "limit" (JInt 100))
                                 (get_default fields "remaining" (JInt 0))),
     mkWorld (S (sent w)) (draws w) (slept w)).
Proof.
  intros Hmax Hsrv.
  destruct (error_response_not_retried c E w _ Hmax Hsrv eq_refl)
    as (e & He & Hreq).
  simpl in He. unfold error_body in He; simpl in He.
  rewrite parse_429 in He. rewrite Hreq. f_equal.
  unfold raise_error in *. congruence.
Qed.

(** A 5xx answer is raised at once as well. *)
Lemma server_error_raised_on_first_attempt (c : HttpClient) (E : env)
    (w : world) (r : response) :
  0 <= max_retries c ->
  server E (sent w) = Responds r ->
  500 <= resp_status r < 600 ->
  exists e,
    request c E w = (Raise e, mkWorld (S (sent w)) (draws w) (slept w)).
Proof.
  intros Hmax Hsrv Hrange.
  assert (Hok : ok r = false).
  { unfold ok.
    replace (400 <=? resp_status r) with true by (symmetry; apply Z.leb_le; lia).
    replace (resp_status r <? 600) with true by (symmetry; apply Z.ltb_lt; lia).
    reflexivity. }
  destruct (error_response_not_retried c E w r Hmax Hsrv Hok) as (e & _ & Hreq).
  exists e. exact Hreq.
Qed.

(** ** Signature verifier *)

(** The digest of ["abc"] (FIPS 180-4) and the second test case of
    RFC 4231. *)
Example sha256_abc :
  hex_of_bytes (Sha256.digest (bytes_of_string "abc"))
  = "ba7816bf8f01cfea414140de5dae2223b00361a396177a9cb410ff61f20015ad".
Proof. vm_compute. reflexivity. Qed.

Example hmac_sha256_rfc4231 :
  create_hmac_signature "what do ya want for nothing?" "Jefe"
  = "5bdcc146bf60754e6a042426089575c75a003f089d2739839dec58b964ec3843".
Proof. vm_compute. reflexivity. Qed.

Lemma string_forall_impl (p q : ascii -> bool) (s : string) :
  (forall c, p c = true -> q c = true) ->
  string_forall p s = true -> string_forall q s = true.
Proof.
  intros Hpq. induction s as [|c rest IH]; simpl; [reflexivity|].
  intros H. apply andb_true_iff in H as [Hc Hrest].
  rewrite (Hpq c Hc), (IH Hrest). reflexivity.
Qed.

Lemma hexdigit_is_hex (n : Z) : is_hex (hexdigit n) = true.
Proof.
  unfold hexdigit. generalize (Z.to_nat n) as k. intros k.
  do 16 (destruct k as [|k]; [reflexivity|]).
  destruct k; reflexivity.
Qed.

Lemma hex_of_bytes_is_hex (bytes : list Z) :
  string_forall is_hex (hex_of_bytes bytes) = true.
Proof.
  induction bytes as [|b rest IH]; simpl; [reflexivity|].
  rewrite !hexdigit_is_hex, IH. reflexivity.
Qed.

Lemma digest_nonempty (msg : list Z) :
  exists b rest, Sha256.digest msg = b :: rest.
Proof.
  unfold Sha256.digest. generalize (Sha256.sha256 msg) as st. intros st.
  cbn [flat_map Sha256.be_bytes app]. eauto.
Qed.

Lemma create_hmac_signature_nonempty (payload secret : string) :
  create_hmac_signature payload secret <> "".
Proof.
  unfold create_hmac_signature, hmac_sha256.
  match goal with |- hex_of_bytes (Sha256.digest ?m) <> _ =>
    destruct (digest_nonempty m) as (b & rest & ->) end.
  simpl. discriminate.
Qed.

Lemma create_hmac_signature_is_hex (payload secret : string) :
  string_forall is_hex (create_hmac_signature payload secret) = true.
Proof. apply hex_of_bytes_is_hex. Qed.

Ltac by_char_cases c :=
  destruct c as [[] [] [] [] [] [] [] []]; simpl;
  intros; try discriminate; try reflexivity.

Lemma is_hex_ascii (c : ascii) :
  is_hex c = true -> (N_of_ascii c <? 128)%N = true.
Proof. by_char_cases c. Qed.

Lemma is_hex_not_comma (c : ascii) :
  is_hex c = true -> negb (Ascii.eqb c ",") = true.
Proof. by_char_cases c. Qed.

Lemma is_digit_not_comma (c : ascii) :
  is_digit c = true -> negb (Ascii.eqb c ",") = true.
Proof. by_char_cases c. Qed.

Lemma is_digit_not_space (c : ascii) :
  is_digit c = true -> negb (is_space c) = true.
Proof. by_char_cases c. Qed.

Lemma is_digit_not_int_space (c : ascii) :
  is_digit c = true -> negb (is_int_space c) = true.
Proof. by_char_cases c. Qed.

Lemma is_digit_ascii (c : ascii) :
  is_digit c = true -> (N_of_ascii c <? 128)%N = true.
Proof. by_char_cases c. Qed.

(** *** Splitting *)

Lemma split_on_without (sep : ascii) (s : string) :
  string_forall (fun c => negb (Ascii.eqb c sep)) s = true ->
  split_on sep s = [s].
Proof.
  induction s as [|c rest IH]; simpl; [reflexivity|].
  intros H. apply andb_true_iff in H as [Hc Hrest].
  apply negb_true_iff in Hc. rewrite Hc, (IH Hrest). reflexivity.
Qed.

Lemma split_on_app (sep : ascii) (a b : string) :
  string_forall (fun c => negb (Ascii.eqb c sep)) a = true ->
  split_on sep (a ++ String sep b) = a :: split_on sep b.
Proof.
  induction a as [|c rest IH]; simpl.
  - intros _. rewrite Ascii.eqb_refl. reflexivity.
  - intros H. apply andb_true_iff in H as [Hc Hrest].
    apply negb_true_iff in Hc. rewrite Hc, (IH Hrest). reflexivity.
Qed.

Lemma parse_signature_header_two_fields (t sig : string) :
  string_forall (fun c => negb (Ascii.eqb c ",")) t = true ->
  string_forall (fun c => negb (Ascii.eqb c ",")) sig = true ->
  parse_signature_header ("t=" ++ t ++ ",v1=" ++ sig) = (Some t, Some sig).
Proof.
  intros Ht Hsig. unfold parse_signature_header.
  change ("t=" ++ t ++ ",v1=" ++ sig)%string
    with (String "t" (String "=" (t ++ String "," ("v1=" ++ sig))))%string.
  assert (Hsplit : split_on ","
            (String "t" (String "=" (t ++ String "," ("v1=" ++ sig))))
          = [String "t" (String "=" t); ("v1=" ++ sig)%string]).
  { change (String "t" (String "=" (t ++ String "," ("v1=" ++ sig))))
      with (String "t" (String "=" t) ++ String "," ("v1=" ++ sig))%string.
    rewrite split_on_app by (simpl; exact Ht).
    rewrite split_on_without by (simpl; exact Hsig). reflexivity. }
  rewrite Hsplit. reflexivity.
Qed.

(** *** Printing and reading integers *)

Lemma string_of_uint_digits (d : Decimal.uint) :
  string_forall is_digit (NilEmpty.string_of_uint d) = true.
Proof. induction d; simpl; auto. Qed.

Lemma digits_of_string_of_uint_after (d : Decimal.uint) :
  digits_of (NilEmpty.string_of_uint d) true = Some d.
Proof. induction d; simpl; rewrite ?IHd; reflexivity. Qed.

Lemma digits_of_string_of_uint (d : Decimal.uint) (prev : bool) :
  d <> Decimal.Nil ->
  digits_of (NilEmpty.string_of_uint d) prev = Some d.
Proof.
  intros Hd. destruct d; [contradiction| ..]; simpl;
    rewrite digits_of_string_of_uint_after; reflexivity.
Qed.

Lemma rstrip_without_space (s : string) :
  string_forall (fun c => negb (is_space c)) s = true -> rstrip s = s.
Proof.
  induction s as [|c rest IH]; simpl; [reflexivity|].
  intros H. apply andb_true_iff in H as [Hc Hrest].
  apply negb_true_iff in Hc. rewrite (IH Hrest), Hc.
  destruct rest; reflexivity.
Qed.

Lemma strip_without_space (s : string) :
  string_forall (fun c => negb (is_space c)) s = true -> strip s = s.
Proof.
  intros H. unfold strip.
  assert (Hl : lstrip s = s).
  { destruct s as [|c rest]; simpl; [reflexivity|].
    simpl in H. apply andb_true_iff in H as [Hc _].
    apply negb_true_iff in Hc. rewrite Hc. reflexivity. }
  rewrite Hl. apply rstrip_without_space, H.
Qed.

Lemma int_rstrip_without_space (s : string) :
  string_forall (fun c => negb (is_int_space c)) s = true ->
  int_rstrip s = s.
Proof.
  induction s as [|c rest IH]; simpl; [reflexivity|].
  intros H. apply andb_true_iff in H as [Hc Hrest].
  apply negb_true_iff in Hc. rewrite (IH Hrest), Hc.
  destruct rest; reflexivity.
Qed.

Lemma int_strip_without_space (s : string) :
  string_forall (fun c => negb (is_int_space c)) s = true ->
  int_rstrip (int_lstrip s) = s.
Proof.
  intros H.
  assert (Hl : int_lstrip s = s).
  { destruct s as [|c rest]; simpl; [reflexivity|].
    simpl in H. apply andb_true_iff in H as [Hc _].
    apply negb_true_iff in Hc. rewrite Hc. reflexivity. }
  rewrite Hl. apply int_rstrip_without_space, H.
Qed.

Lemma int_ascii_unsigned (d : Decimal.uint) :
  d <> Decimal.Nil ->
  int_ascii (NilEmpty.string_of_uint d) = Some (Z.of_uint d).
Proof.
  intros Hd. unfold int_ascii.
  rewrite int_strip_without_space
    by (eapply string_forall_impl;
        [apply is_digit_not_int_space | apply string_of_uint_digits]).
  pose proof (digits_of_string_of_uint d false Hd) as Hdig.
  destruct d; [contradiction| ..]; simpl in *; rewrite Hdig; reflexivity.
Qed.

Lemma int_ascii_negative (d : Decimal.uint) :
  d <> Decimal.Nil ->
  int_ascii (String "-" (NilEmpty.string_of_uint d)) = Some (- Z.of_uint d).
Proof.
  intros Hd. unfold int_ascii.
  rewrite int_strip_without_space.
  - rewrite (digits_of_string_of_uint d false Hd). reflexivity.
  - simpl. eapply string_forall_impl;
      [apply is_digit_not_int_space | apply string_of_uint_digits].
Qed.

Lemma int_ascii_py_str (n : Z) : int_ascii (py_str n) = Some n.
Proof.
  destruct n as [|p|p]; unfold py_str; simpl.
  - reflexivity.
  - pose proof (DecimalPos.Unsigned.to_uint_nonnil p) as Hnil.
    unfold NilZero.string_of_uint.
    destruct (Pos.to_uint p) eqn:Hd; [contradiction| ..];
      rewrite <- Hd, int_ascii_unsigned by (rewrite Hd; discriminate);
      f_equal; apply (DecimalZ.of_to (Z.pos p)).
  - pose proof (DecimalPos.Unsigned.to_uint_nonnil p) as Hnil.
    unfold NilZero.string_of_uint.
    destruct (Pos.to_uint p) eqn:Hd; [contradiction| ..];
      rewrite <- Hd, int_ascii_negative by (rewrite Hd; discriminate);
      f_equal; apply (DecimalZ.of_to (Z.neg p)).
Qed.

Lemma py_str_ascii (n : Z) : is_ascii (py_str n) = true.
Proof.
  assert (Hu : forall d, is_ascii (NilZero.string_of_uint d) = true).
  { intros d. unfold NilZero.string_of_uint.
    destruct d; try reflexivity;
      (eapply string_forall_impl;
       [apply is_digit_ascii | apply string_of_uint_digits]). }
  destruct n as [|p|p]; unfold py_str; simpl.
  - reflexivity.
  - apply Hu.
  - apply Hu.
Qed.

(** [int(str(n)) == n] *)
Lemma py_int_py_str {I : IntOfStr} (n : Z) : py_int (py_str n) = Some n.
Proof. rewrite py_int_ascii by apply py_str_ascii. apply int_ascii_py_str. Qed.

Lemma py_str_nonempty (n : Z) : py_str n <> "".
Proof.
  destruct n as [|p|p]; unfold py_str; simpl; try discriminate.
  unfold NilZero.string_of_uint.
  pose proof (DecimalPos.Unsigned.to_uint_nonnil p) as Hnil.
  destruct (Pos.to_uint p); [contradiction| ..]; discriminate.
Qed.

Lemma py_str_no_comma (n : Z) :
  string_forall (fun c => negb (Ascii.eqb c ",")) (py_str n) = true.
Proof.
  assert (Hu : forall d,
    string_forall (fun c => negb (Ascii.eqb c ","))
      (NilZero.string_of_uint d) = true).
  { intros d. unfold NilZero.string_of_uint.
    destruct d; try reflexivity;
      (eapply string_forall_impl;
       [apply is_digit_not_comma | apply string_of_uint_digits]). }
  destruct n as [|p|p]; unfold py_str; simpl.
  - reflexivity.
  - apply Hu.
  - apply Hu.
Qed.

(** *** Verifying what [generate_signature] made *)

Lemma eqb_empty_false (s : string) : s <> "" -> String.eqb s "" = false.
Proof. intros H. apply String.eqb_neq. exact H. Qed.

Lemma compare_digest_same_hex (s : string) :
  string_forall is_hex s = true -> compare_digest s s = Ret true.
Proof.
  intros H. unfold compare_digest, is_ascii.
  rewrite (string_forall_impl _ _ s is_hex_ascii H), String.eqb_refl.
  reflexivity.
Qed.

Lemma py_int_empty {I : IntOfStr} : py_int "" = None.
Proof. rewrite py_int_ascii by reflexivity. reflexivity. Qed.

Section SignatureProperties.

Context {I : IntOfStr}.

(** A header made at time [ts] is accepted at time [now] exactly when the
    two are no more than the tolerance apart. *)
Lemma verify_generated (now ts : Z) (payload secret : string) (tolerance : Z) :
  verify_signature now payload (generate_signature ts payload secret) secret
    tolerance
  = Ret (negb (Z.abs (now - ts) >? tolerance)).
Proof.
  unfold verify_signature, generate_signature.
  rewrite parse_signature_header_two_fields.
  - cbv beta iota.
    rewrite (eqb_empty_false _ (py_str_nonempty ts)).
    rewrite eqb_empty_false by apply create_hmac_signature_nonempty.
    cbn [orb]. rewrite py_int_py_str.
    destruct (Z.abs (now - ts) >? tolerance); [reflexivity|].
    cbn [negb]. apply compare_digest_same_hex, create_hmac_signature_is_hex.
  - apply py_str_no_comma.
  - eapply string_forall_impl;
      [apply is_hex_not_comma | apply create_hmac_signature_is_hex].
Qed.

(** C3: a header that [generate_signature] made for a payload and a secret
    is accepted by [verify_signature] with the same payload and secret,
    when the clock of the verifier is within the tolerance of the clock of
    the signer; at the same clock value and the default tolerance of 300 in
    particular. *)
Theorem verify_generate_roundtrip (payload secret : string)
    (signed_at now tolerance : Z) :
  Z.abs (now - signed_at) <= tolerance ->
  verify_signature now payload
    (generate_signature signed_at payload secret) secret tolerance
  = Ret true.
Proof.
  intros Hwithin. rewrite verify_generated.
  replace (Z.abs (now - signed_at) >? tolerance) with false; [reflexivity|].
  symmetry. rewrite Z.gtb_ltb. apply Z.ltb_ge. exact Hwithin.
Qed.

(** A [v1] that is not ASCII makes [hmac.compare_digest] raise, once the
    timestamp has been read and found within the tolerance. *)
Lemma verify_non_ascii_signature (now : Z) (payload header secret : string)
    (t sg : string) (ts tolerance : Z) :
  parse_signature_header header = (Some t, Some sg) ->
  py_int t = Some ts ->
  Z.abs (now - ts) <= tolerance ->
  is_ascii sg = false ->
  verify_signature now payload header secret tolerance = Raise ExTypeError.
Proof.
  intros Hparse Hint Htol Hsg. unfold verify_signature. rewrite Hparse.
  assert (Ht : String.eqb t "" = false).
  { apply String.eqb_neq. intros ->. rewrite py_int_empty in Hint.
    discriminate. }
  assert (Hs : String.eqb sg "" = false).
  { apply String.eqb_neq. intros ->. discriminate. }
  rewrite Ht, Hs. cbn [orb]. rewrite Hint.
  replace (Z.abs (now - ts) >? tolerance) with false
    by (symmetry; rewrite Z.gtb_ltb; apply Z.ltb_ge; exact Htol).
  unfold compare_digest. rewrite Hsg, andb_false_r. reflexivity.
Qed.

Lemma verify_missing_field (now : Z) (payload header secret : string)
    (tolerance : Z) :
  fst (parse_signature_header header) = None
  \/ snd (parse_signature_header header) = None ->
  verify_signature now payload header secret tolerance = Ret false.
Proof.
  unfold verify_signature.
  destruct (parse_signature_header header) as [[t|] [sg|]]; simpl;
    intros [H|H]; try discriminate; reflexivity.
Qed.

Lemma verify_bad_timestamp (now : Z) (payload header secret t : string)
    (tolerance : Z) :
  fst (parse_signature_header header) = Some t ->
  py_int t = None ->
  verify_signature now payload header secret tolerance = Ret false.
Proof.
  unfold verify_signature.
  destruct (parse_signature_header header) as [[t'|] [sg|]]; simpl;
    intros [= ->] Hint; try reflexivity.
  rewrite Hint. destruct (_ || _); reflexivity.
Qed.

(** C4: with a tolerance of 300 a correctly signed payload is refused
    exactly when the clock is more than 300 from the timestamp of the header,
    the boundary being accepted: a shift of 300 gives [True], a shift of
    301 [False].  A header without [t] or without [v1], or with a [t]
    that [int] refuses, gives [False]: [int] is the conversion of the
    interpreter, whatever it reads outside ASCII. *)
Theorem verify_tolerance_window (payload secret : string) (ts now : Z) :
  let header := generate_signature ts payload secret in
  (verify_signature now payload header secret 300 = Ret false
     <-> Z.abs (now - ts) > 300)
  /\ (verify_signature now payload header secret 300 = Ret true
     <-> Z.abs (now - ts) <= 300)
  /\ verify_signature (ts + 300) payload header secret 300 = Ret true
  /\ verify_signature (ts - 300) payload header secret 300 = Ret true
  /\ verify_signature (ts + 301) payload header secret 300 = Ret false
  /\ verify_signature (ts - 301) payload header secret 300 = Ret false
  /\ (forall other tolerance,
        fst (parse_signature_header other) = None
        \/ snd (parse_signature_header other) = None ->
        verify_signature now payload other secret tolerance = Ret false)
  /\ (forall other tolerance t,
        fst (parse_signature_header other) = Some t ->
        py_int t = None ->
        verify_signature now payload other secret tolerance = Ret false).
Proof.
  intros header. unfold header.
  assert (Hshift : forall d, Z.abs (ts + d - ts) = Z.abs d)
    by (intros d; f_equal; lia).
  repeat split.
  - rewrite verify_generated. intros [= H].
    apply negb_false_iff in H. rewrite Z.gtb_ltb in H.
    apply Z.ltb_lt in H. lia.
  - intros H. rewrite verify_generated. f_equal.
    apply negb_false_iff. rewrite Z.gtb_ltb. apply Z.ltb_lt. lia.
  - rewrite verify_generated. intros [= H].
    apply negb_true_iff in H. rewrite Z.gtb_ltb in H.
    apply Z.ltb_ge in H. exact H.
  - intros H. rewrite verify_generated. f_equal.
    apply negb_true_iff. rewrite Z.gtb_ltb. apply Z.ltb_ge. exact H.
  - rewrite verify_generated, Hshift. reflexivity.
  - rewrite verify_generated.
    replace (ts - 300 - ts) with (-300) by lia. reflexivity.
  - rewrite verify_generated, Hshift. reflexivity.
  - rewrite verify_generated.
    replace (ts - 301 - ts) with (-301) by lia. reflexivity.
  - intros other tolerance H. apply verify_missing_field, H.
  - intros other tolerance t Ht Hint.
    eapply verify_bad_timestamp; eassumption.
Qed.

End SignatureProperties.

Lemma verify_generate_roundtrip_witness :
  Z.abs (1700000000 - 1700000000) <= 300
  /\ verify_signature 1700000000 "{}"
       (generate_signature 1700000000 "{}" "whsec_test") "whsec_test" 300
     = Ret true.
Proof.
  split.
  - simpl. lia.
  - apply (verify_generate_roundtrip "{}" "whsec_test" 1700000000 1700000000
             300).
    simpl. lia.
Defined.

Lemma verify_tolerance_window_witness :
  verify_signature 1700000300 "{}"
    (generate_signature 1700000000 "{}" "whsec_test") "whsec_test" 300
  = Ret true
  /\ verify_signature 1700000301 "{}"
       (generate_signature 1700000000 "{}" "whsec_test") "whsec_test" 300
     = Ret false
  /\ verify_signature 1700000000 "{}" "v1=abc" "whsec_test" 300 = Ret false
  /\ verify_signature 1700000000 "{}" "t=12a,v1=abc" "whsec_test" 300
     = Ret false
  /\ verify_signature 1700000000 "{}"
       ("t=" ++ String "031"%char "1700000000" ++ ",v1=abc") "whsec_test" 300
     = Ret false.
Proof.
  destruct (verify_tolerance_window "{}" "whsec_test" 1700000000 1700000000)
    as (_ & _ & H300 & _ & H301 & _ & Hmissing & Hbad).
  split; [exact H300|]. split; [exact H301|]. split; [|split].
  - apply Hmissing. left. reflexivity.
  - apply (Hbad _ _ "12a"); reflexivity.
  - apply (Hbad _ _ (String "031"%char "1700000000")); reflexivity.
Defined.

(** ** Webhook dispatcher *)

(** The same for [WebhooksClient.verify], which refuses the empty payload
    first. *)
Lemma client_verify_generated {I : IntOfStr} (self : WebhooksClient)
    (now ts : Z) (payload : string) :
  payload <> "" ->
  verify self now payload (generate_test_signature self ts payload)
  = Ret (negb (Z.abs (now - ts) >? tolerance_seconds self)).
Proof.
  intros Hpayload. unfold verify, generate_test_signature.
  rewrite (eqb_empty_false payload Hpayload).
  rewrite verify_generated. reflexivity.
Qed.

Lemma full_ids_size :
  Z.of_nat (size (_processed_events client_full)) = 10000.
Proof.
  unfold client_full, set_processed; cbn [_processed_events].
  rewrite size_list_to_set.
  - unfold full_ids. rewrite length_map, length_seq. apply Z2Nat.id. lia.
  - assert (Hinj : Inj eq eq (fun n => KInt (Z.of_nat n)))
      by (intros a b [= H]; lia).
    unfold full_ids. apply (NoDup_fmap_2 _), NoDup_seq.
Qed.

Section DispatcherProperties.

Context {pop : SetPop} {I : IntOfStr}.

Variable json_loads : string -> pyres json.

Implicit Types (self : WebhooksClient) (event : json) (k t : key).

Lemma size_add_le (k : key) (s : gset key) :
  (size ({[k]} ∪ s) <= 1 + size s)%nat.
Proof.
  rewrite size_union_alt, size_singleton.
  pose proof (subseteq_size (s ∖ {[k]}) s) as H.
  assert (s ∖ {[k]} ⊆ s) as Hsub
    by (intros x [Hx _]%elem_of_difference; exact Hx).
  specialize (H Hsub). lia.
Qed.

Lemma size_remove (victim : key) (s : gset key) :
  victim ∈ s -> (size (s ∖ {[victim]}) = size s - 1)%nat.
Proof.
  intros Hin. rewrite size_difference by set_solver.
  rewrite size_singleton. reflexivity.
Qed.

Lemma mark_processed_cases self k :
  (exists p, _mark_processed self k = (Ret tt, set_processed self p)
             /\ k ∈ p
             /\ (size p <= Nat.max (size (_processed_events self))
                                   (Z.to_nat (_max_processed self)))%nat)
  \/ (_mark_processed self k = (Raise ExKeyError, self)
      /\ _max_processed self <= 0).
Proof.
  unfold _mark_processed.
  destruct (Z.of_nat (size (_processed_events self)) >=? _max_processed self)
    eqn:Hfull.
  - destruct (set_pop (_processed_events self)) as [victim|] eqn:Hpop.
    + left. eexists. split; [reflexivity|]. split; [set_solver|].
      apply set_pop_elem in Hpop.
      pose proof (size_add_le k (_processed_events self ∖ {[victim]})).
      pose proof (size_remove victim _ Hpop).
      assert (size (_processed_events self) <> 0)%nat.
      { apply size_non_empty_iff. set_solver. }
      lia.
    + right. split; [reflexivity|].
      apply set_pop_empty in Hpop. rewrite Hpop, size_empty in Hfull.
      apply Z.geb_le in Hfull. lia.
  - left. eexists. split; [reflexivity|]. split; [set_solver|].
    rewrite Z.geb_leb in Hfull. apply Z.leb_gt in Hfull.
    pose proof (size_add_le k (_processed_events self)). lia.
Qed.

Lemma mark_processed_within_capacity self k :
  within_capacity self -> within_capacity (snd (_mark_processed self k)).
Proof.
  intros [Hmax Hsize].
  destruct (mark_processed_cases self k) as [(p & -> & _ & Hp) | [-> _]].
  - split; simpl; [exact Hmax|]. rewrite Hmax in Hp. lia.
  - split; assumption.
Qed.

Lemma mark_processed_succeeds self k :
  0 < _max_processed self ->
  exists p, _mark_processed self k = (Ret tt, set_processed self p) /\ k ∈ p.
Proof.
  intros Hmax.
  destruct (mark_processed_cases self k) as [(p & H & Hin & _) | [_ H]].
  - exists p. split; assumption.
  - lia.
Qed.

(** An event whose id is in the processed set: [handle] returns [True]
    and the client is what it was. *)
Lemma handle_processed self event k :
  event_id_of event = Ret k ->
  k ∈ _processed_events self ->
  handle self event = (Ret true, self).
Proof.
  intros Hid Hin. unfold handle. rewrite Hid.
  rewrite bool_decide_eq_true_2 by exact Hin. reflexivity.
Qed.

(** A new event with a registered handler: marked, then dispatched. *)
Lemma handle_dispatch self event k t h :
  event_id_of event = Ret k ->
  k ∉ _processed_events self ->
  event_type_of event = Ret t ->
  _handlers self !! t = Some h ->
  0 < _max_processed self ->
  exists p,
    k ∈ p
    /\ handle self event
       = (match handler_body h event with
          | Ret _ => Ret true
          | Raise e => Raise e
          end,
          record_call (set_processed self p) (handler_name h) event).
Proof.
  intros Hid Hnew Htype Hh Hmax. unfold handle. rewrite Hid, Htype.
  rewrite bool_decide_eq_false_2 by exact Hnew.
  change (_handlers self !! t) with (_handlers self !! t). rewrite Hh.
  destruct (mark_processed_succeeds self k Hmax) as (p & -> & Hin).
  exists p. split; [exact Hin|].
  destruct (handler_body h event) as [[]|e]; reflexivity.
Qed.

(** A new event with a registered handler, on a set that is not full:
    the id is added and nothing leaves the set. *)
Lemma handle_fresh self event k t h :
  event_id_of event = Ret k ->
  k ∉ _processed_events self ->
  event_type_of event = Ret t ->
  _handlers self !! t = Some h ->
  Z.of_nat (size (_processed_events self)) < _max_processed self ->
  handle self event
  = (match handler_body h event with
     | Ret _ => Ret true
     | Raise e => Raise e
     end,
     record_call (set_processed self ({[k]} ∪ _processed_events self))
       (handler_name h) event).
Proof.
  intros Hid Hnew Htype Hh Hroom. unfold handle. rewrite Hid, Htype.
  rewrite bool_decide_eq_false_2 by exact Hnew.
  change (_handlers self !! t) with (_handlers self !! t). rewrite Hh.
  unfold _mark_processed.
  replace (Z.of_nat (size (_processed_events self)) >=? _max_processed self)
    with false by (symmetry; rewrite Z.geb_leb; apply Z.leb_gt; exact Hroom).
  destruct (handler_body h event) as [[]|e]; reflexivity.
Qed.

(** The same on a full set, when [pop] takes [victim]. *)
Lemma handle_evicting self event k t h (victim : key) :
  event_id_of event = Ret k ->
  k ∉ _processed_events self ->
  event_type_of event = Ret t ->
  _handlers self !! t = Some h ->
  _max_processed self <= Z.of_nat (size (_processed_events self)) ->
  set_pop (_processed_events self) = Some victim ->
  handle self event
  = (match handler_body h event with
     | Ret _ => Ret true
     | Raise e => Raise e
     end,
     record_call
       (set_processed self
          ({[k]} ∪ (_processed_events self ∖ {[victim]})))
       (handler_name h) event).
Proof.
  intros Hid Hnew Htype Hh Hfull Hpop. unfold handle. rewrite Hid, Htype.
  rewrite bool_decide_eq_false_2 by exact Hnew.
  change (_handlers self !! t) with (_handlers self !! t). rewrite Hh.
  unfold _mark_processed.
  replace (Z.of_nat (size (_processed_events self)) >=? _max_processed self)
    with true by (symmetry; rewrite Z.geb_leb; apply Z.leb_le; exact Hfull).
  rewrite Hpop.
  destruct (handler_body h event) as [[]|e]; reflexivity.
Qed.

(** On a set that is not full [handle] removes nothing, whatever the
    event, and adds one id at most. *)
Lemma handle_keeps_member self event (k0 : key) :
  k0 ∈ _processed_events self ->
  Z.of_nat (size (_processed_events self)) < _max_processed self ->
  k0 ∈ _processed_events (snd (handle self event))
  /\ (size (_processed_events (snd (handle self event)))
      <= S (size (_processed_events self)))%nat
  /\ _max_processed (snd (handle self event)) = _max_processed self.
Proof.
  intros Hin Hroom. unfold handle.
  destruct (event_id_of event) as [k|e];
    [|cbn [snd]; split; [exact Hin|split; [lia|reflexivity]]].
  destruct (bool_decide (k ∈ _processed_events self));
    [cbn [snd]; split; [exact Hin|split; [lia|reflexivity]]|].
  destruct (event_type_of event) as [t|e];
    [|cbn [snd]; split; [exact Hin|split; [lia|reflexivity]]].
  destruct (_handlers self !! t) as [h|];
    [|cbn [snd]; split; [exact Hin|split; [lia|reflexivity]]].
  unfold _mark_processed.
  replace (Z.of_nat (size (_processed_events self)) >=? _max_processed self)
    with false by (symmetry; rewrite Z.geb_leb; apply Z.leb_gt; exact Hroom).
  pose proof (size_add_le k (_processed_events self)) as Hsize.
  destruct (handler_body h event) as [[]|e];
    cbn [snd record_call set_processed _processed_events _max_processed];
    (split; [apply elem_of_union_r, Hin|split; [lia|reflexivity]]).
Qed.

Lemma handle_all_keeps_member (events : list json) :
  forall self (k0 : key),
    k0 ∈ _processed_events self ->
    Z.of_nat (size (_processed_events self)) + Z.of_nat (length events)
    <= _max_processed self ->
    k0 ∈ _processed_events (snd (handle_all self events)).
Proof.
  induction events as [|event rest IH]; intros self k0 Hin Hroom;
    cbn [handle_all length] in *; [exact Hin|].
  destruct (handle_keeps_member self event k0 Hin ltac:(lia))
    as (Hin1 & Hsize & Hmax).
  destruct (handle self event) as [r self1]. cbn [snd] in *.
  specialize (IH self1 k0 Hin1).
  destruct (handle_all self1 rest) as [rs self2]. cbn [snd] in *.
  apply IH. lia.
Qed.

Lemma handle_all_snd_app self (a b : list json) :
  snd (handle_all self (a ++ b))
  = snd (handle_all (snd (handle_all self a)) b).
Proof.
  revert self. induction a as [|event rest IH]; intros self;
    cbn [handle_all app]; [reflexivity|].
  destruct (handle self event) as [r self1].
  specialize (IH self1).
  destruct (handle_all self1 (rest ++ b)) as [rs self2].
  destruct (handle_all self1 rest) as [rs' self2']. cbn [snd] in *.
  exact IH.
Qed.

Lemma numbered_id_inj (i j : nat) : numbered_id i = numbered_id j -> i = j.
Proof.
  unfold numbered_id. intros [= H].
  apply (f_equal int_ascii) in H. rewrite !int_ascii_py_str in H.
  injection H as H. lia.
Qed.

Lemma numbered_id_not_empty (i : nat) : numbered_id i <> KStr "".
Proof. unfold numbered_id. intros [= H]. exact (py_str_nonempty _ H). Qed.

(** A run of events with new, distinct ids on a set that they do not
    fill: each id is added. *)
Lemma handle_all_numbered (ids : list nat) :
  forall self h,
    NoDup ids ->
    (forall i, In i ids -> numbered_id i ∉ _processed_events self) ->
    _handlers self !! KStr "x" = Some h ->
    Z.of_nat (size (_processed_events self)) + Z.of_nat (length ids)
    <= _max_processed self ->
    _processed_events (snd (handle_all self (map numbered ids)))
    = list_to_set (map numbered_id ids) ∪ _processed_events self
    /\ _handlers (snd (handle_all self (map numbered ids))) = _handlers self
    /\ _max_processed (snd (handle_all self (map numbered ids)))
       = _max_processed self
    /\ secret (snd (handle_all self (map numbered ids))) = secret self.
Proof.
  induction ids as [|i rest IH]; intros self h Hnodup Hfresh Hh Hroom;
    cbn [map handle_all length] in *.
  - cbn [snd list_to_set]. rewrite union_empty_l_L. repeat split.
  - inversion Hnodup as [|? ? Hi Hrest]; subst.
    rewrite (handle_fresh self (numbered i) (numbered_id i) (KStr "x") h)
      by (try reflexivity; try exact Hh; try lia; apply Hfresh; left;
          reflexivity).
    set (self1 := record_call
                    (set_processed self
                       ({[numbered_id i]} ∪ _processed_events self))
                    (handler_name h) (numbered i)).
    pose proof (size_add_le (numbered_id i) (_processed_events self))
      as Hsize.
    destruct (IH self1 h Hrest) as (Hset & Hhandlers & Hmax & Hsecret).
    + intros j Hj. unfold self1; cbn [_processed_events record_call
                                       set_processed].
      rewrite elem_of_union, elem_of_singleton. intros [Heq|Hold].
      * apply numbered_id_inj in Heq. subst j.
        apply Hi, list_elem_of_In, Hj.
      * exact (Hfresh j (or_intror Hj) Hold).
    + exact Hh.
    + unfold self1; cbn [_processed_events _max_processed record_call
                         set_processed]. lia.
    + destruct (handle_all self1 (map numbered rest)) as [rs self2].
      cbn [snd] in *. rewrite Hset, Hhandlers, Hmax, Hsecret.
      unfold self1; cbn [_processed_events _handlers _max_processed secret
                         record_call set_processed].
      split; [|repeat split].
      cbn [list_to_set]. apply set_eq. intros x.
      rewrite !elem_of_union. tauto.
Qed.

Lemma handle_within_capacity self event :
  within_capacity self -> within_capacity (snd (handle self event)).
Proof.
  intros Hinv. unfold handle.
  destruct (event_id_of event) as [k|e]; [|exact Hinv].
  destruct (bool_decide (k ∈ _processed_events self)); [exact Hinv|].
  destruct (event_type_of event) as [t|e]; [|exact Hinv].
  destruct (_handlers self !! t) as [h|]; [|exact Hinv].
  pose proof (mark_processed_within_capacity self k Hinv) as Hmark.
  destruct (_mark_processed self k) as [[[]|e] self1]; [|exact Hmark].
  destruct (handler_body h event); exact Hmark.
Qed.

Lemma process_within_capacity self (now : Z) (payload signature : string) :
  within_capacity self ->
  within_capacity (snd (process json_loads self now payload signature)).
Proof.
  intros Hinv. unfold process.
  destruct (construct_event json_loads self now payload signature)
    as [event|e]; [|exact Hinv].
  pose proof (handle_within_capacity self event Hinv) as Hh.
  destruct (handle self event) as [[b|e] self1]; exact Hh.
Qed.

Lemma event_id_of_missing event :
  has_no_id event = true -> event_id_of event = Ret (KStr "").
Proof.
  destruct event as [| | | | |fields]; try discriminate.
  unfold has_no_id, event_id_of, dict_get, get_default.
  destruct (assoc "id" fields) as [[| | |s| |]|]; try discriminate.
  - intros H. apply String.eqb_eq in H. subst s. reflexivity.
  - reflexivity.
Qed.

Lemma handle_all_processed self (events : list json) :
  KStr "" ∈ _processed_events self ->
  forallb has_no_id events = true ->
  handle_all self events = (map (fun _ => Ret true) events, self).
Proof.
  intros Hin. induction events as [|event rest IH]; simpl; [reflexivity|].
  intros H. apply andb_true_iff in H as [Hev Hrest].
  rewrite (handle_processed self event (KStr "")
             (event_id_of_missing event Hev) Hin).
  rewrite (IH Hrest). reflexivity.
Qed.

(** [construct_event] verifies before it parses.  When [verify]
    returns [False] it raises [WebhookVerificationError] with the default
    message, whatever [json.loads] would make of the payload; when [verify]
    returns [True] and [json.loads] raises [JSONDecodeError] it raises
    [WebhookVerificationError] with another message; when [verify] returns
    [True] and the payload is JSON it returns the decoded event.  What
    [verify] itself raises leaves [construct_event] before any parsing,
    and so does every other exception of [json.loads]. *)
Lemma construct_event_outcomes self (now : Z) (payload signature : string) :
  (verify self now payload signature = Ret false ->
     construct_event json_loads self now payload signature
     = raise_error WebhookVerificationError_default)
  /\ (verify self now payload signature = Ret true ->
      json_loads payload = Raise ExJSONDecodeError ->
      construct_event json_loads self now payload signature
      = raise_error
          (WebhookVerificationError (Msg (JStr "Invalid webhook payload"))))
  /\ (forall event,
        verify self now payload signature = Ret true ->
        json_loads payload = Ret event ->
        construct_event json_loads self now payload signature = Ret event)
  /\ (forall e,
        verify self now payload signature = Raise e ->
        construct_event json_loads self now payload signature = Raise e)
  /\ (forall e,
        verify self now payload signature = Ret true ->
        json_loads payload = Raise e ->
        e <> ExJSONDecodeError ->
        construct_event json_loads self now payload signature = Raise e)
  /\ cls WebhookVerificationError_default = WebhookVerificationError_cls
  /\ cls (WebhookVerificationError (Msg (JStr "Invalid webhook payload")))
     = WebhookVerificationError_cls
  /\ message WebhookVerificationError_default
     <> message (WebhookVerificationError
                   (Msg (JStr "Invalid webhook payload"))).
Proof.
  unfold construct_event, verify_or_raise.
  repeat split.
  - intros ->. reflexivity.
  - intros -> ->. reflexivity.
  - intros event -> ->. reflexivity.
  - intros e ->. reflexivity.
  - intros e -> -> Hne. destruct e; try reflexivity. contradiction.
  - discriminate.
Qed.

(** C7: an event whose id is in the processed set makes [handle] return
    [True] and leaves the client as it was: no handler is called, the
    processed set and the registry are the same.  So of two calls of
    [handle] with a new event whose type has a handler, the first calls
    the handler once and returns [True], the second returns [True] and
    calls nothing. *)
Theorem handle_redelivery_is_noop self event k :
  event_id_of event = Ret k ->
  (k ∈ _processed_events self -> handle self event = (Ret true, self))
  /\ (forall t h,
        k ∉ _processed_events self ->
        event_type_of event = Ret t ->
        _handlers self !! t = Some h ->
        handler_body h event = Ret tt ->
        0 < _max_processed self ->
        exists self1,
          handle self event = (Ret true, self1)
          /\ calls self1 = (calls self ++ [(handler_name h, event)])%list
          /\ _handlers self1 = _handlers self
          /\ handle self1 event = (Ret true, self1)).
Proof.
  intros Hid. split.
  - intros Hin. apply handle_processed with k; assumption.
  - intros t h Hnew Htype Hh Hbody Hmax.
    destruct (handle_dispatch self event k t h Hid Hnew Htype Hh Hmax)
      as (p & Hin & Hhandle).
    rewrite Hbody in Hhandle.
    eexists. split; [exact Hhandle|].
    split; [reflexivity|]. split; [reflexivity|].
    apply handle_processed with k; [exact Hid|exact Hin].
Qed.

(** C8: an event whose id is not processed and whose type has no handler
    makes [handle] return [False] and leaves the client as it was: the id
    is still not processed and the registry is the same. *)
Theorem handle_unregistered_leaves_state self event k t :
  event_id_of event = Ret k ->
  k ∉ _processed_events self ->
  event_type_of event = Ret t ->
  _handlers self !! t = None ->
  handle self event = (Ret false, self)
  /\ is_processed (snd (handle self event)) k = false
  /\ _handlers (snd (handle self event)) = _handlers self.
Proof.
  intros Hid Hnew Htype Hnone.
  assert (Hh : handle self event = (Ret false, self)).
  { unfold handle. rewrite Hid, Htype.
    rewrite bool_decide_eq_false_2 by exact Hnew.
    change (_handlers self !! t) with (_handlers self !! t).
    rewrite Hnone. reflexivity. }
  rewrite Hh. repeat split.
  unfold is_processed. simpl. apply bool_decide_eq_false_2. exact Hnew.
Qed.

(** C9: the processed set of a new client has at most 10000 members, and
    [handle], [process], [clear_processed], [on] and [off] keep it so.
    When it has 10000 members, [_mark_processed] removes one of them before
    it adds the new id. *)
Theorem processed_set_within_capacity self :
  (forall secret tolerance, within_capacity (init secret tolerance))
  /\ (within_capacity self ->
      (forall event, within_capacity (snd (handle self event)))
      /\ (forall now payload signature,
            within_capacity
              (snd (process json_loads self now payload signature)))
      /\ within_capacity (clear_processed self)
      /\ (forall event_type handler,
            within_capacity (on self event_type handler))
      /\ (forall event_type, within_capacity (off self event_type))
      /\ (forall k,
            Z.of_nat (size (_processed_events self)) = 10000 ->
            exists victim,
              victim ∈ _processed_events self
              /\ _mark_processed self k
                 = (Ret tt,
                    set_processed self
                      ({[k]} ∪ (_processed_events self ∖ {[victim]})))
              /\ Z.of_nat
                   (size ({[k]} ∪ (_processed_events self ∖ {[victim]})))
                 <= 10000)).
Proof.
  split.
  - intros secret tolerance. split; [reflexivity|].
    unfold init; cbn [_processed_events]. rewrite size_empty. lia.
  - intros Hinv. pose proof Hinv as [Hmax Hsize].
    split; [intros event; apply handle_within_capacity, Hinv|].
    split; [intros now payload signature;
            apply process_within_capacity, Hinv|].
    split; [split; [exact Hmax|]|].
    { unfold clear_processed, set_processed; cbn [_processed_events].
      rewrite size_empty. lia. }
    split; [intros event_type handler; split; assumption|].
    split; [intros event_type; split; assumption|].
    intros k Hfull. unfold _mark_processed.
    replace (Z.of_nat (size (_processed_events self)) >=? _max_processed self)
      with true by (symmetry; rewrite Z.geb_leb; apply Z.leb_le; lia).
    destruct (set_pop (_processed_events self)) as [victim|] eqn:Hpop.
    + apply set_pop_elem in Hpop. exists victim.
      split; [exact Hpop|]. split; [reflexivity|].
      pose proof (size_add_le k (_processed_events self ∖ {[victim]})).
      pose proof (size_remove victim _ Hpop). lia.
    + apply set_pop_empty in Hpop. rewrite Hpop, size_empty in Hfull. lia.
Qed.

(** C10: an event without ["id"], or with the empty string as id, is
    handled under the id [""].  After [handle] on such an event whose type
    has a handler, [""] is in the processed set (the handler was called if
    it was not there before), and from that client [handle] returns [True]
    on every event without id, of any type, and changes nothing: no handler
    is called, however many such events follow.  The same holds after any
    run of other events that cannot fill the set to its capacity: nothing
    leaves a set that is not full, so that [""] is still a member.  (On a
    full set [_mark_processed] removes a member, which may be [""].) *)
Theorem missing_id_is_empty_id self event t h :
  has_no_id event = true ->
  event_type_of event = Ret t ->
  _handlers self !! t = Some h ->
  0 < _max_processed self ->
  let self1 := snd (handle self event) in
  event_id_of event = Ret (KStr "")
  /\ KStr "" ∈ _processed_events self1
  /\ (KStr "" ∉ _processed_events self ->
      calls self1 = (calls self ++ [(handler_name h, event)])%list)
  /\ (forall event',
        has_no_id event' = true ->
        handle self1 event' = (Ret true, self1))
  /\ (forall events,
        forallb has_no_id events = true ->
        handle_all self1 events = (map (fun _ => Ret true) events, self1))
  /\ (forall events event',
        Z.of_nat (size (_processed_events self1))
        + Z.of_nat (length events) <= _max_processed self ->
        has_no_id event' = true ->
        let self2 := snd (handle_all self1 events) in
        KStr "" ∈ _processed_events self2
        /\ handle self2 event' = (Ret true, self2)).
Proof.
  intros Hmissing Htype Hh Hmax self1.
  pose proof (event_id_of_missing event Hmissing) as Hid.
  assert (Hin : KStr "" ∈ _processed_events self1
                /\ (KStr "" ∉ _processed_events self ->
                    calls self1
                    = (calls self ++ [(handler_name h, event)])%list)
                /\ _max_processed self1 = _max_processed self).
  { unfold self1.
    destruct (decide (KStr "" ∈ _processed_events self)) as [Hold|Hnew].
    - rewrite (handle_processed self _ _ Hid Hold). split; [exact Hold|].
      split; [|reflexivity]. intros Hno. contradiction.
    - destruct (handle_dispatch self _ _ t h Hid Hnew Htype Hh Hmax)
        as (p & Hp & ->).
      split; [exact Hp|]. split; [|reflexivity]. intros _. reflexivity. }
  destruct Hin as (Hin & Hcalls & Hmax1).
  split; [exact Hid|]. split; [exact Hin|]. split; [exact Hcalls|].
  split; [|split].
  - intros event' Hmissing'.
    apply handle_processed with (KStr ""); [|exact Hin].
    apply event_id_of_missing, Hmissing'.
  - intros events Hall. apply handle_all_processed; assumption.
  - intros events event' Hroom Hmissing' self2.
    assert (Hin2 : KStr "" ∈ _processed_events self2).
    { apply handle_all_keeps_member; [exact Hin|].
      rewrite Hmax1. exact Hroom. }
    split; [exact Hin2|].
    apply handle_processed with (KStr ""); [|exact Hin2].
    apply event_id_of_missing, Hmissing'.
Qed.

End DispatcherProperties.

(** *** The claims on the scenarios *)

Ltac by_decision := apply (bool_decide_unpack _); vm_compute; exact I.

(** C6: [construct_event] does not turn every failure into a
    [WebhookVerificationError].  Over a payload that is JSON, a header
    whose [v1] is not ASCII makes [hmac.compare_digest] raise [TypeError],
    which [verify] and [construct_event] let through; and with a valid
    signature, a payload on which [json.loads] raises another exception
    than [JSONDecodeError] ([RecursionError] on a text nested too deep)
    makes [construct_event] raise that exception. *)
Theorem construct_event_raises_other_errors {I : IntOfStr} :
  decode_sample evt_1_text = Ret evt_1
  /\ construct_event decode_sample client_x 1700000000 evt_1_text
       non_ascii_header
     = Raise ExTypeError
  /\ construct_event decode_nested client_x 1700000000 too_deep
       (generate_test_signature client_x 1700000000 too_deep)
     = Raise ExRecursionError.
Proof.
  split; [reflexivity|]. split.
  - destruct (construct_event_outcomes decode_sample client_x 1700000000
                evt_1_text non_ascii_header) as (_ & _ & _ & Hraise & _).
    apply Hraise. unfold verify.
    change (String.eqb evt_1_text "" || String.eqb non_ascii_header "")
      with false.
    cbv iota.
    apply (verify_non_ascii_signature 1700000000 evt_1_text non_ascii_header
             "whsec_test" "1700000000" (String "195" (String "169" ""))
             1700000000 300).
    + reflexivity.
    + rewrite py_int_ascii by reflexivity. reflexivity.
    + simpl. lia.
    + reflexivity.
  - assert (Hpayload : too_deep <> "").
    { unfold too_deep.
      replace (Z.to_nat 100000) with (S (Z.to_nat 99999)) by lia.
      discriminate. }
    destruct (construct_event_outcomes decode_nested client_x 1700000000
                too_deep
                (generate_test_signature client_x 1700000000 too_deep))
      as (_ & _ & _ & _ & Hother & _).
    apply Hother.
    + rewrite client_verify_generated by exact Hpayload. reflexivity.
    + unfold decode_nested. rewrite String.eqb_refl. reflexivity.
    + discriminate.
Qed.

Lemma handle_redelivery_is_noop_witness :
  exists self1,
    handle client_x evt_1 = (Ret true, self1)
    /\ calls self1 = [("on_x", evt_1)]
    /\ _handlers self1 = _handlers client_x
    /\ handle self1 evt_1 = (Ret true, self1).
Proof.
  apply (proj2 (handle_redelivery_is_noop client_x evt_1 (KStr "evt_1") eq_refl)
           (KStr "x") noop_handler).
  - by_decision.
  - reflexivity.
  - vm_compute. reflexivity.
  - reflexivity.
  - simpl. lia.
Defined.

Lemma handle_unregistered_leaves_state_witness :
  handle client_x evt_2 = (Ret false, client_x)
  /\ is_processed (snd (handle client_x evt_2)) (KStr "evt_2") = false
  /\ _handlers (snd (handle client_x evt_2)) = _handlers client_x.
Proof.
  apply (handle_unregistered_leaves_state client_x evt_2 (KStr "evt_2")
           (KStr "unregistered")).
  - reflexivity.
  - by_decision.
  - reflexivity.
  - vm_compute. reflexivity.
Defined.

Lemma processed_set_within_capacity_witness :
  within_capacity client_x
  /\ within_capacity (snd (handle client_x evt_1))
  /\ within_capacity
       (snd (process decode_sample client_x 1700000000 evt_1_text
               (generate_test_signature client_x 1700000000 evt_1_text)))
  /\ within_capacity (clear_processed client_full)
  /\ exists victim,
       victim ∈ _processed_events client_full
       /\ _mark_processed client_full (KStr "evt_new")
          = (Ret tt,
             set_processed client_full
               ({[KStr "evt_new"]}
                ∪ (_processed_events client_full ∖ {[victim]})))
       /\ Z.of_nat
            (size ({[KStr "evt_new"]}
                   ∪ (_processed_events client_full ∖ {[victim]})))
          <= 10000.
Proof.
  assert (Hx : within_capacity client_x).
  { destruct (processed_set_within_capacity decode_sample
                (init "whsec_test" 300)) as [Hinit Hkeep].
    apply (Hkeep (Hinit "whsec_test" 300)). }
  assert (Hfull : within_capacity client_full).
  { split; [reflexivity|]. rewrite full_ids_size. lia. }
  destruct (processed_set_within_capacity decode_sample client_x)
    as [_ Hkeep].
  destruct (Hkeep Hx) as (Hhandle & Hprocess & _).
  destruct (processed_set_within_capacity decode_sample client_full)
    as [_ Hkeep_full].
  destruct (Hkeep_full Hfull) as (_ & _ & Hclear & _ & _ & Hevict).
  split; [exact Hx|]. split; [apply Hhandle|]. split; [apply Hprocess|].
  split; [exact Hclear|].
  apply Hevict, full_ids_size.
Defined.

Lemma missing_id_is_empty_id_witness :
  let self1 := snd (handle client_x no_id_x) in
  let self2 := snd (handle_all self1 [evt_1; evt_2; no_id_y]) in
  event_id_of no_id_x = Ret (KStr "")
  /\ KStr "" ∈ _processed_events self1
  /\ calls self1 = [("on_x", no_id_x)]
  /\ handle self1 no_id_y = (Ret true, self1)
  /\ handle_all self1 [no_id_x; no_id_y; JObj []]
     = ([Ret true; Ret true; Ret true], self1)
  /\ KStr "" ∈ _processed_events self2
  /\ handle self2 no_id_x = (Ret true, self2).
Proof.
  destruct (missing_id_is_empty_id client_x no_id_x (KStr "x") noop_handler)
    as (Hid & Hin & Hcalls & Hnext & Hall & Hlater).
  - reflexivity.
  - reflexivity.
  - vm_compute. reflexivity.
  - reflexivity.
  - split; [exact Hid|]. split; [exact Hin|].
    split; [apply Hcalls; by_decision|].
    split; [apply Hnext; reflexivity|].
    split; [apply (Hall [no_id_x; no_id_y; JObj []]); reflexivity|].
    apply (Hlater [evt_1; evt_2; no_id_y] no_id_x).
    + vm_compute. discriminate.
    + reflexivity.
Defined.

Lemma map_is_fmap {A B : Type} (f : A -> B) (l : list A) : map f l = f <$> l.
Proof. induction l as [|x l IH]; simpl; [|rewrite IH]; reflexivity. Qed.

Lemma numbered_ids_fresh (n k : nat) :
  (n < k)%nat ->
  numbered_id k ∉ (list_to_set (map numbered_id (seq 1 n)) : gset key).
Proof.
  intros Hlt. rewrite elem_of_list_to_set, list_elem_of_In, in_map_iff.
  intros (j & Heq & Hj). apply numbered_id_inj in Heq. subst j.
  apply in_seq in Hj. lia.
Qed.

Lemma numbered_ids_size (n : nat) :
  size (list_to_set (map numbered_id (seq 1 n)) : gset key) = n.
Proof.
  rewrite size_list_to_set.
  - rewrite length_map, length_seq. reflexivity.
  - assert (Hinj : Inj eq eq numbered_id)
      by (intros a b; apply numbered_id_inj).
    rewrite map_is_fmap. apply (NoDup_fmap_2 _), NoDup_seq.
Qed.

(** The run that takes [""] out of the processed set: a client of
    capacity 10000 handles an event without id, then 10000 events with ids
    of their own, [pop] taking [""] when it is a member. *)
Lemma missing_id_run (self1 self2 : WebhooksClient) :
  self1 = snd (handle (pop := pop_empty_first) client_x no_id_x) ->
  self2 = snd (handle_all (pop := pop_empty_first) self1
                 (numbered_events (Z.to_nat 10000))) ->
  KStr "" ∈ _processed_events self1
  /\ calls self1 = [("on_x", no_id_x)]
  /\ (KStr "" ∉ _processed_events self2)
  /\ handle (pop := pop_empty_first) self2 no_id_y = (Ret false, self2)
  /\ exists self3,
       handle (pop := pop_empty_first) self2 no_id_x = (Ret true, self3)
       /\ calls self3 = (calls self2 ++ [("on_x", no_id_x)])%list.
Proof.
  intros Hself1 Hself2.
  assert (H1 : self1
               = record_call
                   (set_processed client_x ({[KStr ""]} ∪ ∅))
                   "on_x" no_id_x).
  { rewrite Hself1.
    rewrite (handle_fresh (pop := pop_empty_first) client_x no_id_x
               (KStr "") (KStr "x") noop_handler).
    - reflexivity.
    - reflexivity.
    - apply not_elem_of_empty.
    - reflexivity.
    - vm_compute. reflexivity.
    - reflexivity. }
  remember (Z.to_nat 9999) as n eqn:Hn.
  set (mid := snd (handle_all (pop := pop_empty_first) self1
                     (map numbered (seq 1 n)))).
  assert (Hrun : self2
                 = snd (handle (pop := pop_empty_first) mid
                          (numbered (S n)))).
  { rewrite Hself2. unfold numbered_events.
    replace (Z.to_nat 10000) with (S n) by lia.
    rewrite seq_S, map_app, handle_all_snd_app. fold mid.
    cbn [map handle_all]. change (1 + n)%nat with (S n).
    destruct (handle mid (numbered (S n))) as [r s2]. reflexivity. }
  destruct (handle_all_numbered (pop := pop_empty_first) (seq 1 n) self1
              noop_handler) as (Hset & Hhandlers & Hmax & _).
  { apply NoDup_seq. }
  { intros i _. rewrite H1.
    cbn [_processed_events record_call set_processed].
    rewrite union_empty_r_L, elem_of_singleton.
    apply numbered_id_not_empty. }
  { rewrite H1. vm_compute. reflexivity. }
  { rewrite H1.
    cbn [_processed_events _max_processed record_call set_processed].
    rewrite union_empty_r_L, size_singleton, length_seq.
    change (_max_processed client_x) with 10000. lia. }
  fold mid in Hset, Hhandlers, Hmax.
  rewrite H1 in Hset, Hhandlers, Hmax.
  cbn [_processed_events _handlers _max_processed record_call set_processed]
    in Hset, Hhandlers, Hmax.
  rewrite union_empty_r_L in Hset.
  assert (Hempty : KStr "" ∈ _processed_events mid).
  { rewrite Hset. apply elem_of_union_r, elem_of_singleton. reflexivity. }
  assert (Hstep : handle (pop := pop_empty_first) mid (numbered (S n))
                  = (Ret true,
                     record_call
                       (set_processed mid
                          ({[numbered_id (S n)]}
                           ∪ (_processed_events mid ∖ {[KStr ""]})))
                       "on_x" (numbered (S n)))).
  { apply (handle_evicting (pop := pop_empty_first) mid (numbered (S n))
             (numbered_id (S n)) (KStr "x") noop_handler (KStr "")).
    - reflexivity.
    - rewrite Hset, elem_of_union, elem_of_singleton.
      intros [Hold|Heq].
      + exact (numbered_ids_fresh n (S n) ltac:(lia) Hold).
      + exact (numbered_id_not_empty _ Heq).
    - reflexivity.
    - rewrite Hhandlers. vm_compute. reflexivity.
    - rewrite Hmax, Hset.
      rewrite size_union
        by (apply disjoint_singleton_r;
            rewrite elem_of_list_to_set, list_elem_of_In, in_map_iff;
            intros (j & Heq & _); exact (numbered_id_not_empty _ Heq)).
      rewrite numbered_ids_size, size_singleton.
      change (_max_processed client_x) with 10000. lia.
    - cbn [set_pop pop_empty_first]. unfold pop_empty_first_choice.
      rewrite bool_decide_eq_true_2 by exact Hempty. reflexivity. }
  rewrite Hstep in Hrun. cbn [snd] in Hrun.
  assert (Hgone : KStr "" ∉ _processed_events self2).
  { rewrite Hrun.
    cbn [_processed_events record_call set_processed].
    rewrite elem_of_union, elem_of_singleton, elem_of_difference,
      elem_of_singleton.
    intros [Heq|[_ Hne]].
    - exact (numbered_id_not_empty _ (eq_sym Heq)).
    - exact (Hne eq_refl). }
  assert (Hhandlers2 : _handlers self2 = _handlers client_x).
  { rewrite Hrun. cbn [_handlers record_call set_processed].
    exact Hhandlers. }
  split; [rewrite H1; apply elem_of_union_l, elem_of_singleton; reflexivity|].
  split; [rewrite H1; reflexivity|].
  split; [exact Hgone|]. split.
  - unfold handle.
    change (event_id_of no_id_y) with (@Ret key (KStr "")).
    cbv iota. rewrite bool_decide_eq_false_2 by exact Hgone.
    change (event_type_of no_id_y) with (@Ret key (KStr "y")).
    cbv iota. rewrite Hhandlers2.
    change (_handlers client_x !! KStr "y") with (@None WebhookHandler).
    reflexivity.
  - destruct (handle_dispatch (pop := pop_empty_first) self2 no_id_x
                (KStr "") (KStr "x") noop_handler) as (p & _ & Hhandle).
    + reflexivity.
    + exact Hgone.
    + reflexivity.
    + rewrite Hhandlers2. vm_compute. reflexivity.
    + rewrite Hrun. cbn [_max_processed record_call set_processed].
      rewrite Hmax. reflexivity.
    + eexists. split; [exact Hhandle|]. reflexivity.
Qed.

(** The claim C10 as it stands fails: with the empty string taken first
    by [pop], as in CPython, a client of capacity 10000 that has handled
    an event without id, and then 10000 events with ids of their own, no
    longer has [""] in its processed set; the next event without id is
    refused when its type has no handler, and goes to the handler again
    when it has one. *)
Lemma missing_id_handled_again :
  let self1 := snd (handle (pop := pop_empty_first) client_x no_id_x) in
  let self2 :=
    snd (handle_all (pop := pop_empty_first) self1
           (numbered_events (Z.to_nat 10000))) in
  KStr "" ∈ _processed_events self1
  /\ calls self1 = [("on_x", no_id_x)]
  /\ (KStr "" ∉ _processed_events self2)
  /\ handle (pop := pop_empty_first) self2 no_id_y = (Ret false, self2)
  /\ exists self3,
       handle (pop := pop_empty_first) self2 no_id_x = (Ret true, self3)
       /\ calls self3 = (calls self2 ++ [("on_x", no_id_x)])%list.
Proof.
  intros self1 self2. exact (missing_id_run self1 self2 eq_refl eq_refl).
Qed.

(** The scenario of the specification, from the raw payload: the first
    [process] calls the handler, the second does not. *)
Example process_twice :
  let signature := generate_test_signature client_x 1700000000 evt_1_text in
  let (r1, self1) :=
    process decode_sample client_x 1700000000 evt_1_text signature in
  let (r2, self2) :=
    process decode_sample self1 1700000010 evt_1_text signature in
  r1 = Ret evt_1 /\ r2 = Ret evt_1
  /\ calls self2 = [("on_x", evt_1)]
  /\ is_processed self2 (KStr "evt_1") = true.
Proof. vm_compute. repeat split. Qed.

(** A handler that raises: the event is marked all the same, so that a
    second delivery is not handled. *)
Example failed_handler_is_not_retried :
  let self := on (init "whsec_test" 300) "y" failing_handler in
  let event := JObj [("id", JStr "evt_3"); ("type", JStr "y")] in
  let (r1, self1) := handle self event in
  r1 = Raise (ExHandler "boom")
  /\ handle self1 event = (Ret true, self1).
Proof. vm_compute. repeat split. Qed.

(** * Further properties *)

(** ** Transport: backoff and retries *)

Lemma backoff_delay_eq (E : env) (attempt : Z) (w : world) :
  attempt < 1024 ->
  _calculate_backoff E attempt w
  = (Ret (backoff_delay E attempt (draws w)),
     mkWorld (sent w) (S (draws w)) (slept w)).
Proof.
  intros Hsmall. unfold _calculate_backoff.
  replace (1024 <=? attempt) with false
    by (symmetry; apply Z.leb_gt; exact Hsmall).
  reflexivity.
Qed.

Lemma backoff_overflow (E : env) (attempt : Z) (w : world) :
  1024 <= attempt ->
  _calculate_backoff E attempt w = (Raise ExOverflowError, w).
Proof.
  intros Hbig. unfold _calculate_backoff.
  replace (1024 <=? attempt) with true
    by (symmetry; apply Z.leb_le; exact Hbig).
  reflexivity.
Qed.

Lemma backoff_delay_le_max (E : env) (attempt : Z) (draw : nat) :
  (backoff_delay E attempt draw <= 30)%Q.
Proof. unfold backoff_delay. apply Q.le_min_r. Qed.

Lemma nearest_ge_int (E : env) (n : Z) (x : Q) :
  Z.abs n <= 2 ^ 53 ->
  (inject_Z n <= x)%Q -> (inject_Z n <= nearest E x)%Q.
Proof.
  intros Hn Hle. rewrite <- (nearest_int E n Hn) at 1.
  apply nearest_le, Hle.
Qed.

Lemma nearest_le_int (E : env) (n : Z) (x : Q) :
  Z.abs n <= 2 ^ 53 ->
  (x <= inject_Z n)%Q -> (nearest E x <= inject_Z n)%Q.
Proof.
  intros Hn Hle. rewrite <- (nearest_int E n Hn).
  apply nearest_le, Hle.
Qed.

Lemma power_of_two (attempt : Z) :
  0 <= attempt -> (1 * 2 ^ attempt == inject_Z (2 ^ attempt))%Q.
Proof.
  intros Ha. rewrite Qmult_1_l. symmetry.
  apply (Zpower_Qpower 2 attempt Ha).
Qed.

(** X1: [_calculate_backoff] for an attempt from 0 and a jitter in
    [0, 1).  From the attempt 1024 on it raises [OverflowError], the
    generator untouched.  Below, it returns a delay that is never more
    than 30: from [2 ** attempt] to [2 ** attempt + 1] up to the attempt
    4, and exactly 30 from the attempt 5 on, where the exponential part
    alone is above the maximum. *)
Theorem backoff_bounds (E : env) (attempt : Z) (w : world) :
  0 <= attempt ->
  (0 <= jitter E (draws w))%Q ->
  (jitter E (draws w) < 1)%Q ->
  (1024 <= attempt ->
   _calculate_backoff E attempt w = (Raise ExOverflowError, w))
  /\ (attempt < 1024 ->
      exists d,
        _calculate_backoff E attempt w
        = (Ret d, mkWorld (sent w) (S (draws w)) (slept w))
        /\ (d <= 30)%Q
        /\ (attempt <= 4 ->
            (inject_Z (2 ^ attempt) <= d)%Q
            /\ (d <= inject_Z (2 ^ attempt) + 1)%Q)
        /\ (5 <= attempt -> (d == 30)%Q)).
Proof.
  intros Ha Hj0 Hj1. split; [apply backoff_overflow|].
  intros Hsmall. exists (backoff_delay E attempt (draws w)).
  split; [apply backoff_delay_eq, Hsmall|].
  split; [apply backoff_delay_le_max|].
  unfold backoff_delay.
  set (j := jitter E (draws w)) in *.
  set (delay := nearest E (1 * 2 ^ attempt)%Q).
  pose proof (power_of_two attempt Ha) as Hpow.
  split.
  - intros H4.
    assert (Hp : 1 <= 2 ^ attempt <= 16).
    { split; [pose proof (Z.pow_pos_nonneg 2 attempt ltac:(lia) Ha); lia|].
      change 16 with (2 ^ 4). apply Z.pow_le_mono_r; lia. }
    assert (Hlow : (inject_Z (2 ^ attempt) <= delay)%Q).
    { apply nearest_ge_int; [lia|]. rewrite Hpow. apply Qle_refl. }
    assert (Hhigh : (delay <= inject_Z (2 ^ attempt))%Q).
    { apply nearest_le_int; [lia|]. rewrite Hpow. apply Qle_refl. }
    assert (Hsum_low : (inject_Z (2 ^ attempt) <= nearest E (delay + j))%Q).
    { apply nearest_ge_int; [lia|].
      rewrite <- (Qplus_0_r (inject_Z (2 ^ attempt))).
      apply Qplus_le_compat; assumption. }
    assert (Hsum_high :
              (nearest E (delay + j) <= inject_Z (2 ^ attempt + 1))%Q).
    { apply nearest_le_int; [lia|]. rewrite inject_Z_plus.
      apply Qplus_le_compat; [exact Hhigh|apply Qlt_le_weak, Hj1]. }
    split.
    + apply Q.min_glb; [exact Hsum_low|].
      change 30%Q with (inject_Z 30). rewrite <- Zle_Qle. lia.
    + eapply Qle_trans; [apply Q.le_min_l|].
      rewrite inject_Z_plus in Hsum_high. exact Hsum_high.
  - intros H5.
    assert (Hp : 32 <= 2 ^ attempt).
    { change 32 with (2 ^ 5). apply Z.pow_le_mono_r; lia. }
    assert (Hdelay : (inject_Z 32 <= delay)%Q).
    { apply nearest_ge_int; [simpl; lia|]. rewrite Hpow.
      rewrite <- Zle_Qle. exact Hp. }
    assert (Hsum : (inject_Z 32 <= nearest E (delay + j))%Q).
    { apply nearest_ge_int; [simpl; lia|].
      rewrite <- (Qplus_0_r (inject_Z 32)).
      apply Qplus_le_compat; assumption. }
    apply Q.min_r. eapply Qle_trans; [|exact Hsum]. discriminate.
Qed.

Lemma backoff_bounds_witness :
  (exists d,
     _calculate_backoff always_times_out 2 world0 = (Ret d, mkWorld 0 1 [])
     /\ (4 <= d)%Q /\ (d <= 5)%Q)
  /\ (exists d,
        _calculate_backoff always_times_out 7 world0
        = (Ret d, mkWorld 0 1 [])
        /\ (d == 30)%Q)
  /\ _calculate_backoff always_times_out 1024 world0
     = (Raise ExOverflowError, world0).
Proof.
  destruct (backoff_bounds always_times_out 2 world0)
    as (_ & Hlow); [lia|unfold Qle; simpl; lia|unfold Qlt; simpl; lia|].
  destruct (backoff_bounds always_times_out 7 world0)
    as (_ & Hhigh); [lia|unfold Qle; simpl; lia|unfold Qlt; simpl; lia|].
  destruct (backoff_bounds always_times_out 1024 world0)
    as (Hover & _); [lia|unfold Qle; simpl; lia|unfold Qlt; simpl; lia|].
  destruct (Hlow ltac:(lia)) as (d & Hd & _ & H4 & _).
  destruct (Hhigh ltac:(lia)) as (d' & Hd' & _ & _ & H5).
  split; [|split].
  - exists d. split; [exact Hd|]. exact (H4 ltac:(lia)).
  - exists d'. split; [exact Hd'|]. exact (H5 ltac:(lia)).
  - exact (Hover ltac:(lia)).
Defined.

Lemma range_attempts_from (n : Z) : range n = attempts_from 0 (Z.to_nat n).
Proof.
  unfold range. generalize (Z.to_nat n) as k. intros k.
  change 0 with (Z.of_nat 0) at 1. generalize 0%nat as s.
  induction k as [|k IH]; intros s; simpl; [reflexivity|].
  f_equal. rewrite IH. f_equal. lia.
Qed.

Lemma attempt_once_transient (c : HttpClient) (E : env)
    (last : option OneSubError) (w : world) (e : OneSubError) :
  transient_error c (server E (sent w)) = Some e ->
  attempt_once c E last w
  = (inr (Some e), mkWorld (S (sent w)) (draws w) (slept w)).
Proof.
  unfold attempt_once, session_request, transient_error.
  destruct (server E (sent w)) as [r| |text]; simpl.
  - unfold after_response. destruct (ok r); [|discriminate].
    unfold response_json. destruct (resp_json r); [discriminate|].
    intros [= <-]. reflexivity.
  - intros [= <-]. reflexivity.
  - intros [= <-]. reflexivity.
Qed.

Lemma attempt_once_success (c : HttpClient) (E : env)
    (last : option OneSubError) (w : world) (r : response) (j : json) :
  server E (sent w) = Responds r ->
  ok r = true ->
  resp_json r = Decoded j ->
  attempt_once c E last w
  = (inl (Ret j), mkWorld (S (sent w)) (draws w) (slept w)).
Proof.
  intros Hsrv Hok Hjson. unfold attempt_once, session_request.
  rewrite Hsrv; simpl. unfold after_response, response_json.
  rewrite Hok, Hjson. reflexivity.
Qed.

(** [n] attempts in a row that each end in a transient outcome, all of
    them before the last attempt and below 1024: each is followed by its
    backoff. *)
Lemma request_from_transient (c : HttpClient) (E : env) (n : nat) :
  forall (a : Z) (rest : list Z) (last : option OneSubError) (w : world),
    a + Z.of_nat n <= max_retries c ->
    a + Z.of_nat n <= 1024 ->
    (forall i, (i < n)%nat ->
               is_Some (transient_error c (server E (sent w + i)))) ->
    exists last',
      request_from c E (attempts_from a n ++ rest) last w
      = request_from c E rest last'
          (mkWorld (sent w + n) (draws w + n)
                   (slept w ++ delays E a (draws w) n))
      /\ (n = 0%nat -> last' = last)
      /\ (forall m, n = S m ->
                    last' = transient_error c (server E (sent w + m))).
Proof.
  induction n as [|n IH]; intros a rest last w Hmax Hsmall Hall.
  - exists last. simpl. rewrite !Nat.add_0_r, app_nil_r.
    destruct w; split; [reflexivity|]. split; [reflexivity|discriminate].
  - destruct (Hall 0%nat ltac:(lia)) as [e He].
    rewrite Nat.add_0_r in He.
    cbn [attempts_from app request_from].
    rewrite (attempt_once_transient c E last w e He).
    replace (a <? max_retries c) with true
      by (symmetry; apply Z.ltb_lt; lia).
    rewrite backoff_delay_eq by lia. unfold sleep. cbn [sent draws slept].
    set (w1 := mkWorld (S (sent w)) (S (draws w))
                 (slept w ++ [backoff_delay E a (draws w)])).
    destruct (IH (a + 1) rest (Some e) w1) as (last' & Hreq & Hzero & Hsucc).
    + lia.
    + lia.
    + intros i Hi. unfold w1; cbn [sent].
      replace (S (sent w) + i)%nat with (sent w + S i)%nat by lia.
      apply Hall. lia.
    + exists last'. split; [|split].
      * rewrite Hreq. unfold w1; cbn [sent draws slept delays].
        rewrite <- app_assoc. cbn [app].
        replace (S (sent w) + n)%nat with (sent w + S n)%nat by lia.
        replace (S (draws w) + n)%nat with (draws w + S n)%nat by lia.
        reflexivity.
      * discriminate.
      * intros m [= <-]. destruct n as [|n'].
        -- rewrite (Hzero eq_refl), Nat.add_0_r. symmetry. exact He.
        -- rewrite (Hsucc n' eq_refl). unfold w1; cbn [sent].
           replace (S (sent w) + n')%nat with (sent w + S n')%nat by lia.
           reflexivity.
Qed.

Lemma attempts_from_app (a : Z) (n k : nat) :
  (k <= n)%nat ->
  attempts_from a n
  = (attempts_from a k ++ attempts_from (a + Z.of_nat k) (n - k))%list.
Proof.
  revert a n. induction k as [|k IH]; intros a n Hle; simpl.
  - rewrite Z.add_0_r, Nat.sub_0_r. reflexivity.
  - destruct n as [|n]; [lia|]. simpl. rewrite (IH (a + 1) n) by lia.
    do 3 f_equal. lia.
Qed.

Lemma delays_length (E : env) (n : nat) :
  forall a draw, length (delays E a draw n) = n.
Proof. induction n; intros; simpl; [|rewrite IHn]; reflexivity. Qed.

(** X2: when every attempt ends in a timeout, a network failure or an
    undecodable answer.  With [max_retries] up to 1024, [request] raises
    the error of the last attempt, after [max_retries + 1] requests and
    [max_retries] sleeps: the backoff delays of the attempts 0, 1, ...
    With a larger [max_retries] it never gets there: after 1025 requests
    and 1024 sleeps the backoff of the attempt 1024 raises
    [OverflowError], which leaves [request]. *)
Theorem retries_exhausted (c : HttpClient) (E : env) (w : world) :
  0 <= max_retries c ->
  (forall i, (i <= Z.to_nat (Z.min (max_retries c) 1024))%nat ->
             is_Some (transient_error c (server E (sent w + i)))) ->
  (max_retries c <= 1024 ->
   let m := Z.to_nat (max_retries c) in
   exists e,
     transient_error c (server E (sent w + m)) = Some e
     /\ request c E w
        = (Raise (ExOneSub e),
           mkWorld (sent w + S m) (draws w + m)
                   (slept w ++ delays E 0 (draws w) m))
     /\ length (delays E 0 (draws w) m) = m)
  /\ (1024 < max_retries c ->
      request c E w
      = (Raise ExOverflowError,
         mkWorld (sent w + 1025) (draws w + 1024)
                 (slept w ++ delays E 0 (draws w) 1024))).
Proof.
  intros Hmax Hall. split.
  - intros Hsmall m.
    destruct (Hall m ltac:(lia)) as [e He]. exists e.
    split; [exact He|]. split; [|apply delays_length].
    unfold request. rewrite range_attempts_from.
    rewrite (attempts_from_app 0 _ m) by lia.
    replace (Z.to_nat (max_retries c + 1) - m)%nat with 1%nat by lia.
    cbn [attempts_from].
    destruct (request_from_transient c E m 0 [0 + Z.of_nat m] None w)
      as (last' & Hreq & _ & _).
    + lia.
    + lia.
    + intros i Hi. apply Hall. lia.
    + rewrite Hreq. cbn [request_from].
      rewrite (attempt_once_transient c E last' _ e) by exact He.
      replace (0 + Z.of_nat m <? max_retries c) with false
        by (symmetry; apply Z.ltb_ge; lia).
      cbn [sent draws slept].
      replace (S (sent w + m)) with (sent w + S m)%nat by lia. reflexivity.
  - intros Hbig.
    destruct (Hall 1024%nat ltac:(lia)) as [e He].
    unfold request. rewrite range_attempts_from.
    rewrite (attempts_from_app 0 _ 1024) by lia.
    replace (Z.to_nat (max_retries c + 1) - 1024)%nat
      with (S (Z.to_nat (max_retries c) - 1024)) by lia.
    change (attempts_from (0 + Z.of_nat 1024)
              (S (Z.to_nat (max_retries c) - 1024)))
      with ((0 + Z.of_nat 1024)
            :: attempts_from (0 + Z.of_nat 1024 + 1)
                 (Z.to_nat (max_retries c) - 1024)).
    destruct (request_from_transient c E 1024 0
                ((0 + Z.of_nat 1024)
                 :: attempts_from (0 + Z.of_nat 1024 + 1)
                      (Z.to_nat (max_retries c) - 1024)) None w)
      as (last' & Hreq & _ & _).
    + lia.
    + lia.
    + intros i Hi. apply Hall. lia.
    + rewrite Hreq. cbn [request_from].
      rewrite (attempt_once_transient c E last' _ e) by exact He.
      replace (0 + Z.of_nat 1024 <? max_retries c) with true
        by (symmetry; apply Z.ltb_lt; lia).
      rewrite backoff_overflow by lia.
      cbn [sent draws slept].
      replace (S (sent w + 1024)) with (sent w + 1025)%nat by lia.
      reflexivity.
Qed.

Lemma retries_exhausted_witness :
  exists e,
    transient_error default_client TimesOut = Some e
    /\ request default_client always_times_out world0
       = (Raise (ExOneSub e),
          mkWorld 4 3 (delays always_times_out 0 0 3))
    /\ length (delays always_times_out 0 0 3) = 3%nat.
Proof.
  refine (proj1 (retries_exhausted default_client always_times_out world0
                   _ _) _).
  - simpl. lia.
  - intros i _. eexists. reflexivity.
  - simpl. lia.
Defined.

(** X4: when the first [k] attempts, [k] up to 1024, end in a timeout, a
    network failure or an undecodable answer and the next answer is [ok]
    with a JSON body, [request] returns that body after [k + 1] requests
    and [k] sleeps. *)
Theorem success_after_transient_failures (c : HttpClient) (E : env)
    (w : world) (k : nat) (r : response) (j : json) :
  Z.of_nat k <= max_retries c ->
  (k <= 1024)%nat ->
  (forall i, (i < k)%nat ->
             is_Some (transient_error c (server E (sent w + i)))) ->
  server E (sent w + k) = Responds r ->
  ok r = true ->
  resp_json r = Decoded j ->
  request c E w
  = (Ret j,
     mkWorld (sent w + S k) (draws w + k)
             (slept w ++ delays E 0 (draws w) k)).
Proof.
  intros Hk Hsmall Hall Hsrv Hok Hjson.
  unfold request. rewrite range_attempts_from.
  rewrite (attempts_from_app 0 _ k) by lia.
  replace (Z.to_nat (max_retries c + 1) - k)%nat
    with (S (Z.to_nat (max_retries c) - k)) by lia.
  cbn [attempts_from].
  destruct (request_from_transient c E k 0
              ((0 + Z.of_nat k)
               :: attempts_from (0 + Z.of_nat k + 1)
                    (Z.to_nat (max_retries c) - k)) None w)
    as (last' & Hreq & _ & _).
  - lia.
  - lia.
  - exact Hall.
  - rewrite Hreq. cbn [request_from].
    rewrite (attempt_once_success c E last' _ r j); try assumption.
    cbn [sent draws slept].
    replace (S (sent w + k)) with (sent w + S k)%nat by lia. reflexivity.
Qed.

Lemma success_after_transient_failures_witness :
  request default_client times_out_twice world0
  = (Ret (JObj [("success", JBool true)]),
     mkWorld 3 2 (delays times_out_twice 0 0 2)).
Proof.
  refine (success_after_transient_failures default_client times_out_twice
            world0 2
            (mkResponse 200 success_text
               (Decoded (JObj [("success", JBool true)])))
            (JObj [("success", JBool true)]) _ _ _ _ _ _).
  - simpl. lia.
  - lia.
  - intros [|[|i]] Hi; [eexists; reflexivity|eexists; reflexivity|lia].
  - reflexivity.
  - reflexivity.
  - reflexivity.
Defined.

Lemma attempt_once_world (c : HttpClient) (E : env)
    (last : option OneSubError) (w : world) :
  snd (attempt_once c E last w) = mkWorld (S (sent w)) (draws w) (slept w).
Proof.
  unfold attempt_once, session_request.
  destruct (server E (sent w)) as [r| |text]; simpl; try reflexivity.
  destruct (after_response r) as [[j|]|[]]; reflexivity.
Qed.

Ltac split_counts :=
  repeat match goal with |- _ /\ _ => split end;
  try lia; try reflexivity; try apply Forall_nil_2.

Lemma request_from_counts (c : HttpClient) (E : env) (n : nat) :
  forall (a : Z) (last : option OneSubError) (w : world),
    a + Z.of_nat (S n) = max_retries c + 1 ->
    exists extra,
      let w' := snd (request_from c E (attempts_from a (S n)) last w) in
      sent w' = (sent w + S (length extra))%nat
      /\ (length extra <= n)%nat
      /\ slept w' = (slept w ++ extra)%list
      /\ draws w' = (draws w + length extra)%nat
      /\ Forall (fun d => (d <= 30)%Q) extra.
Proof.
  induction n as [|n IH]; intros a last w Ha.
  - cbn [attempts_from request_from].
    pose proof (attempt_once_world c E last w) as Hw.
    destruct (attempt_once c E last w) as [[res|last'] w1]; simpl in Hw;
      subst w1; exists []; cbn [length];
      [|replace (a <? max_retries c) with false
          by (symmetry; apply Z.ltb_ge; lia); destruct last'];
      cbn [snd sent draws slept]; rewrite app_nil_r, !Nat.add_0_r;
      split_counts.
  - change (attempts_from a (S (S n)))
      with (a :: attempts_from (a + 1) (S n)).
    cbn [request_from].
    pose proof (attempt_once_world c E last w) as Hw.
    destruct (attempt_once c E last w) as [[res|last'] w1]; simpl in Hw;
      subst w1.
    + exists []; cbn [length snd sent draws slept].
      rewrite app_nil_r, !Nat.add_0_r. split_counts.
    + replace (a <? max_retries c) with true
        by (symmetry; apply Z.ltb_lt; lia).
      destruct (Z_lt_le_dec a 1024) as [Hsmall|Hbig].
      * rewrite backoff_delay_eq by exact Hsmall.
        unfold sleep. cbn [sent draws slept].
        destruct (IH (a + 1) last'
                    (mkWorld (S (sent w)) (S (draws w))
                       (slept w ++ [backoff_delay E a (draws w)])))
          as (extra & Hsent & Hlen & Hslept & Hdraws & Hall); [lia|].
        cbn [sent draws slept] in *.
        exists (backoff_delay E a (draws w) :: extra). cbn [length].
        rewrite Hsent, Hslept, Hdraws, <- app_assoc.
        split_counts.
        constructor; [apply backoff_delay_le_max|exact Hall].
      * rewrite backoff_overflow by exact Hbig.
        exists []; cbn [length snd sent draws slept].
        rewrite app_nil_r, !Nat.add_0_r. split_counts.
Qed.

(** X3: how many requests [request] sends.  With [max_retries >= 0], on
    every server, at least one and at most [max_retries + 1], and it
    sleeps once between two requests and never else: one sleep less than
    requests, each of at most 30 seconds, each with its own jitter.  With a
    negative [max_retries] the loop has no attempt: nothing is sent and
    the network error of the end of [request] is raised. *)
Theorem request_counts (c : HttpClient) (E : env) (w : world) :
  (0 <= max_retries c ->
   exists extra,
     let w' := snd (request c E w) in
     sent w' = (sent w + S (length extra))%nat
     /\ (length extra <= Z.to_nat (max_retries c))%nat
     /\ slept w' = (slept w ++ extra)%list
     /\ draws w' = (draws w + length extra)%nat
     /\ Forall (fun d => (d <= 30)%Q) extra)
  /\ (max_retries c < 0 ->
      request c E w = (raise_error retries_failed, w)).
Proof.
  split.
  - intros Hmax. unfold request. rewrite range_attempts_from.
    replace (Z.to_nat (max_retries c + 1))
      with (S (Z.to_nat (max_retries c))) by lia.
    apply request_from_counts. lia.
  - intros Hneg. unfold request, range.
    replace (Z.to_nat (max_retries c + 1)) with 0%nat by lia.
    reflexivity.
Qed.

Lemma request_counts_witness :
  (exists extra,
     let w' := snd (request default_client not_found_server world0) in
     sent w' = S (length extra)
     /\ (length extra <= 3)%nat
     /\ slept w' = extra
     /\ draws w' = length extra
     /\ Forall (fun d => (d <= 30)%Q) extra)
  /\ request no_attempt_client always_times_out world0
     = (raise_error retries_failed, world0).
Proof.
  split.
  - refine (proj1 (request_counts default_client not_found_server world0) _).
    simpl. lia.
  - refine (proj2 (request_counts no_attempt_client always_times_out world0)
              _).
    simpl. lia.
Defined.

(** ** Error taxonomy: what [parse_api_error] raises *)

(** X5: [parse_api_error] never returns.  The typed error it raises
    carries the status code it was given, and a body that is not a [dict]
    makes it raise [AttributeError] whatever the status. *)
Theorem parse_api_error_never_returns (status : Z) (body : json) :
  (forall x, parse_api_error status body <> Ret x)
  /\ (forall e, parse_api_error status body = Raise (ExOneSub e) ->
                status_code e = status)
  /\ ((forall fields, body <> JObj fields) ->
      parse_api_error status body = Raise ExAttributeError).
Proof.
  split; [|split].
  - intros x.
    destruct (parse_api_error_raises status body) as [[e ->] | [-> | ->]];
      discriminate.
  - destruct body as [| b | n | s | items | fields]; try discriminate.
    unfold parse_api_error; simpl.
    destruct (truthy (get_default fields "message" JNull)); simpl;
      (destruct (status =? 401) eqn:H401;
         [apply Z.eqb_eq in H401; intros e [= <-]; symmetry; exact H401|]);
      (destruct (status =? 404) eqn:H404;
         [apply Z.eqb_eq in H404; intros e [= <-]; symmetry; exact H404|]);
      (destruct (status =? 429) eqn:H429;
         [apply Z.eqb_eq in H429; intros e [= <-]; symmetry; exact H429|]);
      (destruct (status =? 400) eqn:H400;
         [apply Z.eqb_eq in H400|intros e [= <-]; reflexivity]);
      (destruct (is_insufficient_credits _); simpl;
         [|intros e [= <-]; symmetry; exact H400]);
      unfold InsufficientCreditsError;
      (destruct (as_int (get_default fields "required" (JInt 0)));
         [|discriminate]);
      (destruct (as_int (get_default fields "current_balance" (JInt 0)));
         [|discriminate]);
      simpl; intros e [= <-]; symmetry; exact H400.
  - intros Hnot. destruct body; try reflexivity.
    exfalso. eapply Hnot. reflexivity.
Qed.

(** ** Signature verifier: what is accepted *)

Lemma compare_digest_true (a b : string) :
  compare_digest a b = Ret true -> a = b.
Proof.
  unfold compare_digest. destruct (is_ascii a && is_ascii b); [|discriminate].
  intros [= H]. apply String.eqb_eq. exact H.
Qed.

(** X6: [verify_signature] returns [True] exactly for the headers that
    have a [t] and a [v1], whose [t] reads as an integer no more than the
    tolerance away from the clock, and whose [v1] is the HMAC of the text
    of [t], a dot and the payload under the secret. *)
Theorem verify_signature_accepts_iff {I : IntOfStr} (now : Z)
    (payload header secret : string) (tolerance : Z) :
  verify_signature now payload header secret tolerance = Ret true
  <-> exists t ts,
        parse_signature_header header
        = (Some t, Some (create_hmac_signature (t ++ "." ++ payload) secret))
        /\ py_int t = Some ts
        /\ Z.abs (now - ts) <= tolerance.
Proof.
  unfold verify_signature. split.
  - destruct (parse_signature_header header) as [[t|] [sg|]];
      try discriminate.
    destruct (String.eqb t "" || String.eqb sg ""); [discriminate|].
    destruct (py_int t) as [ts|] eqn:Hint; [|discriminate].
    destruct (Z.abs (now - ts) >? tolerance) eqn:Htol; [discriminate|].
    intros H. apply compare_digest_true in H. subst sg.
    exists t, ts. split; [reflexivity|]. split; [exact Hint|].
    rewrite Z.gtb_ltb in Htol. apply Z.ltb_ge in Htol. exact Htol.
  - intros (t & ts & -> & Hint & Htol).
    assert (Ht : String.eqb t "" = false).
    { apply String.eqb_neq. intros ->. rewrite py_int_empty in Hint.
      discriminate. }
    rewrite Ht, eqb_empty_false by apply create_hmac_signature_nonempty.
    cbn [orb]. rewrite Hint.
    replace (Z.abs (now - ts) >? tolerance) with false
      by (symmetry; rewrite Z.gtb_ltb; apply Z.ltb_ge; exact Htol).
    apply compare_digest_same_hex, create_hmac_signature_is_hex.
Qed.

(** X7: [parse_signature_header] reads back the two fields of the header
    [generate_signature] makes: the decimal text of the time and the HMAC,
    which is 64 hexadecimal digits. *)
Theorem parse_generated_header (now : Z) (payload secret : string) :
  let sig := create_hmac_signature (py_str now ++ "." ++ payload) secret in
  parse_signature_header (generate_signature now payload secret)
  = (Some (py_str now), Some sig)
  /\ String.length sig = 64%nat
  /\ string_forall is_hex sig = true.
Proof.
  intros sig. split; [|split].
  - unfold generate_signature. apply parse_signature_header_two_fields.
    + apply py_str_no_comma.
    + eapply string_forall_impl;
        [apply is_hex_not_comma | apply create_hmac_signature_is_hex].
  - unfold sig, create_hmac_signature, hmac_sha256.
    match goal with |- String.length (hex_of_bytes (Sha256.digest ?m)) = _ =>
      generalize m end.
    intros m. unfold Sha256.digest. generalize (Sha256.sha256 m) as st.
    intros st. reflexivity.
  - apply create_hmac_signature_is_hex.
Qed.

Lemma split_on_nonempty (sep : ascii) (s : string) : split_on sep s <> [].
Proof.
  destruct s as [|c rest]; simpl; [discriminate|].
  destruct (Ascii.eqb c sep); [discriminate|].
  destruct (split_on sep rest); discriminate.
Qed.

Lemma split_on_append (sep : ascii) (a b : string) :
  split_on sep (a ++ String sep b) = (split_on sep a ++ split_on sep b)%list.
Proof.
  induction a as [|c rest IH]; simpl.
  - rewrite Ascii.eqb_refl. reflexivity.
  - destruct (Ascii.eqb c sep); [rewrite IH; reflexivity|].
    rewrite IH.
    pose proof (split_on_nonempty sep rest) as Hne.
    destruct (split_on sep rest); [contradiction|reflexivity].
Qed.

(** X8: [parse_signature_header] reads the parts between commas from left
    to right: the fields of [a + "," + b] are those of [a] overridden by
    those of [b].  So a later [t] replaces an earlier one, and the two
    fields are found in either order. *)
Theorem parse_signature_header_append (a b : string) :
  parse_signature_header (a ++ "," ++ b)
  = fold_left header_part (split_on "," b) (parse_signature_header a)
  /\ (forall v,
        string_forall (fun c => negb (Ascii.eqb c ",")) v = true ->
        parse_signature_header (a ++ ",t=" ++ v)
        = (Some v, snd (parse_signature_header a))
        /\ parse_signature_header (a ++ ",v1=" ++ v)
           = (fst (parse_signature_header a), Some v)).
Proof.
  assert (Happ : forall b', parse_signature_header (a ++ "," ++ b')
            = fold_left header_part (split_on "," b')
                (parse_signature_header a)).
  { intros b'. unfold parse_signature_header.
    change (a ++ "," ++ b')%string with (a ++ String "," b')%string.
    rewrite split_on_append, fold_left_app. reflexivity. }
  split; [apply Happ|].
  intros v Hv. split.
  - change (a ++ ",t=" ++ v)%string with (a ++ "," ++ ("t=" ++ v))%string.
    rewrite Happ, split_on_without by (simpl; exact Hv). reflexivity.
  - change (a ++ ",v1=" ++ v)%string with (a ++ "," ++ ("v1=" ++ v))%string.
    rewrite Happ, split_on_without by (simpl; exact Hv). reflexivity.
Qed.

(** ** Webhook dispatcher: registration, redelivery, eviction *)

Section DispatcherFurther.

Context {pop : SetPop} {I : IntOfStr}.

Variable json_loads : string -> pyres json.

Implicit Types (self : WebhooksClient) (event : json) (k t : key).

(** X9: [WebhooksClient.verify] accepts the signature that
    [generate_test_signature] made for a payload exactly when the payload
    is not empty and the clock is within the tolerance: the empty payload
    is refused before its signature is looked at. *)
Theorem client_verify_roundtrip self (now signed_at : Z) (payload : string) :
  verify self now payload (generate_test_signature self signed_at payload)
  = Ret (negb (String.eqb payload "")
         && negb (Z.abs (now - signed_at) >? tolerance_seconds self)).
Proof.
  destruct (String.eqb payload "") eqn:Hp.
  - unfold verify. rewrite Hp. reflexivity.
  - apply String.eqb_neq in Hp.
    rewrite client_verify_generated by exact Hp. reflexivity.
Qed.

(** X10: [handle] marks the event before it calls the handler.  When the
    handler raises, the exception leaves [handle], the id is in the
    processed set all the same, and a second delivery of the event returns
    [True] without a call. *)
Theorem handler_exception_marks_processed self event k t h (e : exn) :
  event_id_of event = Ret k ->
  k ∉ _processed_events self ->
  event_type_of event = Ret t ->
  _handlers self !! t = Some h ->
  handler_body h event = Raise e ->
  0 < _max_processed self ->
  exists self1,
    handle self event = (Raise e, self1)
    /\ is_processed self1 k = true
    /\ calls self1 = (calls self ++ [(handler_name h, event)])%list
    /\ handle self1 event = (Ret true, self1).
Proof.
  intros Hid Hnew Htype Hh Hbody Hmax.
  destruct (handle_dispatch self event k t h Hid Hnew Htype Hh Hmax)
    as (p & Hin & Hhandle).
  rewrite Hbody in Hhandle.
  eexists. split; [exact Hhandle|].
  split; [apply bool_decide_eq_true_2; exact Hin|].
  split; [reflexivity|].
  apply handle_processed with k; [exact Hid|exact Hin].
Qed.

(** X11: after [on(t, h)] a new event of type [t] goes to [h] and to no
    other handler, whether or not [t] had a handler before; the processed
    set and the handlers of the other types are as they were. *)
Theorem on_then_handle self (name : string) (h : WebhookHandler) event k :
  event_id_of event = Ret k ->
  k ∉ _processed_events self ->
  event_type_of event = Ret (KStr name) ->
  0 < _max_processed self ->
  let self' := on self name h in
  _processed_events self' = _processed_events self
  /\ (forall t, t <> KStr name -> _handlers self' !! t = _handlers self !! t)
  /\ exists self1,
       handle self' event
       = (match handler_body h event with
          | Ret _ => Ret true
          | Raise e => Raise e
          end, self1)
       /\ calls self1 = (calls self ++ [(handler_name h, event)])%list.
Proof.
  intros Hid Hnew Htype Hmax self'.
  split; [reflexivity|]. split.
  - intros t Hne. unfold self', on, set_handlers; cbn [_handlers].
    apply lookup_insert_ne. congruence.
  - destruct (handle_dispatch self' event k (KStr name) h) as (p & _ & ->);
      try assumption.
    + unfold self', on, set_handlers; cbn [_handlers].
      apply lookup_insert_eq.
    + eexists. split; reflexivity.
Qed.

(** X12: after [off(t)] an event of type [t] is refused: [handle]
    returns [False], calls nothing and does not mark the id.  [off] of a
    type without handler changes nothing. *)
Theorem off_then_handle self (name : string) event k :
  event_id_of event = Ret k ->
  k ∉ _processed_events self ->
  event_type_of event = Ret (KStr name) ->
  handle (off self name) event = (Ret false, off self name)
  /\ (_handlers self !! KStr name = None -> off self name = self).
Proof.
  intros Hid Hnew Htype. split.
  - unfold handle. rewrite Hid, Htype.
    rewrite bool_decide_eq_false_2 by exact Hnew.
    unfold off, set_handlers; cbn [_handlers].
    rewrite lookup_delete_eq. reflexivity.
  - intros Hnone. unfold off, set_handlers.
    rewrite delete_id by exact Hnone. destruct self; reflexivity.
Qed.

(** X13: [clear_processed] forgets every id: nothing is processed after
    it, and an event that was handled before is handled again, by a second
    call of its handler. *)
Theorem clear_processed_allows_redelivery self event k t h :
  event_id_of event = Ret k ->
  event_type_of event = Ret t ->
  _handlers self !! t = Some h ->
  0 < _max_processed self ->
  (forall k', is_processed (clear_processed self) k' = false)
  /\ exists self1,
       handle (clear_processed self) event
       = (match handler_body h event with
          | Ret _ => Ret true
          | Raise e => Raise e
          end, self1)
       /\ calls self1 = (calls self ++ [(handler_name h, event)])%list
       /\ is_processed self1 k = true.
Proof.
  intros Hid Htype Hh Hmax. split.
  - intros k'. apply bool_decide_eq_false_2.
    unfold clear_processed, set_processed; cbn [_processed_events].
    apply not_elem_of_empty.
  - destruct (handle_dispatch (clear_processed self) event k t h)
      as (p & Hin & ->); try assumption.
    + unfold clear_processed, set_processed; cbn [_processed_events].
      apply not_elem_of_empty.
    + eexists. split; [reflexivity|]. split; [reflexivity|].
      apply bool_decide_eq_true_2. exact Hin.
Qed.

(** X14: on a full processed set, handling a new event puts its id in
    the place of one member: that member is no longer processed, so that
    its event would be handled again; every other member stays, and the
    set keeps its size. *)
Theorem handle_on_full_set_evicts self event k t h :
  event_id_of event = Ret k ->
  k ∉ _processed_events self ->
  event_type_of event = Ret t ->
  _handlers self !! t = Some h ->
  0 < _max_processed self ->
  _max_processed self <= Z.of_nat (size (_processed_events self)) ->
  exists victim,
    let self1 := snd (handle self event) in
    victim ∈ _processed_events self
    /\ _processed_events self1
       = {[k]} ∪ (_processed_events self ∖ {[victim]})
    /\ is_processed self1 victim = false
    /\ is_processed self1 k = true
    /\ (forall k', k' ∈ _processed_events self -> k' <> victim ->
                   is_processed self1 k' = true)
    /\ size (_processed_events self1) = size (_processed_events self).
Proof.
  intros Hid Hnew Htype Hh Hmax Hfull.
  unfold handle. rewrite Hid, Htype.
  rewrite bool_decide_eq_false_2 by exact Hnew.
  change (_handlers self !! t) with (_handlers self !! t). rewrite Hh.
  unfold _mark_processed.
  replace (Z.of_nat (size (_processed_events self)) >=? _max_processed self)
    with true by (symmetry; rewrite Z.geb_leb; apply Z.leb_le; lia).
  destruct (set_pop (_processed_events self)) as [victim|] eqn:Hpop.
  - apply set_pop_elem in Hpop. exists victim.
    assert (Hne : victim <> k) by (intros ->; contradiction).
    assert (Hset : forall st, _processed_events (snd
               (match handler_body h event with
                | Ret _ => (Ret true, st)
                | Raise e => (Raise e, st)
                end : pyres bool * WebhooksClient)) = _processed_events st).
    { intros st. destruct (handler_body h event); reflexivity. }
    cbv zeta. unfold is_processed. rewrite Hset. clear Hset.
    unfold record_call, set_processed; cbn [_processed_events].
    split; [exact Hpop|]. split; [reflexivity|].
    split.
    { apply bool_decide_eq_false_2.
      rewrite elem_of_union, elem_of_singleton, elem_of_difference,
        elem_of_singleton.
      intros [Heq | [_ Hn]]; [exact (Hne Heq)|exact (Hn eq_refl)]. }
    split; [apply bool_decide_eq_true_2; set_solver|].
    split; [intros k' Hk' Hk'ne; apply bool_decide_eq_true_2; set_solver|].
    rewrite size_union
      by (apply disjoint_singleton_l; rewrite elem_of_difference;
          intros [Hin _]; exact (Hnew Hin)).
    rewrite size_singleton, size_difference by set_solver.
    rewrite size_singleton.
    assert (size (_processed_events self) <> 0)%nat
      by (apply size_non_empty_iff; set_solver).
    lia.
  - apply set_pop_empty in Hpop. rewrite Hpop, size_empty in Hfull. lia.
Qed.

(** X15: [handle] returns [True] only with the id of the event in the
    processed set, and [False] only with the client as it was.  In every
    case the registry, the secret, the tolerance and the capacity are as
    they were. *)
Theorem handle_result_and_frame self event :
  let (r, self1) := handle self event in
  (forall k, event_id_of event = Ret k -> r = Ret true ->
             is_processed self1 k = true)
  /\ (r = Ret false -> self1 = self)
  /\ _handlers self1 = _handlers self
  /\ secret self1 = secret self
  /\ tolerance_seconds self1 = tolerance_seconds self
  /\ _max_processed self1 = _max_processed self.
Proof.
  unfold handle.
  destruct (event_id_of event) as [k|e] eqn:Hid;
    [|repeat split; discriminate].
  destruct (bool_decide (k ∈ _processed_events self)) eqn:Hin.
  - repeat split; try discriminate.
    intros k' [= <-] _. exact Hin.
  - destruct (event_type_of event) as [t|e];
      [|repeat split; discriminate].
    destruct (_handlers self !! t) as [h|];
      [|repeat split; discriminate].
    destruct (mark_processed_cases self k) as [(p & -> & Hp & _) | [-> _]];
      [|repeat split; discriminate].
    destruct (handler_body h event) as [[]|e];
      repeat split; try discriminate.
    intros k' [= <-] _. apply bool_decide_eq_true_2. exact Hp.
Qed.

(** X16: [process] touches nothing unless the signature verifies and the
    payload is JSON: when [verify] does not return [True], or
    [json.loads] raises on the payload, it raises and the client is as it
    was, no handler called. *)
Theorem process_rejects_without_effect self (now : Z)
    (payload signature : string) :
  verify self now payload signature <> Ret true
  \/ (exists e, json_loads payload = Raise e) ->
  exists e, process json_loads self now payload signature = (Raise e, self).
Proof.
  intros Hbad. unfold process, construct_event, verify_or_raise.
  destruct (verify self now payload signature) as [[|]|e]; simpl.
  - destruct Hbad as [Hbad|[e Hbad]]; [contradiction|].
    rewrite Hbad. destruct e; eexists; reflexivity.
  - eexists; reflexivity.
  - eexists; reflexivity.
Qed.

(** X17: for a verified payload whose event has no handler, [process]
    returns the event as if it had been handled: the client is as it was,
    the id is not marked, and nothing tells the caller that no handler
    ran. *)
Theorem process_without_handler self (now : Z) (payload signature : string)
    event k t :
  verify self now payload signature = Ret true ->
  json_loads payload = Ret event ->
  event_id_of event = Ret k ->
  k ∉ _processed_events self ->
  event_type_of event = Ret t ->
  _handlers self !! t = None ->
  process json_loads self now payload signature = (Ret event, self)
  /\ is_processed self k = false.
Proof.
  intros Hv Hj Hid Hnew Htype Hnone.
  unfold process, construct_event, verify_or_raise.
  rewrite Hv; simpl. rewrite Hj.
  unfold handle. rewrite Hid, Htype.
  rewrite bool_decide_eq_false_2 by exact Hnew.
  change (_handlers self !! t) with (_handlers self !! t). rewrite Hnone.
  split; [reflexivity|]. apply bool_decide_eq_false_2. exact Hnew.
Qed.

(** X18: an event that is not a [dict] makes [handle] raise
    [AttributeError], and an id or a type that is a [list] or a [dict]
    makes it raise [TypeError]; the client is as it was. *)
Theorem handle_ill_formed_event self event :
  ((forall fields, event <> JObj fields) ->
   handle self event = (Raise ExAttributeError, self))
  /\ (forall fields v,
        event = JObj fields ->
        get_default fields "id" (JStr "") = v ->
        hash_key v = Raise ExTypeError ->
        handle self event = (Raise ExTypeError, self))
  /\ (forall fields k v,
        event = JObj fields ->
        event_id_of event = Ret k ->
        k ∉ _processed_events self ->
        get_default fields "type" (JStr "") = v ->
        hash_key v = Raise ExTypeError ->
        handle self event = (Raise ExTypeError, self)).
Proof.
  split; [|split].
  - intros Hnot. destruct event; try reflexivity.
    exfalso. eapply Hnot. reflexivity.
  - intros fields v -> Hv Hhash. unfold handle, event_id_of; simpl.
    rewrite Hv, Hhash. reflexivity.
  - intros fields k v -> Hid Hnew Hv Hhash. unfold handle.
    rewrite Hid. rewrite bool_decide_eq_false_2 by exact Hnew.
    unfold event_type_of; simpl. rewrite Hv, Hhash. reflexivity.
Qed.

End DispatcherFurther.

Lemma handler_exception_marks_processed_witness :
  exists self1,
    handle client_y evt_3 = (Raise (ExHandler "boom"), self1)
    /\ is_processed self1 (KStr "evt_3") = true
    /\ calls self1 = [("on_y", evt_3)]
    /\ handle self1 evt_3 = (Ret true, self1).
Proof.
  refine (handler_exception_marks_processed client_y evt_3 (KStr "evt_3")
            (KStr "y") failing_handler (ExHandler "boom") _ _ _ _ _ _).
  - reflexivity.
  - by_decision.
  - reflexivity.
  - vm_compute. reflexivity.
  - reflexivity.
  - reflexivity.
Defined.

Lemma on_then_handle_witness :
  let self' := on client_bare "x" noop_handler in
  _processed_events self' = _processed_events client_bare
  /\ (forall t, t <> KStr "x" ->
                _handlers self' !! t = _handlers client_bare !! t)
  /\ exists self1,
       handle self' evt_1 = (Ret true, self1)
       /\ calls self1 = [("on_x", evt_1)].
Proof.
  refine (on_then_handle client_bare "x" noop_handler evt_1 (KStr "evt_1")
            _ _ _ _).
  - reflexivity.
  - by_decision.
  - reflexivity.
  - reflexivity.
Defined.

Lemma off_then_handle_witness :
  handle (off client_x "x") evt_1 = (Ret false, off client_x "x")
  /\ off client_bare "x" = client_bare.
Proof.
  split.
  - refine (proj1 (off_then_handle client_x "x" evt_1 (KStr "evt_1")
                     _ _ _)).
    + reflexivity.
    + by_decision.
    + reflexivity.
  - refine (proj2 (off_then_handle client_bare "x" evt_1 (KStr "evt_1")
                     _ _ _) _).
    + reflexivity.
    + by_decision.
    + reflexivity.
    + vm_compute. reflexivity.
Defined.

Lemma clear_processed_allows_redelivery_witness :
  let self := snd (handle client_x evt_1) in
  (forall k', is_processed (clear_processed self) k' = false)
  /\ exists self1,
       handle (clear_processed self) evt_1 = (Ret true, self1)
       /\ calls self1 = [("on_x", evt_1); ("on_x", evt_1)]
       /\ is_processed self1 (KStr "evt_1") = true.
Proof.
  refine (clear_processed_allows_redelivery (snd (handle client_x evt_1))
            evt_1 (KStr "evt_1") (KStr "x") noop_handler _ _ _ _).
  - reflexivity.
  - reflexivity.
  - vm_compute. reflexivity.
  - reflexivity.
Defined.

Lemma evt_1_not_in_full : KStr "evt_1" ∉ _processed_events client_full.
Proof.
  unfold client_full, set_processed; cbn [_processed_events].
  rewrite elem_of_list_to_set. unfold full_ids.
  rewrite list_elem_of_In, in_map_iff.
  intros (n & Heq & _). discriminate.
Qed.

Lemma handle_on_full_set_evicts_witness :
  exists victim,
    let self1 := snd (handle client_full evt_1) in
    victim ∈ _processed_events client_full
    /\ _processed_events self1
       = {[KStr "evt_1"]} ∪ (_processed_events client_full ∖ {[victim]})
    /\ is_processed self1 victim = false
    /\ is_processed self1 (KStr "evt_1") = true
    /\ (forall k', k' ∈ _processed_events client_full -> k' <> victim ->
                   is_processed self1 k' = true)
    /\ size (_processed_events self1) = size (_processed_events client_full).
Proof.
  refine (handle_on_full_set_evicts client_full evt_1 (KStr "evt_1")
            (KStr "x") noop_handler _ _ _ _ _ _).
  - reflexivity.
  - exact evt_1_not_in_full.
  - reflexivity.
  - reflexivity.
  - simpl. lia.
  - rewrite full_ids_size. simpl. lia.
Defined.

Lemma process_rejects_without_effect_witness :
  exists e,
    process decode_sample client_x 1700000000 "not json" "t=1700000000,v1=00"
    = (Raise e, client_x).
Proof.
  refine (process_rejects_without_effect decode_sample client_x 1700000000
            "not json" "t=1700000000,v1=00" _).
  right. eexists. reflexivity.
Defined.

Lemma process_without_handler_witness :
  process decode_sample client_bare 1700000000 evt_1_text
    (generate_test_signature client_bare 1700000000 evt_1_text)
  = (Ret evt_1, client_bare)
  /\ is_processed client_bare (KStr "evt_1") = false.
Proof.
  refine (process_without_handler decode_sample client_bare 1700000000
            evt_1_text
            (generate_test_signature client_bare 1700000000 evt_1_text)
            evt_1 (KStr "evt_1") (KStr "x") _ _ _ _ _ _).
  - rewrite client_verify_generated by discriminate. reflexivity.
  - reflexivity.
  - reflexivity.
  - by_decision.
  - reflexivity.
  - vm_compute. reflexivity.
Defined.

(** ** Normalisation: [hash_email] and the link codes *)

Lemma string_forall_app (p : ascii -> bool) (a b : string) :
  string_forall p (a ++ b) = string_forall p a && string_forall p b.
Proof.
  induction a as [|c rest IH]; simpl; [reflexivity|].
  rewrite IH, andb_assoc. reflexivity.
Qed.

Lemma string_map_app (f : ascii -> ascii) (a b : string) :
  string_map f (a ++ b) = (string_map f a ++ string_map f b)%string.
Proof. induction a as [|c rest IH]; simpl; [|rewrite IH]; reflexivity. Qed.

Lemma string_map_id_on (f : ascii -> ascii) (p : ascii -> bool) (s : string) :
  (forall c, p c = true -> f c = c) ->
  string_forall p s = true -> string_map f s = s.
Proof.
  intros Hf. induction s as [|c rest IH]; simpl; [reflexivity|].
  intros H. apply andb_true_iff in H as [Hc Hrest].
  rewrite (Hf c Hc), (IH Hrest). reflexivity.
Qed.

Lemma string_map_length (f : ascii -> ascii) (s : string) :
  String.length (string_map f s) = String.length s.
Proof. induction s as [|c rest IH]; simpl; [|rewrite IH]; reflexivity. Qed.

Lemma string_forall_map (p : ascii -> bool) (f : ascii -> ascii) (s : string) :
  string_forall p (string_map f s) = string_forall (fun c => p (f c)) s.
Proof. induction s as [|c rest IH]; simpl; [|rewrite IH]; reflexivity. Qed.

Lemma string_forall_ext (p q : ascii -> bool) (s : string) :
  (forall c, p c = q c) -> string_forall p s = string_forall q s.
Proof.
  intros H. induction s as [|c rest IH]; simpl; [|rewrite H, IH]; reflexivity.
Qed.

Lemma is_space_ascii (c : ascii) :
  is_space c = true -> (N_of_ascii c <? 128)%N = true.
Proof. by_char_cases c. Qed.

Lemma ascii_lower_space (c : ascii) : is_space c = true -> ascii_lower c = c.
Proof. by_char_cases c. Qed.

Lemma ascii_upper_is_space (c : ascii) : is_space (ascii_upper c) = is_space c.
Proof. destruct c as [[] [] [] [] [] [] [] []]; reflexivity. Qed.

Lemma ascii_upper_ascii (c : ascii) :
  (N_of_ascii (ascii_upper c) <? 128)%N = (N_of_ascii c <? 128)%N.
Proof. destruct c as [[] [] [] [] [] [] [] []]; reflexivity. Qed.

Lemma ascii_lower_upper (c : ascii) :
  ascii_lower (ascii_upper c) = ascii_lower c.
Proof. destruct c as [[] [] [] [] [] [] [] []]; reflexivity. Qed.

Lemma is_ascii_app (a b : string) :
  is_ascii (a ++ b) = is_ascii a && is_ascii b.
Proof. apply string_forall_app. Qed.

Lemma is_ascii_upper (s : string) :
  is_ascii (string_map ascii_upper s) = is_ascii s.
Proof.
  unfold is_ascii. rewrite string_forall_map.
  apply string_forall_ext. intros c. apply ascii_upper_ascii.
Qed.

Lemma spaces_ascii (s : string) :
  string_forall is_space s = true -> is_ascii s = true.
Proof. apply string_forall_impl. exact is_space_ascii. Qed.

Lemma lstrip_spaces (pre s : string) :
  string_forall is_space pre = true -> lstrip (pre ++ s) = lstrip s.
Proof.
  induction pre as [|c rest IH]; simpl; [reflexivity|].
  intros H. apply andb_true_iff in H as [Hc Hrest].
  rewrite Hc. apply IH, Hrest.
Qed.

Lemma rstrip_all_spaces (s : string) :
  string_forall is_space s = true -> rstrip s = "".
Proof.
  induction s as [|c rest IH]; simpl; [reflexivity|].
  intros H. apply andb_true_iff in H as [Hc Hrest].
  rewrite (IH Hrest), Hc. reflexivity.
Qed.

Lemma rstrip_spaces (s post : string) :
  string_forall is_space post = true -> rstrip (s ++ post) = rstrip s.
Proof.
  intros Hpost. induction s as [|c rest IH]; simpl.
  - apply rstrip_all_spaces, Hpost.
  - rewrite IH. reflexivity.
Qed.

Lemma lstrip_all_spaces (s : string) :
  string_forall is_space s = true -> lstrip s = "".
Proof.
  induction s as [|c rest IH]; simpl; [reflexivity|].
  intros H. apply andb_true_iff in H as [Hc Hrest].
  rewrite Hc. apply IH, Hrest.
Qed.

Lemma lstrip_app_spaces (s post : string) :
  string_forall is_space post = true ->
  rstrip (lstrip (s ++ post)) = rstrip (lstrip s).
Proof.
  intros Hpost. induction s as [|c rest IH].
  - change ("" ++ post)%string with post.
    rewrite (lstrip_all_spaces post Hpost). reflexivity.
  - change (String c rest ++ post)%string with (String c (rest ++ post)).
    cbn [lstrip]. destruct (is_space c); [exact IH|].
    change (String c (rest ++ post)) with (String c rest ++ post)%string.
    apply rstrip_spaces, Hpost.
Qed.

Lemma strip_padding (pre s post : string) :
  string_forall is_space pre = true ->
  string_forall is_space post = true ->
  strip (pre ++ s ++ post) = strip s.
Proof.
  intros Hpre Hpost. unfold strip.
  rewrite lstrip_spaces by exact Hpre.
  apply lstrip_app_spaces, Hpost.
Qed.

Lemma digest_length (msg : list Z) : length (Sha256.digest msg) = 32%nat.
Proof.
  unfold Sha256.digest. generalize (Sha256.sha256 msg) as st. intros st.
  reflexivity.
Qed.

Lemma hex_of_bytes_length (bytes : list Z) :
  String.length (hex_of_bytes bytes) = (2 * length bytes)%nat.
Proof.
  induction bytes as [|b rest IH]; simpl; [reflexivity|].
  rewrite IH. lia.
Qed.

Section Normalisation.

Context {M : StrMethods}.

(** X19: [hash_email] returns 64 hexadecimal digits, and on ASCII
    addresses it does not tell apart two spellings that differ in the case
    of their letters or in whitespace around them. *)
Theorem hash_email_normalizes (a b pre post : string) :
  is_ascii a = true ->
  is_ascii b = true ->
  string_forall is_space pre = true ->
  string_forall is_space post = true ->
  string_map ascii_lower a = string_map ascii_lower b ->
  hash_email (pre ++ a ++ post) = hash_email b
  /\ hash_email (str_upper a) = hash_email a
  /\ String.length (hash_email a) = 64%nat
  /\ string_forall is_hex (hash_email a) = true.
Proof.
  intros Ha Hb Hpre Hpost Hsame. unfold hash_email.
  assert (Hstrip : forall s, is_ascii s = true ->
            str_strip (str_lower s) = strip (string_map ascii_lower s)).
  { intros s Hs. rewrite (str_lower_ascii s Hs). apply str_strip_ascii.
    unfold is_ascii in *. rewrite string_forall_map.
    revert Hs. apply string_forall_impl.
    intros c. destruct c as [[] [] [] [] [] [] [] []]; simpl;
      intros; try discriminate; reflexivity. }
  split; [|split; [|split]].
  - rewrite Hstrip, (Hstrip b Hb).
    + rewrite !string_map_app.
      rewrite (string_map_id_on _ is_space pre ascii_lower_space Hpre).
      rewrite (string_map_id_on _ is_space post ascii_lower_space Hpost).
      rewrite strip_padding by assumption. rewrite Hsame. reflexivity.
    + rewrite !is_ascii_app, Ha, (spaces_ascii pre Hpre),
        (spaces_ascii post Hpost). reflexivity.
  - rewrite (str_upper_ascii a Ha).
    rewrite Hstrip by (rewrite is_ascii_upper; exact Ha).
    rewrite (Hstrip a Ha). do 4 f_equal.
    clear. induction a as [|c rest IH]; simpl; [reflexivity|].
    rewrite ascii_lower_upper, IH. reflexivity.
  - rewrite hex_of_bytes_length, digest_length. reflexivity.
  - apply hex_of_bytes_is_hex.
Qed.

End Normalisation.

Lemma hash_email_normalizes_witness :
  hash_email (" " ++ "User@Example.COM" ++ " ") = hash_email "user@example.com"
  /\ hash_email (str_upper "User@Example.COM") = hash_email "User@Example.COM"
  /\ String.length (hash_email "User@Example.COM") = 64%nat
  /\ string_forall is_hex (hash_email "User@Example.COM") = true.
Proof.
  refine (hash_email_normalizes "User@Example.COM" "user@example.com" " " " "
            _ _ _ _ _); reflexivity.
Defined.

(** ** Links: the format of a code *)

Lemma without_final_newline_rstrip (s : string) :
  LinksApi.without_final_newline (rstrip s) = rstrip s.
Proof.
  induction s as [|c rest IH]; simpl; [reflexivity|].
  destruct (rstrip rest) as [|c' rest'] eqn:Hr.
  - destruct (is_space c) eqn:Hc; simpl; [reflexivity|].
    destruct (Ascii.eqb c "010") eqn:Hnl; [|reflexivity].
    apply Ascii.eqb_eq in Hnl. subst c. discriminate.
  - change (LinksApi.without_final_newline (String c (String c' rest')))
      with (String c (LinksApi.without_final_newline (String c' rest'))).
    rewrite IH. reflexivity.
Qed.

Lemma lstrip_map (f : ascii -> ascii) (s : string) :
  (forall c, is_space (f c) = is_space c) ->
  lstrip (string_map f s) = string_map f (lstrip s).
Proof.
  intros Hf. induction s as [|c rest IH]; simpl; [reflexivity|].
  rewrite Hf. destruct (is_space c); [exact IH|reflexivity].
Qed.

Lemma rstrip_map (f : ascii -> ascii) (s : string) :
  (forall c, is_space (f c) = is_space c) ->
  rstrip (string_map f s) = string_map f (rstrip s).
Proof.
  intros Hf. induction s as [|c rest IH]; simpl; [reflexivity|].
  rewrite IH, Hf. destruct (rstrip rest); simpl; [|reflexivity].
  destruct (is_space c); reflexivity.
Qed.

Lemma strip_map (f : ascii -> ascii) (s : string) :
  (forall c, is_space (f c) = is_space c) ->
  strip (string_map f s) = string_map f (strip s).
Proof.
  intros Hf. unfold strip. rewrite lstrip_map, rstrip_map by exact Hf.
  reflexivity.
Qed.

Lemma is_code_char_upper (c : ascii) :
  LinksApi.is_code_char (ascii_upper c) = LinksApi.is_alnum c.
Proof. destruct c as [[] [] [] [] [] [] [] []]; reflexivity. Qed.

Section Links.

Context {M : StrMethods}.

Import LinksApi.

(** X20: [exchange_code] and [is_valid_code_format] agree on every code:
    a code the check refuses makes [exchange_code] raise a
    [ValidationError] with nothing sent, and so does an empty user id or
    one of more than 255 characters; otherwise one call of [request] is
    made, a POST to [/authorize/exchange] carrying the normalised code and
    the user id. *)
Theorem exchange_code_sends_iff (self : LinksApi) (E : api_env)
    (code tool_user_id : string) (aw : api_world) :
  let accepted :=
    is_valid_code_format code
    && negb (String.eqb tool_user_id "")
    && (py_len tool_user_id <=? 255) in
  (accepted = false ->
   exists text,
     exchange_code self E code tool_user_id aw = (validation_error text, aw))
  /\ (accepted = true ->
      requested (snd (exchange_code self E code tool_user_id aw))
      = (requested aw
         ++ [("POST", url_of (_http self) "/authorize/exchange",
              JObj [("code", JStr (normalize_code code));
                    ("redirectUri", JStr tool_user_id)])])%list).
Proof.
  intros accepted. unfold accepted, exchange_code, is_valid_code_format,
    normalize_code.
  destruct (String.eqb code "") eqn:Hcode.
  - cbn [andb]. split; [|discriminate].
    intros _. simpl. eexists; reflexivity.
  - destruct (String.eqb (str_strip (str_upper code)) "") eqn:Hnorm.
    + apply String.eqb_eq in Hnorm. rewrite Hnorm.
      change (CODE_REGEX_match "") with false. cbn [andb].
      split; [|discriminate]. intros _. eexists; reflexivity.
    + destruct (CODE_REGEX_match (str_strip (str_upper code))); cbn [negb andb];
        [|split; [intros _; eexists; reflexivity|discriminate]].
      destruct (String.eqb tool_user_id ""); cbn [negb andb];
        [split; [intros _; eexists; reflexivity|discriminate]|].
      rewrite Z.gtb_ltb.
      destruct (py_len tool_user_id <=? 255) eqn:Hlen.
      * apply Z.leb_le in Hlen.
        replace (255 <? py_len tool_user_id) with false
          by (symmetry; apply Z.ltb_ge; exact Hlen).
        split; [discriminate|]. intros _.
        unfold post.
        destruct (request (_http self) (net E) (http_world aw)) as [[data|e] w];
          reflexivity.
      * apply Z.leb_gt in Hlen.
        replace (255 <? py_len tool_user_id) with true
          by (symmetry; apply Z.ltb_lt; exact Hlen).
        split; [intros _; eexists; reflexivity|discriminate].
Qed.

(** X21: on ASCII text [is_valid_code_format] accepts exactly the codes
    that, once the whitespace around them is taken off, are 6 to 10 letters
    and digits, the letters in either case. *)
Theorem valid_code_format_ascii (code : string) :
  is_ascii code = true ->
  is_valid_code_format code
  = (string_forall is_alnum (strip code)
     && (6 <=? Z.of_nat (String.length (strip code)))
     && (Z.of_nat (String.length (strip code)) <=? 10)).
Proof.
  intros Hascii. unfold is_valid_code_format.
  destruct (String.eqb code "") eqn:Hcode.
  - apply String.eqb_eq in Hcode. subst code. reflexivity.
  - rewrite (str_upper_ascii code Hascii).
    rewrite str_strip_ascii by (rewrite is_ascii_upper; exact Hascii).
    unfold CODE_REGEX_match.
    assert (Hw : without_final_newline (strip (string_map ascii_upper code))
                 = strip (string_map ascii_upper code))
      by apply without_final_newline_rstrip.
    rewrite Hw, (strip_map _ _ ascii_upper_is_space).
    rewrite string_forall_map, string_map_length.
    rewrite (string_forall_ext _ is_alnum _ is_code_char_upper).
    reflexivity.
Qed.

End Links.

Lemma valid_code_format_ascii_witness :
  LinksApi.is_valid_code_format " abc123 " = true
  /\ LinksApi.is_valid_code_format "abc-123" = false
  /\ LinksApi.is_valid_code_format "abc12" = false.
Proof.
  split; [|split].
  - rewrite (valid_code_format_ascii " abc123 ") by reflexivity. reflexivity.
  - rewrite (valid_code_format_ascii "abc-123") by reflexivity. reflexivity.
  - rewrite (valid_code_format_ascii "abc12") by reflexivity. reflexivity.
Defined.

(** ** Credits *)

Section Credits.

Import CreditsApi.

Implicit Types (self : CreditsApi) (E : api_env) (aw : api_world).

Lemma consume_accepted self E (user_id : string) (amount : json)
    (reason idempotency_key : string) aw :
  accepts user_id amount reason idempotency_key = true ->
  consume self E user_id amount reason idempotency_key aw
  = match post (_http self) E "/credits/consume"
            (snd (consume_request self user_id amount reason
                    idempotency_key)) aw with
    | (Raise e, aw1) => (Raise e, aw1)
    | (Ret data, aw1) =>
        (do success <- dict_get data "success" (JBool true);
         do new_balance <- dict_get data "new_balance" JNull;
         do transaction_id <- dict_get data "transaction_id" JNull;
         do is_duplicate <- dict_get data "is_duplicate" (JBool false);
         Ret (JObj [("success", success);
                    ("new_balance", new_balance);
                    ("transaction_id", transaction_id);
                    ("is_duplicate", is_duplicate)]),
         aw1)
    end.
Proof.
  unfold accepts, consume.
  destruct (String.eqb user_id ""); [discriminate|].
  destruct (int_instance amount) as [n|]; [|discriminate].
  destruct (1 <=? n) eqn:H1; [|discriminate].
  destruct (n <=? 1000000) eqn:H2; [|discriminate].
  apply Z.leb_le in H1, H2.
  replace (n <=? 0) with false by (symmetry; apply Z.leb_gt; lia).
  replace (n >? 1000000) with false
    by (symmetry; rewrite Z.gtb_ltb; apply Z.ltb_ge; lia).
  destruct (String.eqb reason ""); [discriminate|].
  destruct (py_len reason <=? 500) eqn:H3; [|discriminate].
  apply Z.leb_le in H3.
  replace (py_len reason >? 500) with false
    by (symmetry; rewrite Z.gtb_ltb; apply Z.ltb_ge; lia).
  destruct (String.eqb idempotency_key ""); [discriminate|].
  destruct (py_len idempotency_key <=? 255) eqn:H4; [|discriminate].
  apply Z.leb_le in H4.
  replace (py_len idempotency_key >? 255) with false
    by (symmetry; rewrite Z.gtb_ltb; apply Z.ltb_ge; lia).
  intros _. reflexivity.
Qed.

(** X22: [consume] calls the transport exactly for a user id, an integer
    amount from 1 to 1000000 (both accepted), a reason of 1 to 500
    characters and a key of 1 to 255 characters: then it makes one POST to
    [/credits/consume] with the four arguments; otherwise it raises a
    [ValidationError] and nothing is sent. *)
Theorem consume_sends_iff self E (user_id : string) (amount : json)
    (reason idempotency_key : string) aw :
  (accepts user_id amount reason idempotency_key = false ->
   exists text,
     consume self E user_id amount reason idempotency_key aw
     = (validation_error text, aw))
  /\ (accepts user_id amount reason idempotency_key = true ->
      requested (snd (consume self E user_id amount reason idempotency_key aw))
      = (requested aw
         ++ [consume_request self user_id amount reason idempotency_key])%list)
  /\ accepts "u" (JInt 1) "r" "k" = true
  /\ accepts "u" (JInt 1000000) "r" "k" = true
  /\ accepts "u" (JInt 0) "r" "k" = false
  /\ accepts "u" (JInt 1000001) "r" "k" = false.
Proof.
  split; [|split; [|repeat split]].
  - unfold accepts, consume.
    destruct (String.eqb user_id ""); [intros _; eexists; reflexivity|].
    destruct (int_instance amount) as [n|];
      [|intros _; eexists; reflexivity].
    destruct (n <=? 0) eqn:H0; [intros _; eexists; reflexivity|].
    apply Z.leb_gt in H0.
    replace (1 <=? n) with true by (symmetry; apply Z.leb_le; lia).
    rewrite Z.gtb_ltb.
    destruct (1000000 <? n) eqn:H1; [intros _; eexists; reflexivity|].
    apply Z.ltb_ge in H1.
    replace (n <=? 1000000) with true by (symmetry; apply Z.leb_le; lia).
    destruct (String.eqb reason ""); [intros _; eexists; reflexivity|].
    rewrite Z.gtb_ltb.
    destruct (500 <? py_len reason) eqn:H2; [intros _; eexists; reflexivity|].
    apply Z.ltb_ge in H2.
    replace (py_len reason <=? 500) with true
      by (symmetry; apply Z.leb_le; lia).
    destruct (String.eqb idempotency_key "");
      [intros _; eexists; reflexivity|].
    rewrite Z.gtb_ltb.
    destruct (255 <? py_len idempotency_key) eqn:H3;
      [intros _; eexists; reflexivity|].
    apply Z.ltb_ge in H3.
    replace (py_len idempotency_key <=? 255) with true
      by (symmetry; apply Z.leb_le; lia).
    discriminate.
  - intros Hacc. rewrite (consume_accepted _ _ _ _ _ _ _ Hacc).
    unfold post, consume_request; cbn [snd].
    destruct (request (_http self) (net E) (http_world aw)) as [[data|e] w];
      reflexivity.
Qed.

(** X23: [has_enough] never raises, and it answers [True] exactly when
    the request returns an object whose [creditsRemaining] (0 when absent)
    is a number not below the amount: a failed request, an answer that is
    not an object and a balance that is not a number all read as not
    enough. *)
Theorem has_enough_true_iff self E (user_id : string) (amount : Z) aw :
  fst (has_enough self E user_id amount aw) = true
  <-> exists fields balance,
        fst (request (_http self) (net E) (http_world aw))
        = Ret (JObj fields)
        /\ as_int (get_default fields "creditsRemaining" (JInt 0))
           = Some balance
        /\ amount <= balance.
Proof.
  unfold has_enough, post.
  destruct (request (_http self) (net E) (http_world aw)) as [[data|e] w];
    cbn [fst]; split.
  - destruct data as [| | | | |fields]; try discriminate.
    cbn [dict_get bind]. unfold ge_int.
    destruct (as_int (get_default fields "creditsRemaining" (JInt 0)))
      as [b|] eqn:Hb; [|discriminate].
    cbn [fst]. intros H. apply Z.leb_le in H.
    exists fields, b. repeat split; [exact Hb|exact H].
  - intros (fields & b & [= ->] & Hb & Hle).
    cbn [dict_get bind]. unfold ge_int. rewrite Hb. cbn [fst].
    apply Z.leb_le. exact Hle.
  - discriminate.
  - intros (fields & b & H & _). discriminate.
Qed.

(** X24: when the answer to an accepted [consume] is 400 with
    [error == "INSUFFICIENT_CREDITS"] and integer balances, [try_consume]
    returns [False] with the message of the error and the shortfall
    [required - current_balance], after one request. *)
Theorem try_consume_reports_shortfall self E (user_id : string)
    (amount : json) (reason idempotency_key : string) aw
    (r : response) (fields : list (string * json)) (c q : Z) :
  accepts user_id amount reason idempotency_key = true ->
  0 <= max_retries (_http self) ->
  server (net E) (sent (http_world aw)) = Responds r ->
  resp_status r = 400 ->
  error_body r = JObj fields ->
  get_default fields "error" JNull = JStr "INSUFFICIENT_CREDITS" ->
  as_int (get_default fields "current_balance" (JInt 0)) = Some c ->
  as_int (get_default fields "required" (JInt 0)) = Some q ->
  try_consume self E user_id amount reason idempotency_key aw
  = (TryInsufficient
       (FString [Lit "Insufficient credits. Current: ";
                 Interp (get_default fields "current_balance" (JInt 0));
                 Lit ", Required: ";
                 Interp (get_default fields "required" (JInt 0))])
       (Some (JInt (q - c))),
     mkApiWorld
       (mkWorld (S (sent (http_world aw))) (draws (http_world aw))
                (slept (http_world aw)))
       (clock_reads aw)
       (requested aw
        ++ [consume_request self user_id amount reason idempotency_key])).
Proof.
  intros Hacc Hmax Hsrv Hstatus Hbody Herr Hc Hq.
  unfold try_consume. rewrite (consume_accepted _ _ _ _ _ _ _ Hacc).
  unfold post.
  assert (Hok : ok r = false) by (unfold ok; rewrite Hstatus; reflexivity).
  destruct (error_response_not_retried _ _ _ _ Hmax Hsrv Hok)
    as (e & He & ->).
  rewrite Hstatus, Hbody in He.
  destruct (parse_400_insufficient fields c q Herr Hc Hq)
    as (err & Hmk & Hparse & Hshort).
  rewrite Hparse in He. unfold raise_error in He. injection He as <-.
  unfold InsufficientCreditsError in Hmk. rewrite Hq, Hc in Hmk.
  injection Hmk as <-. reflexivity.
Qed.

End Credits.

Lemma try_consume_reports_shortfall_witness :
  CreditsApi.try_consume credits_client insufficient_server "u1" (JInt 20)
    "render" "req-1" api_world0
  = (CreditsApi.TryInsufficient
       (FString [Lit "Insufficient credits. Current: "; Interp (JInt 5);
                 Lit ", Required: "; Interp (JInt 20)])
       (Some (JInt 15)),
     mkApiWorld (mkWorld 1 0 []) 0
       [CreditsApi.consume_request credits_client "u1" (JInt 20)
          "render" "req-1"]).
Proof.
  refine (try_consume_reports_shortfall credits_client insufficient_server
            "u1" (JInt 20) "render" "req-1" api_world0
            (mkResponse 400 insufficient_text
               (Decoded (JObj insufficient_fields)))
            insufficient_fields 5 20 _ _ _ _ _ _ _ _).
  - reflexivity.
  - simpl. lia.
  - reflexivity.
  - reflexivity.
  - reflexivity.
  - reflexivity.
  - reflexivity.
  - reflexivity.
Defined.

(** ** Subscriptions: the cache *)

Section Subscriptions.

Context {M : StrMethods}.

Import SubscriptionsApi.

Implicit Types (self : SubscriptionsApi) (E : api_env) (aw : api_world).

Lemma given_any (a b c : option string) :
  given a || given b || given c = true ->
  negb (given a) && negb (given b) && negb (given c) = false.
Proof. destruct (given a), (given b), (given c); simpl; congruence. Qed.

Lemma get_cached_absent self E (key : string) aw :
  _cache self !! key = None ->
  _get_cached self E key aw = (None, self, aw).
Proof.
  intros Hnone. unfold _get_cached.
  destruct (_cache_enabled self); simpl; [|reflexivity].
  change (_cache self !! key) with (_cache self !! key).
  rewrite Hnone. reflexivity.
Qed.

Lemma set_cached_requested self E (key : string) (data : json) aw :
  requested (snd (_set_cached self E key data aw)) = requested aw.
Proof. unfold _set_cached. destruct (_cache_enabled self); reflexivity. Qed.

Lemma after_miss_requested self E (a b c : option string) aw :
  requested (snd (after_miss self E a b c aw))
  = (requested aw ++ [verify_request self a b c])%list.
Proof.
  unfold after_miss, post, verify_request; cbn [snd].
  destruct (request (_http self) (net E) (http_world aw)) as [[d|e] w];
    [|reflexivity].
  destruct (dict_get d "oneSubUserId" JNull) as [id|e]; [|reflexivity].
  destruct (truthy id); [|reflexivity].
  pose proof (set_cached_requested self E (sub_key id) d
                (mkApiWorld w (clock_reads aw)
                   (requested aw
                    ++ [("POST",
                         url_of (_http self) "/tools/subscriptions/verify",
                         JObj (param "oneSubUserId" a
                               ++ param "toolUserId" b
                               ++ param "emailSha256" c))]))) as H1.
  destruct (_set_cached self E (sub_key id) d _) as [self2 aw3].
  cbn [snd requested] in H1.
  destruct (match id with
            | JStr s => negb (String.eqb (first_given a b c) s)
            | _ => true
            end); [|exact H1].
  pose proof (set_cached_requested self2 E
                (sub_key (JStr (first_given a b c))) d aw3) as H2.
  destruct (_set_cached self2 E (sub_key (JStr (first_given a b c))) d aw3)
    as [self3 aw4].
  cbn [snd] in *. rewrite H2. exact H1.
Qed.

Lemma verify_miss self E (a b c : option string) aw :
  given a || given b || given c = true ->
  _cache self !! ("sub:" ++ first_given a b c) = None ->
  verify self E a b c aw = after_miss self E a b c aw.
Proof.
  intros Hgiven Hmiss. unfold verify. rewrite (given_any a b c Hgiven).
  unfold sub_key at 1, format_value.
  rewrite (get_cached_absent self E _ aw Hmiss). reflexivity.
Qed.

(** X25: a live entry answers [verify] without the transport: with the
    cache enabled, an entry under the key of the first identifier given
    and a clock before its expiry, [verify] returns the stored data; no
    request is made and the cache is as it was. *)
Theorem verify_cache_hit self E (a b c : option string) aw
    (data : json) (expiry : Q) :
  _cache_enabled self = true ->
  given a || given b || given c = true ->
  _cache self !! ("sub:" ++ first_given a b c) = Some (data, expiry) ->
  truthy data = true ->
  (clock E (clock_reads aw) < expiry)%Q ->
  verify self E a b c aw
  = (Ret data, self,
     mkApiWorld (http_world aw) (S (clock_reads aw)) (requested aw)).
Proof.
  intros Hen Hgiven Hentry Htruthy Hlive.
  unfold verify. rewrite (given_any a b c Hgiven).
  unfold _get_cached, sub_key, format_value. rewrite Hen. cbn [negb].
  change (_cache self !! ("sub:" ++ first_given a b c))
    with (_cache self !! ("sub:" ++ first_given a b c)).
  rewrite Hentry. cbn [time_time].
  destruct (Qlt_le_dec (clock E (clock_reads aw)) expiry) as [_|Hle].
  - rewrite Htruthy. reflexivity.
  - exfalso. exact (Qlt_not_le _ _ Hlive Hle).
Qed.

(** X26: an entry whose expiry the clock has reached is deleted and
    [verify] goes on as on a miss: the request is made, and the answer is
    stored again. *)
Theorem verify_cache_expired self E (a b c : option string) aw
    (data : json) (expiry : Q) :
  _cache_enabled self = true ->
  given a || given b || given c = true ->
  _cache self !! ("sub:" ++ first_given a b c) = Some (data, expiry) ->
  (expiry <= clock E (clock_reads aw))%Q ->
  let key := ("sub:" ++ first_given a b c)%string in
  let self1 := set_cache self (delete key (_cache self)) in
  let aw1 := mkApiWorld (http_world aw) (S (clock_reads aw)) (requested aw) in
  verify self E a b c aw = after_miss self1 E a b c aw1
  /\ requested (snd (verify self E a b c aw))
     = (requested aw ++ [verify_request self a b c])%list.
Proof.
  intros Hen Hgiven Hentry Hdead key self1 aw1.
  assert (Heq : verify self E a b c aw = after_miss self1 E a b c aw1).
  { unfold verify. rewrite (given_any a b c Hgiven).
    unfold _get_cached, sub_key at 1, format_value. rewrite Hen. cbn [negb].
    change (_cache self !! ("sub:" ++ first_given a b c))
      with (_cache self !! ("sub:" ++ first_given a b c)).
    rewrite Hentry. cbn [time_time].
    destruct (Qlt_le_dec (clock E (clock_reads aw)) expiry) as [Hlt|_].
    - exfalso. exact (Qlt_not_le _ _ Hlt Hdead).
    - reflexivity. }
  split; [exact Heq|]. rewrite Heq, after_miss_requested. reflexivity.
Qed.


(** X28: with the cache disabled [verify] neither reads the clock nor
    stores anything, and every call with an identifier makes a request. *)
Theorem verify_without_cache self E (a b c : option string) aw :
  _cache_enabled self = false ->
  let '(res, self1, aw1) := verify self E a b c aw in
  self1 = self
  /\ clock_reads aw1 = clock_reads aw
  /\ (given a || given b || given c = true ->
      requested aw1 = (requested aw ++ [verify_request self a b c])%list).
Proof.
  intros Hoff. unfold verify.
  destruct (negb (given a) && negb (given b) && negb (given c)) eqn:Hnone.
  - repeat split. intros Hgiven. rewrite (given_any a b c Hgiven) in Hnone.
    discriminate.
  - unfold _get_cached. rewrite Hoff. cbn [negb].
    unfold post, verify_request.
    destruct (request (_http self) (net E) (http_world aw)) as [[d|e] w];
      [|repeat split; try (intros _; reflexivity)].
    destruct (dict_get d "oneSubUserId" JNull) as [id|e];
      [|repeat split; try (intros _; reflexivity)].
    destruct (truthy id); [|repeat split; try (intros _; reflexivity)].
    unfold _set_cached. rewrite Hoff. cbv beta iota. rewrite ?Hoff.
    destruct (match id with
              | JStr s => negb (String.eqb (first_given a b c) s)
              | _ => true
              end); repeat split; try (intros _; reflexivity).
Qed.

Lemma set_cached_prefixed self E (v : json) (data : json) aw :
  keys_prefixed self ->
  keys_prefixed (fst (_set_cached self E (sub_key v) data aw)).
Proof.
  intros Hinv. unfold _set_cached.
  destruct (_cache_enabled self); [|exact Hinv].
  intros k. unfold set_cache; cbn [fst _cache time_time].
  destruct (decide (sub_key v = k)) as [<-|Hne].
  - intros _. reflexivity.
  - rewrite lookup_insert_ne by exact Hne. apply Hinv.
Qed.

Lemma after_miss_prefixed self E (a b c : option string) aw :
  keys_prefixed self ->
  keys_prefixed (snd (fst (after_miss self E a b c aw))).
Proof.
  intros Hinv. unfold after_miss.
  destruct (post _ _ _ _ _) as [[d|e] aw2]; [|exact Hinv].
  destruct (dict_get d "oneSubUserId" JNull) as [id|e]; [|exact Hinv].
  destruct (truthy id); [|exact Hinv].
  pose proof (set_cached_prefixed self E id d aw2 Hinv) as H2.
  destruct (_set_cached self E (sub_key id) d aw2) as [self2 aw3].
  cbn [fst] in H2.
  destruct (match id with
            | JStr s => negb (String.eqb (first_given a b c) s)
            | _ => true
            end); [|exact H2].
  pose proof (set_cached_prefixed self2 E (JStr (first_given a b c)) d aw3 H2)
    as H3.
  destruct (_set_cached self2 E (sub_key (JStr (first_given a b c))) d aw3)
    as [self3 aw4].
  exact H3.
Qed.

Lemma verify_prefixed self E (a b c : option string) aw :
  keys_prefixed self ->
  keys_prefixed (snd (fst (verify self E a b c aw))).
Proof.
  intros Hinv. unfold verify.
  destruct (negb (given a) && negb (given b) && negb (given c));
    [exact Hinv|].
  assert (Hget : keys_prefixed
            (snd (fst (_get_cached self E
                         (sub_key (JStr (first_given a b c))) aw)))).
  { unfold _get_cached.
    destruct (negb (_cache_enabled self)); [exact Hinv|].
    destruct (_cache self !! sub_key (JStr (first_given a b c)))
      as [[d expiry]|]; [|exact Hinv].
    cbn [time_time].
    destruct (Qlt_le_dec _ _); [exact Hinv|].
    intros k. unfold set_cache; cbn [snd fst _cache].
    intros [x Hx]. apply lookup_delete_Some in Hx as [_ Hx].
    apply Hinv. eexists; exact Hx. }
  destruct (_get_cached self E (sub_key (JStr (first_given a b c))) aw)
    as [[cached self1] aw1].
  cbn [snd fst] in Hget.
  destruct (match cached with Some d => truthy d | None => false end);
    [exact Hget|].
  exact (after_miss_prefixed self1 E a b c aw1 Hget).
Qed.

(** X29: every key the cache gets starts with [sub:], from [__init__]
    on and through [verify]; [invalidate_cache] looks the bare user id up,
    so that for an id that does not itself start with [sub:] it finds
    nothing and removes nothing: the entry of the user stays in the
    cache. *)
Theorem invalidate_cache_finds_nothing self (uid : string) :
  (forall http enabled ttl, keys_prefixed (init http enabled ttl))
  /\ (forall E a b c aw,
        keys_prefixed self ->
        keys_prefixed (snd (fst (verify self E a b c aw))))
  /\ (keys_prefixed self ->
      startswith "sub:" uid = false ->
      invalidate_cache self uid = (Ret tt, self)
      /\ _cache (snd (invalidate_cache self uid)) !! ("sub:" ++ uid)
         = _cache self !! ("sub:" ++ uid)).
Proof.
  split; [|split].
  - intros http enabled ttl k [x Hx]. unfold init in Hx; cbn [_cache] in Hx.
    rewrite lookup_empty in Hx. discriminate.
  - intros E a b c aw. apply verify_prefixed.
  - intros Hinv Hbare.
    assert (Hno : invalidate_cache self uid = (Ret tt, self)).
    { unfold invalidate_cache.
      destruct (_cache self !! uid) as [x|] eqn:Hx; [|reflexivity].
      rewrite (Hinv uid) in Hbare by (eexists; exact Hx). discriminate. }
    rewrite Hno. split; reflexivity.
Qed.

End Subscriptions.

Lemma verify_cache_hit_witness :
  SubscriptionsApi.verify (cached_u1 1060) sub_server (Some "u1") None None
    api_world0
  = (Ret (JObj sub_u1), cached_u1 1060, mkApiWorld world0 1 []).
Proof.
  refine (verify_cache_hit (cached_u1 1060) sub_server (Some "u1") None None
            api_world0 (JObj sub_u1) (inject_Z 1060) _ _ _ _ _).
  - reflexivity.
  - reflexivity.
  - vm_compute. reflexivity.
  - reflexivity.
  - unfold Qlt. simpl. lia.
Defined.

Lemma verify_cache_expired_witness :
  SubscriptionsApi.verify (cached_u1 1000) sub_server (Some "u1") None None
    api_world0
  = (Ret (JObj sub_u1), cached_u1 1061,
     mkApiWorld (mkWorld 1 0 []) 2
       [SubscriptionsApi.verify_request cached_client (Some "u1") None None]).
Proof.
  destruct (verify_cache_expired (cached_u1 1000) sub_server (Some "u1")
              None None api_world0 (JObj sub_u1) (inject_Z 1000))
    as [Heq _].
  - reflexivity.
  - reflexivity.
  - vm_compute. reflexivity.
  - unfold Qle. simpl. lia.
  - rewrite Heq. vm_compute. reflexivity.
Defined.


Lemma verify_without_cache_witness :
  let '(res, self1, aw1) :=
    SubscriptionsApi.verify uncached_client sub_server (Some "u1") None None
      api_world0 in
  self1 = uncached_client
  /\ clock_reads aw1 = 0%nat
  /\ (SubscriptionsApi.given (Some "u1") || SubscriptionsApi.given None
      || SubscriptionsApi.given None = true ->
      requested aw1
      = [SubscriptionsApi.verify_request uncached_client (Some "u1")
           None None]).
Proof.
  refine (verify_without_cache uncached_client sub_server (Some "u1") None
            None api_world0 _).
  reflexivity.
Defined.

Lemma cached_u1_prefixed (expiry : Z) :
  SubscriptionsApi.keys_prefixed (cached_u1 expiry).
Proof.
  intros k [x Hx]. unfold cached_u1, SubscriptionsApi.set_cache in Hx.
  cbn [SubscriptionsApi._cache] in Hx.
  apply lookup_singleton_Some in Hx as [<- _]. reflexivity.
Qed.

Lemma invalidate_cache_finds_nothing_witness :
  SubscriptionsApi.invalidate_cache (cached_u1 1060) "u1"
  = (Ret tt, cached_u1 1060)
  /\ SubscriptionsApi._cache
       (snd (SubscriptionsApi.invalidate_cache (cached_u1 1060) "u1"))
     !! "sub:u1"
     = SubscriptionsApi._cache (cached_u1 1060) !! "sub:u1".
Proof.
  refine (proj2 (proj2 (invalidate_cache_finds_nothing (cached_u1 1060) "u1"))
            (cached_u1_prefixed 1060) _).
  reflexivity.
Defined.

(** ** Client: construction and [close] *)

Lemma app_char_nonempty (t : string) (c : ascii) :
  (t ++ String c "")%string <> "".
Proof. destruct t; discriminate. Qed.

Lemma rstrip_char_not_trailing (c : ascii) (s : string) :
  forall t, rstrip_char c s <> (t ++ String c "")%string.
Proof.
  induction s as [|a rest IH]; intros t; cbn [rstrip_char].
  - intros H. symmetry in H. exact (app_char_nonempty t c H).
  - destruct (rstrip_char c rest) as [|x r] eqn:Hr.
    + destruct (Ascii.eqb a c) eqn:Hac.
      * intros H. symmetry in H. exact (app_char_nonempty t c H).
      * apply Ascii.eqb_neq in Hac. destruct t as [|y t']; simpl.
        -- intros [= H]. contradiction.
        -- intros [= _ H]. exact (app_char_nonempty t' c (eq_sym H)).
    + destruct t as [|y t']; simpl.
      * discriminate.
      * intros [= _ H]. exact (IH t' H).
Qed.

Lemma rstrip_char_tail (c : ascii) (s : string) :
  exists tail,
    s = (rstrip_char c s ++ tail)%string
    /\ string_forall (Ascii.eqb c) tail = true.
Proof.
  induction s as [|a rest (tail & Heq & Hall)]; cbn [rstrip_char].
  - exists "". split; reflexivity.
  - destruct (rstrip_char c rest) as [|x r] eqn:Hr.
    + change ("" ++ tail)%string with tail in Heq. subst tail.
      destruct (Ascii.eqb a c) eqn:Hac.
      * apply Ascii.eqb_eq in Hac. subst a. exists (String c rest).
        split; [reflexivity|]. cbn [string_forall].
        rewrite Ascii.eqb_refl. exact Hall.
      * exists rest. split; [reflexivity|exact Hall].
    + exists tail. split; [|exact Hall].
      change (String a (String x r) ++ tail)%string
        with (String a (String x r ++ tail)).
      rewrite <- Heq. reflexivity.
Qed.

Section ClientProperties.

Context {M : StrMethods}.

(** X30: [OneSub(...)] is built exactly for an API key that starts with
    [sk-tool-], and raises a [ValidationError] for every other key, the
    empty one included.  The client built has the base URL without the
    slashes at its end, the webhook secret or the empty text, a tolerance
    of 300 seconds, an empty cache and no processed event, so that [close]
    leaves it as it is.  On every client [close] empties the cache and the
    processed set and keeps the handlers: the next [verify] makes a
    request. *)
Theorem client_init_and_close (key : string) (ws : option string)
    (url : string) (t : Z) (cached : bool) (ttl retries : Z) (dbg : bool) :
  (startswith "sk-tool-" key = false ->
   exists text,
     Client.init key ws url t cached ttl retries dbg = validation_error text)
  /\ (startswith "sk-tool-" key = true ->
      exists o,
        Client.init key ws url t cached ttl retries dbg = Ret o
        /\ (exists tail,
              url = (base_url (Client._http o) ++ tail)%string
              /\ string_forall (Ascii.eqb "/") tail = true)
        /\ (forall s, base_url (Client._http o) <> (s ++ "/")%string)
        /\ SubscriptionsApi._http (Client.subscriptions o) = Client._http o
        /\ secret (Client.webhooks o) = default "" ws
        /\ tolerance_seconds (Client.webhooks o) = 300
        /\ Client.close o = o)
  /\ (forall o : Client.OneSub,
        SubscriptionsApi._cache (Client.subscriptions (Client.close o)) = ∅
        /\ (forall k, is_processed (Client.webhooks (Client.close o)) k = false)
        /\ _handlers (Client.webhooks (Client.close o))
           = _handlers (Client.webhooks o)
        /\ (forall E a b c aw,
              SubscriptionsApi.given a || SubscriptionsApi.given b
              || SubscriptionsApi.given c = true ->
              requested
                (snd (SubscriptionsApi.verify
                        (Client.subscriptions (Client.close o)) E a b c aw))
              = (requested aw
                 ++ [SubscriptionsApi.verify_request
                       (Client.subscriptions o) a b c])%list)).
Proof.
  split; [|split].
  - intros Hbad. unfold Client.init.
    destruct (String.eqb key ""); [eexists; reflexivity|].
    rewrite Hbad. eexists; reflexivity.
  - intros Hgood. unfold Client.init.
    destruct (String.eqb key "") eqn:Hempty.
    { apply String.eqb_eq in Hempty. subst key. discriminate. }
    rewrite Hgood. cbn [negb]. eexists. split; [reflexivity|].
    cbn [Client._http Client.subscriptions Client.webhooks HttpClient_init
         base_url].
    split; [apply rstrip_char_tail|].
    split; [apply rstrip_char_not_trailing|].
    split; [reflexivity|]. split; [|split; reflexivity].
    destruct ws as [s|]; [|reflexivity].
    unfold SubscriptionsApi.given. destruct (String.eqb s "") eqn:Hs;
      [|reflexivity].
    apply String.eqb_eq in Hs. subst s. reflexivity.
  - intros o. split; [reflexivity|].
    split; [intros k; apply bool_decide_eq_false_2, not_elem_of_empty|].
    split; [reflexivity|].
    intros E a b c aw Hgiven.
    rewrite verify_miss by (try exact Hgiven; apply lookup_empty).
    rewrite after_miss_requested. reflexivity.
Qed.

End ClientProperties.

Lemma client_init_and_close_witness :
  (exists text,
     Client.init "tool-key" None "https://1sub.io/api/v1/" 30 true 60 3 false
     = validation_error text)
  /\ exists o,
       Client.init "sk-tool-test" (Some "whsec_test")
         "https://1sub.io/api/v1/" 30 true 60 3 false
       = Ret o
       /\ (exists tail,
             "https://1sub.io/api/v1/"
             = (base_url (Client._http o) ++ tail)%string
             /\ string_forall (Ascii.eqb "/") tail = true)
       /\ (forall s, base_url (Client._http o) <> (s ++ "/")%string)
       /\ SubscriptionsApi._http (Client.subscriptions o) = Client._http o
       /\ secret (Client.webhooks o) = "whsec_test"
       /\ tolerance_seconds (Client.webhooks o) = 300
       /\ Client.close o = o.
Proof.
  split.
  - refine (proj1 (client_init_and_close "tool-key" None
                     "https://1sub.io/api/v1/" 30 true 60 3 false) _).
    reflexivity.
  - refine (proj1 (proj2 (client_init_and_close "sk-tool-test"
                            (Some "whsec_test") "https://1sub.io/api/v1/"
                            30 true 60 3 false)) _).
    reflexivity.
Defined.
